(** * Sentiment oracle: the data-integrity core of [oracle-publisher]

    A shallow embedding of [demo.py], [verify_tampering.py] and
    [compare_hashes.py]: canonical JSON rendering, SHA-256 hashing, the
    Ed25519 sign/verify wrappers, the keystore and envelope files, and the
    field-by-field comparison loop; and of the adjustment of a label by
    financial terms in [sentiment_analyzer.py].

    Python values are modelled as follows.
    - [bytes] is [list byte]; [str] is the list of its code points, [list N].
    - [int] is [Z]; [float] is [pyfloat] (see below); a [dict] is an
      association list in insertion order, without repeated keys.
    - A call that can raise returns a [result]; the file system is a finite
      map from paths to files.
    - [print] calls are left out, except the report of [compare_hashes.main],
      which is what that script produces, with the [UnicodeEncodeError] of
      the two calls that print a string of the record. The other calls
      print fixed text, file names, hexadecimal or base64 digits, or the
      output of [json.dumps], and cannot fail.

    The libraries are modelled from their behaviour in CPython 3.11:
    [json.dumps], [base64], UTF-8 and SHA-256 concretely, Ed25519 through its
    interface. An [int] of more than 4300 digits, which the interpreter
    refuses to turn into text, is not a value of the model (see [pyint]).
    Not modelled: the recursion limit, and I/O errors other than a missing
    file. *)

From Stdlib Require Import ZArith NArith List Bool Lia String Ascii.
From Stdlib Require Import Strings.Byte.
From Stdlib Require DecimalN DecimalZ.
From stdpp Require Import base option list sorting gmap strings.

Open Scope Z_scope.

(** ** Bytes *)

Abbreviation bytes := (list byte).

Definition Z_of_byte (b : byte) : Z := Z.of_N (Byte.to_N b).

Definition byte_of_Z (z : Z) : byte :=
  match Byte.of_N (Z.to_N (z mod 256)) with
  | Some b => b
  | None => x00
  end.

(** ** Strings: a Python [str] is its sequence of code points *)

Abbreviation pystr := (list N).

(** A literal of the source, all of them ASCII. *)
Definition lit (s : string) : pystr := map Byte.to_N (list_byte_of_string s).

(** ** Exceptions *)

Inductive exn : Type :=
| FileNotFoundError
| JSONDecodeError
| KeyError (key : list N)
| TypeError
| ValueError
| BinasciiError
| UnicodeEncodeError
| UnicodeDecodeError
| InvalidSignature.

Inductive result (A : Type) : Type :=
| Ok (a : A)
| Raise (e : exn).
Arguments Ok {A} a.
Arguments Raise {A} e.

#[export] Instance result_ret : MRet result := fun A a => Ok a.
#[export] Instance result_bind : MBind result := fun A B k r =>
  match r with
  | Ok a => k a
  | Raise e => Raise e
  end.

(** ** [hashlib.sha256] (FIPS 180-4), on 32-bit words held in [Z] *)

Module SHA256.

Definition w32 (x : Z) : Z := x mod 2 ^ 32.
Definition add32 (x y : Z) : Z := w32 (x + y).
Definition rotr (n x : Z) : Z :=
  Z.lor (Z.shiftr x n) (w32 (Z.shiftl x (32 - n))).
Definition not32 (x : Z) : Z := Z.lxor x 0xffffffff.

Definition Ch (x y z : Z) : Z := Z.lxor (Z.land x y) (Z.land (not32 x) z).
Definition Maj (x y z : Z) : Z :=
  Z.lxor (Z.lxor (Z.land x y) (Z.land x z)) (Z.land y z).
Definition Sigma0 (x : Z) : Z := Z.lxor (Z.lxor (rotr 2 x) (rotr 13 x)) (rotr 22 x).
Definition Sigma1 (x : Z) : Z := Z.lxor (Z.lxor (rotr 6 x) (rotr 11 x)) (rotr 25 x).
Definition sigma0 (x : Z) : Z := Z.lxor (Z.lxor (rotr 7 x) (rotr 18 x)) (Z.shiftr x 3).
Definition sigma1 (x : Z) : Z := Z.lxor (Z.lxor (rotr 17 x) (rotr 19 x)) (Z.shiftr x 10).

(** The round constants are the first 32 bits of the fractional parts of the
    cube roots of the first 64 primes; the initial hash value comes from the
    square roots of the first 8. *)
Definition is_prime (n : nat) : bool :=
  forallb (fun d => negb (n mod d =? 0)%nat) (seq 2 (n - 2)).

Definition primes : list Z := map Z.of_nat (filter is_prime (seq 2 310)).

(** The largest [r] with [r ^ 3 <= n], one bit at a time from bit [bits - 1]. *)
Fixpoint cube_root (bits : nat) (n r : Z) : Z :=
  match bits with
  | O => r
  | S bits' =>
      let r' := r + 2 ^ Z.of_nat bits' in
      cube_root bits' n (if r' ^ 3 <=? n then r' else r)
  end.

Definition K : list Z :=
  Eval vm_compute in map (fun p => w32 (cube_root 36 (p * 2 ^ 96) 0)) primes.

Record state : Type := State {
  ha : Z; hb : Z; hc : Z; hd : Z; he : Z; hf : Z; hg : Z; hh : Z
}.

Definition frac_sqrt (p : Z) : Z := w32 (Z.sqrt (p * 2 ^ 64)).

Definition H0 : state :=
  Eval vm_compute in
    State (frac_sqrt 2) (frac_sqrt 3) (frac_sqrt 5) (frac_sqrt 7)
          (frac_sqrt 11) (frac_sqrt 13) (frac_sqrt 17) (frac_sqrt 19).

(** Message padding: a 1 bit, zeros up to 56 mod 64, the bit length on 64 bits. *)
Definition be_bytes (n : nat) (x : Z) : bytes :=
  map (fun i => byte_of_Z (Z.shiftr x (8 * Z.of_nat (n - 1 - i)))) (seq 0 n).

Definition pad (msg : bytes) : bytes :=
  let len := Z.of_nat (length msg) in
  let zeros := Z.to_nat ((55 - len) mod 64) in
  msg ++ x80 :: repeat x00 zeros ++ be_bytes 8 (8 * len).

Fixpoint words (n : nat) (bs : bytes) : list Z :=
  match n, bs with
  | S n', b0 :: b1 :: b2 :: b3 :: rest =>
      (Z_of_byte b0 * 2 ^ 24 + Z_of_byte b1 * 2 ^ 16 + Z_of_byte b2 * 2 ^ 8 + Z_of_byte b3)
      :: words n' rest
  | _, _ => []
  end.

(** The message schedule, most recent word first: [W t = sigma1 (W (t-2)) +
    W (t-7) + sigma0 (W (t-15)) + W (t-16)]. *)
Definition schedule_step (rev_w : list Z) : list Z :=
  match rev_w with
  | _ :: w2 :: _ :: _ :: _ :: _ :: w7 :: _ :: _ :: _ :: _ :: _ :: _ :: _ :: w15 :: w16 :: _ =>
      add32 (add32 (add32 (sigma1 w2) w7) (sigma0 w15)) w16 :: rev_w
  | _ => rev_w
  end.

Definition schedule (block : list Z) : list Z :=
  rev (Nat.iter 48 schedule_step (rev block)).

Definition round (s : state) (kw : Z * Z) : state :=
  let '(k, w) := kw in
  let t1 := add32 (add32 (add32 (add32 (hh s) (Sigma1 (he s))) (Ch (he s) (hf s) (hg s))) k) w in
  let t2 := add32 (Sigma0 (ha s)) (Maj (ha s) (hb s) (hc s)) in
  State (add32 t1 t2) (ha s) (hb s) (hc s) (add32 (hd s) t1) (he s) (hf s) (hg s).

Definition compress (h : state) (block : list Z) : state :=
  let s := fold_left round (combine K (schedule block)) h in
  State (add32 (ha h) (ha s)) (add32 (hb h) (hb s)) (add32 (hc h) (hc s))
        (add32 (hd h) (hd s)) (add32 (he h) (he s)) (add32 (hf h) (hf s))
        (add32 (hg h) (hg s)) (add32 (hh h) (hh s)).

Fixpoint blocks (n : nat) (h : state) (bs : bytes) : state :=
  match n with
  | O => h
  | S n' => blocks n' (compress h (words 16 bs)) (skipn 64 bs)
  end.

Definition digest (msg : bytes) : bytes :=
  let p := pad msg in
  let h := blocks (length p / 64) H0 p in
  concat (map (be_bytes 4) [ha h; hb h; hc h; hd h; he h; hf h; hg h; hh h]).

(** [bytes.hex()] and [hexdigest()]: two lowercase hex digits per byte. *)
Definition hex_digit (d : Z) : N := Z.to_N (if d <? 10 then 48 + d else 87 + d).

Definition hex (bs : bytes) : pystr :=
  concat (map (fun b => [hex_digit (Z_of_byte b / 16); hex_digit (Z_of_byte b mod 16)]) bs).

Definition hexdigest (msg : bytes) : pystr := hex (digest msg).

End SHA256.

(** ** [str.encode('utf-8')], [bytes.decode('utf-8')], [str.encode('ascii')] *)

Definition byte_of_N (n : N) : byte := byte_of_Z (Z.of_N n).

Definition is_surrogate (c : N) : bool := ((0xD800 <=? c) && (c <=? 0xDFFF))%N.

Definition utf8_char (c : N) : option bytes :=
  let z := Z.of_N c in
  if z <? 0x80 then Some [byte_of_Z z]
  else if z <? 0x800 then
    Some [byte_of_Z (Z.lor 0xC0 (Z.shiftr z 6)); byte_of_Z (Z.lor 0x80 (Z.land z 0x3F))]
  else if is_surrogate c then None
  else if z <? 0x10000 then
    Some [byte_of_Z (Z.lor 0xE0 (Z.shiftr z 12));
          byte_of_Z (Z.lor 0x80 (Z.land (Z.shiftr z 6) 0x3F));
          byte_of_Z (Z.lor 0x80 (Z.land z 0x3F))]
  else if z <? 0x110000 then
    Some [byte_of_Z (Z.lor 0xF0 (Z.shiftr z 18));
          byte_of_Z (Z.lor 0x80 (Z.land (Z.shiftr z 12) 0x3F));
          byte_of_Z (Z.lor 0x80 (Z.land (Z.shiftr z 6) 0x3F));
          byte_of_Z (Z.lor 0x80 (Z.land z 0x3F))]
  else None.

Fixpoint str_encode_utf8 (s : pystr) : result bytes :=
  match s with
  | [] => Ok []
  | c :: s' =>
      match utf8_char c with
      | Some bs => rest ← str_encode_utf8 s'; Ok (bs ++ rest)
      | None => Raise UnicodeEncodeError
      end
  end.

Fixpoint str_encode_ascii (s : pystr) : result bytes :=
  match s with
  | [] => Ok []
  | c :: s' =>
      if (c <? 128)%N then rest ← str_encode_ascii s'; Ok (byte_of_N c :: rest)
      else Raise UnicodeEncodeError
  end.

Definition cont (b : byte) : option Z :=
  let z := Z_of_byte b in
  if (0x80 <=? z) && (z <=? 0xBF) then Some (Z.land z 0x3F) else None.

Definition in_range (lo hi : Z) (b : byte) : bool :=
  (lo <=? Z_of_byte b) && (Z_of_byte b <=? hi).

Fixpoint bytes_decode_utf8 (bs : bytes) : result pystr :=
  match bs with
  | [] => Ok []
  | b0 :: r0 =>
      let z0 := Z_of_byte b0 in
      if z0 <? 0x80 then rest ← bytes_decode_utf8 r0; Ok (Z.to_N z0 :: rest)
      else if in_range 0xC2 0xDF b0 then
        match r0 with
        | b1 :: r1 =>
            match cont b1 with
            | Some c1 =>
                rest ← bytes_decode_utf8 r1;
                Ok (Z.to_N (Z.land z0 0x1F * 64 + c1) :: rest)
            | None => Raise UnicodeDecodeError
            end
        | _ => Raise UnicodeDecodeError
        end
      else if in_range 0xE0 0xEF b0 then
        match r0 with
        | b1 :: b2 :: r2 =>
            let ok1 :=
              if z0 =? 0xE0 then in_range 0xA0 0xBF b1
              else if z0 =? 0xED then in_range 0x80 0x9F b1
              else true in
            match ok1, cont b1, cont b2 with
            | true, Some c1, Some c2 =>
                rest ← bytes_decode_utf8 r2;
                Ok (Z.to_N ((Z.land z0 0x0F * 64 + c1) * 64 + c2) :: rest)
            | _, _, _ => Raise UnicodeDecodeError
            end
        | _ => Raise UnicodeDecodeError
        end
      else if in_range 0xF0 0xF4 b0 then
        match r0 with
        | b1 :: b2 :: b3 :: r3 =>
            let ok1 :=
              if z0 =? 0xF0 then in_range 0x90 0xBF b1
              else if z0 =? 0xF4 then in_range 0x80 0x8F b1
              else true in
            match ok1, cont b1, cont b2, cont b3 with
            | true, Some c1, Some c2, Some c3 =>
                rest ← bytes_decode_utf8 r3;
                Ok (Z.to_N (((Z.land z0 0x07 * 64 + c1) * 64 + c2) * 64 + c3) :: rest)
            | _, _, _, _ => Raise UnicodeDecodeError
            end
        | _ => Raise UnicodeDecodeError
        end
      else Raise UnicodeDecodeError
  end.

(** ** JSON-compatible values

    A finite [float] is kept as the decimal digits that [float.__repr__]
    prints for it: [FFinite s m e] stands for [(-1)^s * m * 10^e], where the
    decimal digits of [m] are the shortest digit string that reads back as
    the same double ([m] has no trailing zero; zero is [m = 0], [e = 0]). *)

Inductive pyfloat : Type :=
| FNan
| FInf (negative : bool)
| FFinite (negative : bool) (m : N) (e : Z).

(** An [int] is one that can be turned into text. CPython 3.11 refuses the
    conversion between [int] and [str] beyond 4300 digits (the default of
    [sys.get_int_max_str_digits()], which the scripts do not change):
    [json.load] raises [ValueError] on a longer literal, see [IntTooLong]
    below, and [json.dumps] raises [ValueError] on a longer [int]. Every
    record of the scripts comes out of [json.load], so no other [int]
    reaches them. *)
Definition int_max_str_digits : nat := 4300.

Definition within_int_limit (n : Z) : bool :=
  (Decimal.nb_digits (N.to_uint (Z.abs_N n)) <=? int_max_str_digits)%nat.

Record pyint : Type := PyInt {
  int_value :> Z;
  int_within_limit : Is_true (within_int_limit int_value)
}.

#[local] Unset Elimination Schemes.
Inductive json : Type :=
| JNull
| JBool (b : bool)
| JInt (n : pyint)
| JFloat (f : pyfloat)
| JStr (s : pystr)
| JList (xs : list json)
| JDict (items : list (pystr * json)).
#[local] Set Elimination Schemes.

Fixpoint dict_lookup (items : list (pystr * json)) (key : pystr) : option json :=
  match items with
  | [] => None
  | (k, v) :: rest => if decide (k = key) then Some v else dict_lookup rest key
  end.

(** [d[key]] on a [dict]. *)
Definition dict_get (items : list (pystr * json)) (key : pystr) : result json :=
  match dict_lookup items key with
  | Some v => Ok v
  | None => Raise (KeyError key)
  end.

(** [obj[key]] on whatever [json.load] returned: subscripting a [dict] looks
    the key up, subscripting a list or a string with a string key, or a
    number, [None] or a [bool] with anything, is a [TypeError]. *)
Definition getitem (obj : json) (key : pystr) : result json :=
  match obj with
  | JDict items => dict_get items key
  | _ => Raise TypeError
  end.

(** ** [json.dumps] *)

Fixpoint uint_str (u : Decimal.uint) : pystr :=
  match u with
  | Decimal.Nil => []
  | Decimal.D0 u => 48%N :: uint_str u
  | Decimal.D1 u => 49%N :: uint_str u
  | Decimal.D2 u => 50%N :: uint_str u
  | Decimal.D3 u => 51%N :: uint_str u
  | Decimal.D4 u => 52%N :: uint_str u
  | Decimal.D5 u => 53%N :: uint_str u
  | Decimal.D6 u => 54%N :: uint_str u
  | Decimal.D7 u => 55%N :: uint_str u
  | Decimal.D8 u => 56%N :: uint_str u
  | Decimal.D9 u => 57%N :: uint_str u
  end.

(** [int.__repr__] *)
Definition int_repr (n : Z) : pystr :=
  match Z.to_int n with
  | Decimal.Pos u => uint_str u
  | Decimal.Neg u => lit "-" ++ uint_str u
  end.

Definition zeros (k : Z) : pystr := repeat 48%N (Z.to_nat k).

(** The exponent of [float.__repr__], printed with ["%+.02d"]. *)
Definition exp_str (x : Z) : pystr :=
  let d := int_repr (Z.abs x) in
  (if x <? 0 then lit "-" else lit "+")
  ++ (if (length d <? 2)%nat then lit "0" ++ d else d).

(** [float.__repr__] on a finite float: exponent notation when the decimal
    point falls at or before position -4 or after position 16. *)
Definition float_repr (negative : bool) (m : N) (e : Z) : pystr :=
  let digits := uint_str (N.to_uint m) in
  let n := Z.of_nat (length digits) in
  let decpt := n + e in
  (if negative then lit "-" else [])
  ++ (if (decpt <=? -4) || (16 <? decpt) then
        take 1 digits
        ++ (if 1 <? n then lit "." ++ drop 1 digits else [])
        ++ lit "e" ++ exp_str (decpt - 1)
      else if decpt <=? 0 then lit "0." ++ zeros (- decpt) ++ digits
      else if decpt <? n then
        take (Z.to_nat decpt) digits ++ lit "." ++ drop (Z.to_nat decpt) digits
      else digits ++ zeros (decpt - n) ++ lit ".0").

(** [floatstr] of [json.encoder], with the default [allow_nan=True]. *)
Definition floatstr (f : pyfloat) : pystr :=
  match f with
  | FNan => lit "NaN"
  | FInf false => lit "Infinity"
  | FInf true => lit "-Infinity"
  | FFinite s m e => float_repr s m e
  end.

Definition hexdigit (d : N) : N := (if d <? 10 then 48 + d else 87 + d)%N.

(** ['{0:04x}'.format(n)] for [n < 0x10000]. *)
Definition hex4 (n : N) : pystr :=
  map hexdigit [n / 4096 mod 16; n / 256 mod 16; n / 16 mod 16; n mod 16]%N.

(** The replacement of one character by [encode_basestring_ascii]: the
    characters from space to tilde stand for themselves, except the
    backslash and the double quote. *)
Definition escape_char (c : N) : pystr :=
  (if c =? 0x5C then [0x5C; 0x5C]
   else if c =? 0x22 then [0x5C; 0x22]
   else if c =? 0x08 then [0x5C; 0x62]
   else if c =? 0x0C then [0x5C; 0x66]
   else if c =? 0x0A then [0x5C; 0x6E]
   else if c =? 0x0D then [0x5C; 0x72]
   else if c =? 0x09 then [0x5C; 0x74]
   else if (0x20 <=? c) && (c <=? 0x7E) then [c]
   else if c <? 0x10000 then [0x5C; 0x75] ++ hex4 c
   else
     let n := c - 0x10000 in
     let s1 := N.lor 0xD800 (N.land (N.shiftr n 10) 0x3FF) in
     let s2 := N.lor 0xDC00 (N.land n 0x3FF) in
     [0x5C; 0x75] ++ hex4 s1 ++ [0x5C; 0x75] ++ hex4 s2)%N.

Definition encode_basestring_ascii (s : pystr) : pystr :=
  [0x22%N] ++ concat (map escape_char s) ++ [0x22%N].

(** [sep.join(parts)] *)
Fixpoint join (sep : pystr) (parts : list pystr) : pystr :=
  match parts with
  | [] => []
  | [p] => p
  | p :: rest => p ++ sep ++ join sep rest
  end.

(** [<] on [str]: lexicographic on code points. *)
Fixpoint str_ltb (a b : pystr) : bool :=
  match a, b with
  | _, [] => false
  | [], _ :: _ => true
  | x :: a', y :: b' => (x <? y)%N || ((x =? y)%N && str_ltb a' b')
  end.

Definition str_leb (a b : pystr) : bool := negb (str_ltb b a).

(** The order in which [sorted(dct.items())] puts two items: the keys of one
    [dict] are distinct, so comparing the pairs compares the keys. *)
Definition item_le {A} (x y : pystr * A) : Prop := str_leb x.1 y.1.

#[export] Instance item_le_dec {A} (x y : pystr * A) : Decision (item_le x y).
Proof. unfold item_le. apply _. Defined.

(** [json.dumps(v, sort_keys=...)] with the default separators [", "] and
    [": "] and the default [ensure_ascii=True]. With [sort_keys] the encoder
    sorts the items of every [dict] before writing them; sorting looks at
    the keys only, so the values are rendered first here. *)
Fixpoint json_dumps (sort_keys : bool) (v : json) : pystr :=
  match v with
  | JNull => lit "null"
  | JBool true => lit "true"
  | JBool false => lit "false"
  | JInt n => int_repr n
  | JFloat f => floatstr f
  | JStr s => encode_basestring_ascii s
  | JList xs => lit "[" ++ join (lit ", ") (map (json_dumps sort_keys) xs) ++ lit "]"
  | JDict items =>
      let rendered := map (fun kv => (kv.1, json_dumps sort_keys kv.2)) items in
      let ordered := if sort_keys then merge_sort item_le rendered else rendered in
      lit "{"
      ++ join (lit ", ")
           (map (fun kv => encode_basestring_ascii kv.1 ++ lit ": " ++ kv.2) ordered)
      ++ lit "}"
  end.

(** ** [base64.b64encode] and [base64.b64decode] *)

Definition b64_alphabet : bytes :=
  list_byte_of_string "ABCDEFGHIJKLMNOPQRSTUVWXYZabcdefghijklmnopqrstuvwxyz0123456789+/".

Definition b64_char (i : Z) : byte := nth (Z.to_nat i) b64_alphabet x00.

(** [table_a2b_base64]: the 6-bit value of an alphabet character. *)
Definition b64_index (c : byte) : option Z :=
  let z := Z_of_byte c in
  if (65 <=? z) && (z <=? 90) then Some (z - 65)
  else if (97 <=? z) && (z <=? 122) then Some (z - 71)
  else if (48 <=? z) && (z <=? 57) then Some (z + 4)
  else if z =? 43 then Some 62
  else if z =? 47 then Some 63
  else None.

Definition b64_pad : byte := x3d.

Fixpoint b64encode (bs : bytes) : bytes :=
  match bs with
  | [] => []
  | [b0] =>
      let z0 := Z_of_byte b0 in
      [b64_char (Z.shiftr z0 2); b64_char (Z.shiftl (Z.land z0 3) 4); b64_pad; b64_pad]
  | [b0; b1] =>
      let z0 := Z_of_byte b0 in
      let z1 := Z_of_byte b1 in
      [b64_char (Z.shiftr z0 2);
       b64_char (Z.lor (Z.shiftl (Z.land z0 3) 4) (Z.shiftr z1 4));
       b64_char (Z.shiftl (Z.land z1 15) 2); b64_pad]
  | b0 :: b1 :: b2 :: rest =>
      let z0 := Z_of_byte b0 in
      let z1 := Z_of_byte b1 in
      let z2 := Z_of_byte b2 in
      b64_char (Z.shiftr z0 2)
      :: b64_char (Z.lor (Z.shiftl (Z.land z0 3) 4) (Z.shiftr z1 4))
      :: b64_char (Z.lor (Z.shiftl (Z.land z1 15) 2) (Z.shiftr z2 6))
      :: b64_char (Z.land z2 63)
      :: b64encode rest
  end.

(** The loop of [binascii.a2b_base64] without [strict_mode]: characters
    outside the alphabet are skipped, a complete run of padding ends the
    input, and data that stops in the middle of a quad is an error.
    [quad_pos], [leftchar] and [pads] are the loop's variables. *)
Fixpoint a2b_base64 (cs : bytes) (quad_pos leftchar pads : Z) : result bytes :=
  match cs with
  | [] => if quad_pos =? 0 then Ok [] else Raise BinasciiError
  | c :: rest =>
      if Byte.eqb c b64_pad then
        if (2 <=? quad_pos) && (4 <=? quad_pos + (pads + 1)) then Ok []
        else a2b_base64 rest quad_pos leftchar (if 2 <=? quad_pos then pads + 1 else pads)
      else
        match b64_index c with
        | None => a2b_base64 rest quad_pos leftchar pads
        | Some v =>
            if quad_pos =? 0 then a2b_base64 rest 1 v 0
            else if quad_pos =? 1 then
              out ← a2b_base64 rest 2 (Z.land v 0x0f) 0;
              Ok (byte_of_Z (Z.lor (Z.shiftl leftchar 2) (Z.shiftr v 4)) :: out)
            else if quad_pos =? 2 then
              out ← a2b_base64 rest 3 (Z.land v 0x03) 0;
              Ok (byte_of_Z (Z.lor (Z.shiftl leftchar 4) (Z.shiftr v 2)) :: out)
            else
              out ← a2b_base64 rest 0 0 0;
              Ok (byte_of_Z (Z.lor (Z.shiftl leftchar 6) v) :: out)
        end
  end.

(** [base64.b64decode(s)] on a value read from a JSON document: a [str] is
    first encoded as ASCII ([ValueError] when it cannot be); anything else
    that JSON can hold is not bytes-like ([TypeError]). *)
Definition b64decode (s : json) : result bytes :=
  match s with
  | JStr text =>
      match str_encode_ascii text with
      | Ok data => a2b_base64 data 0 0 0
      | Raise _ => Raise ValueError
      end
  | _ => Raise TypeError
  end.

(** [base64.b64encode(b).decode('utf-8')] *)
Definition b64encode_str (b : bytes) : result pystr := bytes_decode_utf8 (b64encode b).

(** ** [==] and [!=] on values read by [json.load]

    Numbers compare by exact value across [bool], [int] and [float], the
    value of a [float] being that of the double, not of the digits that
    [repr] prints for it ([10**23 != 1e23]); NaN equals nothing. Inside a
    list or a dict the elements are compared with the identity shortcut of
    [PyObject_RichCompareBool], and [json.load] returns the one NaN object of
    [json.decoder] for every [NaN] token, so two NaN inside containers count
    as equal. *)

(** The double that [float] reads from the digits [m] and the exponent [e]:
    the double nearest to [m * 10^e], ties to even, written as
    [(mantissa, exponent)] for [mantissa * 2^exponent]; below [2^-1022] the
    exponent stays at [-1074]. For the digits that [repr] prints for a
    double this is that double. *)
Definition double_of_decimal (m : N) (e : Z) : Z * Z :=
  if (m =? 0)%N then (0, 0)
  else
    let num := Z.of_N m * 10 ^ Z.max e 0 in
    let den := 10 ^ Z.max (- e) 0 in
    let scaled k := (num * 2 ^ Z.max (- k) 0, den * 2 ^ Z.max k 0) in
    let k0 := Z.log2 num - Z.log2 den - 52 in
    let k1 := if (scaled k0).1 / (scaled k0).2 <? 2 ^ 52 then k0 - 1 else k0 in
    let k := Z.max k1 (-1074) in
    let '(a, b) := scaled k in
    let q := a / b in
    let r := a mod b in
    let mantissa :=
      if 2 * r <? b then q
      else if b <? 2 * r then q + 1
      else if Z.even q then q else q + 1 in
    (mantissa, k).

(** A number as [(mantissa, exponent)], for [mantissa * 2^exponent]. *)
Definition number (v : json) : option (Z * Z) :=
  match v with
  | JBool b => Some (if b then 1 else 0, 0)
  | JInt n => Some (int_value n, 0)
  | JFloat (FFinite s m e) =>
      let '(mantissa, k) := double_of_decimal m e in
      Some (if s then - mantissa else mantissa, k)
  | _ => None
  end.

Definition number_eqb (x y : Z * Z) : bool :=
  let low := Z.min x.2 y.2 in
  x.1 * 2 ^ (x.2 - low) =? y.1 * 2 ^ (y.2 - low).

Definition is_nan (v : json) : bool :=
  match v with JFloat FNan => true | _ => false end.

Fixpoint py_eq (a b : json) : bool :=
  match a, b with
  | JNull, JNull => true
  | JFloat (FInf s), JFloat (FInf t) => Bool.eqb s t
  | JStr s, JStr t => bool_decide (s = t)
  | JList xs, JList ys =>
      (fix elements (xs ys : list json) : bool :=
         match xs, ys with
         | [], [] => true
         | x :: xs', y :: ys' =>
             ((is_nan x && is_nan y) || py_eq x y) && elements xs' ys'
         | _, _ => false
         end) xs ys
  | JDict xs, JDict ys =>
      (length xs =? length ys)%nat
      && forallb (fun kv =>
                    match dict_lookup ys kv.1 with
                    | Some w => (is_nan kv.2 && is_nan w) || py_eq kv.2 w
                    | None => false
                    end) xs
  | _, _ =>
      match number a, number b with
      | Some x, Some y => number_eqb x y
      | _, _ => false
      end
  end.

Definition py_ne (a b : json) : bool := negb (py_eq a b).

(** ** Files

    [json.dump] writes the text of a value and [json.load] reads a text
    into a value. A file is kept as what [json.load] makes of it: the
    document it holds, or the way in which reading it fails. The bytes may
    not be text in the encoding of [open] ([UnicodeDecodeError]), the text
    may not be JSON ([JSONDecodeError]), or it may be JSON with an [int]
    literal of more than 4300 digits ([ValueError]). Reading back what
    [json.dump] wrote gives the value written, except that the decoder joins
    a high surrogate followed by a low one into one character (the encoder
    writes both as [\uXXXX] escapes), and then rebuilds each dict key by key:
    this is [reload]. *)

Inductive file : Type :=
| NotText
| NotJson
| IntTooLong
| Document (doc : json).

Definition json_load (fs : gmap string file) (filename : string) : result json :=
  match fs !! filename with
  | None => Raise FileNotFoundError
  | Some NotText => Raise UnicodeDecodeError
  | Some NotJson => Raise JSONDecodeError
  | Some IntTooLong => Raise ValueError
  | Some (Document doc) => Ok doc
  end.

(** What [py_scanstring] makes of the escapes of a string. *)
Fixpoint merge_surrogates (s : pystr) : pystr :=
  match s with
  | [] => []
  | hi :: rest =>
      match rest with
      | lo :: rest' =>
          if ((0xD800 <=? hi) && (hi <=? 0xDBFF) && (0xDC00 <=? lo) && (lo <=? 0xDFFF))%N
          then (0x10000 + (hi - 0xD800) * 1024 + (lo - 0xDC00))%N :: merge_surrogates rest'
          else hi :: merge_surrogates rest
      | [] => [hi]
      end
  end.

(** [d[k] = v] *)
Fixpoint dict_set (items : list (pystr * json)) (k : pystr) (v : json)
  : list (pystr * json) :=
  match items with
  | [] => [(k, v)]
  | (k', v') :: rest =>
      if decide (k' = k) then (k, v) :: rest else (k', v') :: dict_set rest k v
  end.

Fixpoint reload (v : json) : json :=
  match v with
  | JStr s => JStr (merge_surrogates s)
  | JList xs => JList (map reload xs)
  | JDict items =>
      JDict (fold_left (fun d kv => dict_set d kv.1 kv.2)
               (map (fun kv => (merge_surrogates kv.1, reload kv.2)) items) [])
  | _ => v
  end.

Definition json_dump (doc : json) (filename : string) (fs : gmap string file)
  : gmap string file :=
  <[filename := Document (reload doc)]> fs.

(** ** Ed25519 of the [cryptography] package

    The primitive itself is outside the repository. A private key object is
    its 32-byte seed and a public key object its 32 raw bytes;
    [verify_raw public signature message] is [false] when the library's
    [verify] raises [InvalidSignature]. *)

Class Ed25519 : Type := {
  derive_public : bytes -> bytes;
  sign_raw : bytes -> bytes -> bytes;
  verify_raw : bytes -> bytes -> bytes -> bool
}.

(** What the library promises for well-formed seeds. *)
Class Ed25519Correct (E : Ed25519) : Prop := {
  derive_public_length :
    forall seed, length seed = 32%nat -> length (derive_public seed) = 32%nat;
  sign_then_verify :
    forall seed message, length seed = 32%nat ->
      verify_raw (derive_public seed) (sign_raw seed message) message = true
}.

Record keypair : Type := Keypair { private_key : bytes; public_key : bytes }.

Section Ed25519Wrappers.
Context {E : Ed25519}.

Definition from_private_bytes (data : bytes) : result bytes :=
  if decide (length data = 32%nat) then Ok data else Raise ValueError.

Definition from_public_bytes (data : bytes) : result bytes :=
  if decide (length data = 32%nat) then Ok data else Raise ValueError.

Definition Ed25519PrivateKey_sign (key data : bytes) : bytes := sign_raw key data.

Definition Ed25519PublicKey_verify (key signature data : bytes) : result unit :=
  if verify_raw key signature data then Ok tt else Raise InvalidSignature.

End Ed25519Wrappers.

(** ** demo.py *)

Module Demo.
Section WithEd25519.
Context {E : Ed25519}.

(** [seed] is the 32 random bytes drawn by [Ed25519PrivateKey.generate()]. *)
Definition generate_keypair (seed : bytes) : keypair :=
  let private_bytes := seed in
  let public_bytes := derive_public seed in
  {| private_key := private_bytes; public_key := public_bytes |}.

Definition save_keypair (kp : keypair) (filename : string) (fs : gmap string file)
  : result (gmap string file) :=
  private ← b64encode_str (private_key kp);
  public ← b64encode_str (public_key kp);
  let encoded_keypair :=
    JDict [(lit "private_key", JStr private); (lit "public_key", JStr public)] in
  Ok (json_dump encoded_keypair filename fs).

Definition load_keypair (filename : string) (fs : gmap string file) : result keypair :=
  encoded_keypair ← json_load fs filename;
  private_text ← getitem encoded_keypair (lit "private_key");
  private ← b64decode private_text;
  public_text ← getitem encoded_keypair (lit "public_key");
  public ← b64decode public_text;
  Ok {| private_key := private; public_key := public |}.

Definition hash_sentiment_data (sentiment_data : json) : result bytes :=
  let canonical_json := json_dumps true sentiment_data in
  encoded ← str_encode_utf8 canonical_json;
  Ok (SHA256.digest encoded).

Definition sign_data (data_hash private_key_bytes : bytes) : result bytes :=
  private_key ← from_private_bytes private_key_bytes;
  Ok (Ed25519PrivateKey_sign private_key data_hash).

Definition verify_signature (data_hash signature public_key_bytes : bytes) : result bool :=
  public_key ← from_public_bytes public_key_bytes;
  match Ed25519PublicKey_verify public_key signature data_hash with
  | Ok _ => Ok true
  | Raise _ => Ok false
  end.

Definition load_sentiment_data (filename : string) (fs : gmap string file) : result json :=
  json_load fs filename.

Definition save_signed_data (sentiment_data : json) (signature public_key : bytes)
    (filename : string) (fs : gmap string file) : result (gmap string file) :=
  signature_text ← b64encode_str signature;
  public_key_text ← b64encode_str public_key;
  let signed_data :=
    JDict [(lit "data", sentiment_data);
           (lit "signature", JStr signature_text);
           (lit "public_key", JStr public_key_text)] in
  Ok (json_dump signed_data filename fs).

(** Lines 122-128 of [verify_signed_data]: read the file and extract the
    three components. *)
Definition extract_components (filename : string) (fs : gmap string file)
  : result (json * bytes * bytes) :=
  signed_data ← json_load fs filename;
  sentiment_data ← getitem signed_data (lit "data");
  signature_text ← getitem signed_data (lit "signature");
  signature ← b64decode signature_text;
  public_key_text ← getitem signed_data (lit "public_key");
  public_key ← b64decode public_key_text;
  Ok (sentiment_data, signature, public_key).

Definition verify_signed_data (filename : string) (fs : gmap string file) : result bool :=
  '(sentiment_data, signature, public_key) ← extract_components filename fs;
  data_hash ← hash_sentiment_data sentiment_data;
  is_valid ← verify_signature data_hash signature public_key;
  Ok is_valid.

(** [main]: the file system it leaves behind, and the verdict it prints or
    the exception that ends it. [seed] is the randomness that
    [generate_keypair] draws when there is no keystore yet; [os.path.exists]
    is true of any file, whatever it holds. *)
Definition main (seed : bytes) (fs : gmap string file)
  : gmap string file * result bool :=
  let keypair_file := "oracle_keypair.json" in
  let sentiment_file := "sample_sentiment.json" in
  let signed_file := "signed_sentiment.json" in
  let '(fs1, loaded) :=
    match fs !! keypair_file with
    | None =>
        let keypair := generate_keypair seed in
        match save_keypair keypair keypair_file fs with
        | Ok fs1 => (fs1, Ok keypair)
        | Raise e => (fs, Raise e)
        end
    | Some _ => (fs, load_keypair keypair_file fs)
    end in
  match loaded with
  | Raise e => (fs1, Raise e)
  | Ok keypair =>
      match sentiment_data ← load_sentiment_data sentiment_file fs1;
            data_hash ← hash_sentiment_data sentiment_data;
            signature ← sign_data data_hash (private_key keypair);
            Ok (sentiment_data, signature) with
      | Raise e => (fs1, Raise e)
      | Ok (sentiment_data, signature) =>
          match save_signed_data sentiment_data signature (public_key keypair)
                  signed_file fs1 with
          | Raise e => (fs1, Raise e)
          | Ok fs2 => (fs2, verify_signed_data signed_file fs2)
          end
      end
  end.

End WithEd25519.
End Demo.

(** ** verify_tampering.py *)

Module VerifyTampering.
Section WithEd25519.
Context {E : Ed25519}.

Definition hash_sentiment_data (sentiment_data : json) : result bytes :=
  let canonical_json := json_dumps true sentiment_data in
  encoded ← str_encode_utf8 canonical_json;
  let hash_hex := SHA256.hexdigest encoded in
  Ok (SHA256.digest encoded).

Definition verify_signed_data (filename : string) (fs : gmap string file) : result bool :=
  signed_data ← json_load fs filename;
  sentiment_data ← getitem signed_data (lit "data");
  signature_text ← getitem signed_data (lit "signature");
  signature ← b64decode signature_text;
  public_key_text ← getitem signed_data (lit "public_key");
  public_key ← b64decode public_key_text;
  data_hash ← hash_sentiment_data sentiment_data;
  public_key_obj ← from_public_bytes public_key;
  match Ed25519PublicKey_verify public_key_obj signature data_hash with
  | Ok _ => Ok true
  | Raise _ => Ok false
  end.

End WithEd25519.
End VerifyTampering.

(** ** [print] *)

(** [print(text)], on a standard output that encodes with UTF-8, raises
    [UnicodeEncodeError] when the text holds a surrogate code point, and
    then writes nothing of it. *)
Definition encodable (s : pystr) : bool :=
  forallb (fun c => negb (is_surrogate c)) s.

(** What an f-string puts for a value: a [str] as it is, and for anything
    else [str(value)], which writes the strings inside a list or a dict
    with their surrogates escaped. *)
Definition printable (v : json) : bool :=
  match v with
  | JStr s => encodable s
  | _ => true
  end.

(** ** compare_hashes.py *)

Module CompareHashes.

Definition hash_data (data : json) : result pystr :=
  let canonical_json := json_dumps true data in
  encoded ← str_encode_utf8 canonical_json;
  Ok (SHA256.hexdigest encoded).

Definition load_json (filename : string) (fs : gmap string file) : result json :=
  json_load fs filename.

(** What [main] prints, one constructor per message that carries data. *)
Inductive line : Type :=
| DataHash (hash : pystr)
| Label (label : json)
| ErrorLoadingOriginal (e : exn)
| ErrorLoadingTampered (e : exn)
| HashesMatch
| HashesDiffer
| FieldChanged (key : pystr) (old new : json)
| NoDifferencesFound.

(** The loop of lines 55-58 over the keys of [original_data["data"]], in the
    order the [dict] yields them. It returns the lines printed and either
    the final [differences_found] or the exception that ended the loop: that
    of a subscript, or that of the [print] of line 58. *)
Fixpoint changes_loop (keys : list pystr) (original tampered : json)
    (differences_found : bool) : list line * result bool :=
  match keys with
  | [] => ([], Ok differences_found)
  | key :: keys' =>
      match getitem original key with
      | Raise e => ([], Raise e)
      | Ok old =>
          match getitem tampered key with
          | Raise e => ([], Raise e)
          | Ok new =>
              if py_ne old new then
                if encodable key && printable old && printable new then
                  let '(out, r) := changes_loop keys' original tampered true in
                  (FieldChanged key old new :: out, r)
                else ([], Raise UnicodeEncodeError)
              else changes_loop keys' original tampered differences_found
          end
      end
  end.

(** Lines 52-61: the report of changed fields. [original] is the [dict]
    [original_data["data"]], [tampered] is [tampered_data["data"]]. *)
Definition changes_detected (original : list (pystr * json)) (tampered : json)
  : list line * result unit :=
  let '(out, r) := changes_loop (map fst original) (JDict original) tampered false in
  match r with
  | Raise e => (out, Raise e)
  | Ok differences_found =>
      (out ++ (if differences_found then [] else [NoDifferencesFound]), Ok tt)
  end.

(** The body of one [try] block of [main]: the lines printed, and the data
    and its hash, or the exception caught. *)
Definition load_and_hash (filename : string) (fs : gmap string file)
  : list line * result (json * pystr) :=
  match loaded ← load_json filename fs; getitem loaded (lit "data") with
  | Raise e => ([], Raise e)
  | Ok data =>
      match hash_data data with
      | Raise e => ([], Raise e)
      | Ok data_hash =>
          match getitem data (lit "label") with
          | Raise e => ([DataHash data_hash], Raise e)
          | Ok label =>
              if printable label
              then ([DataHash data_hash; Label label], Ok (data, data_hash))
              else ([DataHash data_hash], Raise UnicodeEncodeError)
          end
      end
  end.

(** [main]: the lines printed, and the exception that escaped, if any. The
    loop is reached only after [original_data['data']['label']] succeeded,
    that is, with a [dict]. *)
Definition main (fs : gmap string file) : list line * result unit :=
  match load_and_hash "signed_sentiment_original.json" fs with
  | (out1, Raise e) => (out1 ++ [ErrorLoadingOriginal e], Ok tt)
  | (out1, Ok (original, original_hash)) =>
      match load_and_hash "signed_sentiment.json" fs with
      | (out2, Raise e) => (out1 ++ out2 ++ [ErrorLoadingTampered e], Ok tt)
      | (out2, Ok (tampered, tampered_hash)) =>
          let verdict :=
            if bool_decide (original_hash = tampered_hash)
            then HashesMatch else HashesDiffer in
          match original with
          | JDict items =>
              let '(out3, r) := changes_detected items tampered in
              (out1 ++ out2 ++ [verdict] ++ out3, r)
          | _ => (out1 ++ out2 ++ [verdict], Raise TypeError)
          end
      end
  end.

End CompareHashes.

(** ** sentiment_analyzer.py

    The adjustment of a label by the financial terms of a tweet. The score
    is the [float] that the classifier returned; floats are ordered by their
    exact value, NaN being below and above nothing. *)

Module SentimentAnalyzer.

Definition number_ltb (x y : Z * Z) : bool :=
  let low := Z.min x.2 y.2 in
  x.1 * 10 ^ (x.2 - low) <? y.1 * 10 ^ (y.2 - low).

(** [x < y] on floats *)
Definition float_ltb (x y : pyfloat) : bool :=
  match x, y with
  | FNan, _ | _, FNan => false
  | FInf s, FInf t => s && negb t
  | FInf s, FFinite _ _ _ => s
  | FFinite _ _ _, FInf t => negb t
  | FFinite s m e, FFinite t n d =>
      number_ltb (if s then - Z.of_N m else Z.of_N m, e)
                 (if t then - Z.of_N n else Z.of_N n, d)
  end.

(** [max(a, b)]: the first argument unless the second is greater. *)
Definition max (a b : pyfloat) : pyfloat := if float_ltb a b then b else a.

(** [sub in s] on strings *)
Fixpoint startswith (s prefix : pystr) : bool :=
  match prefix, s with
  | [], _ => true
  | p :: prefix', c :: s' => (p =? c)%N && startswith s' prefix'
  | _ :: _, [] => false
  end.

Fixpoint contains (s sub : pystr) : bool :=
  startswith s sub
  || match s with
     | [] => false
     | _ :: s' => contains s' sub
     end.

Definition positive_terms : list pystr :=
  map lit [ "bullish"; "moon"; "long term"; "support"; "strong"; "growth"; "pumping";
            "higher"; "upside"; "buy"; "buying"; "bought"; "momentum"; "target" ]%string.

Definition negative_terms : list pystr :=
  map lit [ "bearish"; "crash"; "resistance"; "short term"; "down"; "dip"; "sell";
            "selling"; "sold"; "overvalued"; "drag" ]%string.

(** [sum(1 for term in terms if term in text_lower)] *)
Definition matches (terms : list pystr) (text_lower : pystr) : nat :=
  length (List.filter (contains text_lower) terms).

(** Lines 50-75 of [adjust_financial_sentiment], from [text_lower], the
    result of [text.lower()], on. *)
Definition adjust_financial_sentiment (text_lower label : pystr) (score : pyfloat)
  : pystr * pyfloat :=
  let positive_matches := matches positive_terms text_lower in
  let negative_matches := matches negative_terms text_lower in
  if (negative_matches <? positive_matches)%nat && (1 <=? positive_matches)%nat then
    (lit "POSITIVE", max score (FFinite false 75 (-2)))
  else if (positive_matches <? negative_matches)%nat && (1 <=? negative_matches)%nat then
    (lit "NEGATIVE", max score (FFinite false 75 (-2)))
  else if float_ltb (FFinite false 4 (-1)) score && float_ltb score (FFinite false 6 (-1)) then
    (lit "NEUTRAL", score)
  else (label, score).

End SentimentAnalyzer.

(** ** Vocabulary of the properties *)

(** The canonical bytes of a record: what each of the three hashing routines
    feeds to SHA-256. *)
Definition canonical_bytes (data : json) : result bytes :=
  str_encode_utf8 (json_dumps true data).


Definition is_lower_hex (c : N) : Prop :=
  (48 <= c <= 57)%N \/ (97 <= c <= 102)%N.


#[export] Instance byte_eq_dec : EqDecision byte := Byte.byte_eq_dec.

(** A stand-in for the primitive with the same interface (the public key is
    the seed and a signature is the key followed by the message), to run the
    wrappers on concrete inputs. *)
Definition mock_ed25519 : Ed25519 := {|
  derive_public seed := seed;
  sign_raw seed message := seed ++ message;
  verify_raw public signature message := bool_decide (signature = public ++ message)
|}.

Definition sample_record : json :=
  JDict [ (lit "id", JStr (lit "1"));
          (lit "label", JStr (lit "POSITIVE"));
          (lit "score", JFloat (FFinite false 87 (-2))) ].

Definition sample_seed : bytes := repeat x2a 32.

(** An envelope file whose public key is the three bytes [abc]. *)
Definition short_key_envelope : gmap string file :=
  {[ "signed_sentiment.json" :=
       Document (JDict [ (lit "data", sample_record);
                         (lit "signature", JStr (lit "AAAA"));
                         (lit "public_key", JStr (lit "YWJj")) ]) ]}.

(** A keystore whose two keys decode to the three bytes [abc]. *)
Definition short_keystore : gmap string file :=
  {[ "oracle_keypair.json" :=
       Document (JDict [ (lit "private_key", JStr (lit "YWJj"));
                         (lit "public_key", JStr (lit "YWJj")) ]) ]}.

(** The ASCII text of base64 output, one code point per byte. *)
Definition b64text (b : bytes) : pystr := map Byte.to_N (b64encode b).

(** The envelope of [sample_record] signed with the stand-in primitive under
    [sample_seed]. *)
Definition sample_digest : bytes :=
  SHA256.digest (map byte_of_N (json_dumps true sample_record)).

Definition sample_envelope : gmap string file :=
  {[ "signed_sentiment.json" :=
       Document (JDict [ (lit "data", sample_record);
                         (lit "signature", JStr (b64text (sample_seed ++ sample_digest)));
                         (lit "public_key", JStr (b64text sample_seed)) ]) ]}.

(** What a Python call hands back, to tell a [bool] from a pair. *)
Inductive pyobject : Type :=
| PyBool (b : bool)
| PyJson (v : json)
| PyPair (first second : pyobject).

Definition returned_bool (r : result bool) : result pyobject :=
  match r with
  | Ok b => Ok (PyBool b)
  | Raise e => Raise e
  end.

(** The keys named by the [FieldChanged] lines of a report, in order. *)
Definition reported_keys (out : list CompareHashes.line) : list pystr :=
  omap (fun l => match l with
                 | CompareHashes.FieldChanged key _ _ => Some key
                 | _ => None
                 end) out.

(** Does the field [kv] of the original have another value in [tampered]? *)
Definition changed (tampered : list (pystr * json)) (kv : pystr * json) : bool :=
  match dict_lookup tampered kv.1 with
  | Some new => py_ne kv.2 new
  | None => false
  end.

(** Well-formed values: the strings hold Unicode scalar values (code points
    below 0x110000 that are not surrogates), the finite floats are in the
    normal form described with [pyfloat], and the keys of a [dict] are
    distinct. *)
Definition valid_char (c : N) : Prop := (c < 0x110000)%N /\ is_surrogate c = false.

Definition wf_str (s : pystr) : Prop := Forall valid_char s.

Definition wf_float (f : pyfloat) : Prop :=
  match f with
  | FFinite _ m e => (m = 0%N -> e = 0) /\ (m <> 0%N -> (m mod 10 <> 0)%N)
  | _ => True
  end.

#[local] Unset Elimination Schemes.
Inductive wf_json : json -> Prop :=
| wf_null : wf_json JNull
| wf_bool b : wf_json (JBool b)
| wf_int n : wf_json (JInt n)
| wf_number f : wf_float f -> wf_json (JFloat f)
| wf_string s : wf_str s -> wf_json (JStr s)
| wf_list xs : Forall wf_json xs -> wf_json (JList xs)
| wf_dict items :
    NoDup (map fst items) ->
    Forall (fun kv => wf_str kv.1 /\ wf_json kv.2) items ->
    wf_json (JDict items).

(** Field-for-field equality: the same value up to the order in which the
    keys of its dicts, at any depth, were inserted. *)
Inductive json_equiv : json -> json -> Prop :=
| equiv_null : json_equiv JNull JNull
| equiv_bool b : json_equiv (JBool b) (JBool b)
| equiv_int n : json_equiv (JInt n) (JInt n)
| equiv_float f : json_equiv (JFloat f) (JFloat f)
| equiv_str s : json_equiv (JStr s) (JStr s)
| equiv_list xs ys :
    Forall2 json_equiv xs ys -> json_equiv (JList xs) (JList ys)
| equiv_dict xs xs' ys ys' :
    xs ≡ₚ xs' -> ys ≡ₚ ys' ->
    Forall2 (fun a b => a.1 = b.1 /\ json_equiv a.2 b.2) xs' ys' ->
    json_equiv (JDict xs) (JDict ys).
#[local] Set Elimination Schemes.

(** Reading a string of decimal digits. *)
Definition digit_char (c : N) : Prop := (48 <= c <= 57)%N.

Definition num_acc (s : pystr) (acc : N) : N :=
  fold_left (fun a c => 10 * a + (c - 48))%N s acc.

Definition num (s : pystr) : N := num_acc s 0.

(** The characters that end a value inside a list or a dict. *)
Definition stop_char (c : N) : Prop := c = 44%N \/ c = 93%N \/ c = 125%N.

Definition token (s : pystr) : Prop := Forall (fun c => ~ stop_char c) s.

(** What may follow a value: nothing, or a comma or a closing bracket. *)
Definition stops (s : pystr) : Prop :=
  match s with
  | [] => True
  | c :: _ => stop_char c
  end.

Definition float_char (c : N) : Prop :=
  digit_char c \/ c = 43%N \/ c = 45%N \/ c = 46%N \/ c = 101%N.

(** [float_repr] without its sign. *)
Definition float_body (m : N) (e : Z) : pystr :=
  let digits := uint_str (N.to_uint m) in
  let n := Z.of_nat (length digits) in
  let decpt := n + e in
  if (decpt <=? -4) || (16 <? decpt) then
    take 1 digits
    ++ (if 1 <? n then lit "." ++ drop 1 digits else [])
    ++ lit "e" ++ exp_str (decpt - 1)
  else if decpt <=? 0 then lit "0." ++ zeros (- decpt) ++ digits
  else if decpt <? n then
    take (Z.to_nat decpt) digits ++ lit "." ++ drop (Z.to_nat decpt) digits
  else digits ++ zeros (decpt - n) ++ lit ".0".

(** The digits before the exponent, with the decimal point after the first. *)
Definition mantissa_text (digits : pystr) : pystr :=
  take 1 digits
  ++ (if 1 <? Z.of_nat (length digits) then 46%N :: drop 1 digits else []).

Definition no_dot (s : pystr) : pystr := List.filter (fun c => negb (c =? 46)%N) s.

(** Reading back one character written by [escape_char]. *)
Definition unhexdigit (h : N) : N := (if h <? 58 then h - 48 else h - 87)%N.

Definition unhex4 (h1 h2 h3 h4 : N) : N :=
  (4096 * unhexdigit h1 + 256 * unhexdigit h2 + 16 * unhexdigit h3 + unhexdigit h4)%N.

Definition unescape_short (x : N) : N :=
  (if x =? 0x62 then 0x08
   else if x =? 0x66 then 0x0C
   else if x =? 0x6E then 0x0A
   else if x =? 0x72 then 0x0D
   else if x =? 0x74 then 0x09
   else x)%N.

Definition unescape_one (s : pystr) : option (N * pystr) :=
  match s with
  | [] => None
  | c :: rest =>
      if (c =? 0x5C)%N then
        match rest with
        | [] => None
        | x :: rest1 =>
            if (x =? 0x75)%N then
              match rest1 with
              | h1 :: h2 :: h3 :: h4 :: rest2 =>
                  let v := unhex4 h1 h2 h3 h4 in
                  if ((0xD800 <=? v) && (v <=? 0xDBFF))%N then
                    match rest2 with
                    | _ :: _ :: l1 :: l2 :: l3 :: l4 :: rest3 =>
                        Some (0x10000 + (v - 0xD800) * 1024
                              + (unhex4 l1 l2 l3 l4 - 0xDC00), rest3)%N
                    | _ => None
                    end
                  else Some (v, rest2)
              | _ => None
              end
            else Some (unescape_short x, rest1)
        end
      else Some (c, rest)
  end.

(** The first character of the text of a value tells its kind. *)
Definition kind_char (v : json) (c : N) : Prop :=
  match v with
  | JNull => c = 110%N
  | JBool _ => c = 116%N \/ c = 102%N
  | JInt _ | JFloat _ => digit_char c \/ c = 45%N \/ c = 78%N \/ c = 73%N
  | JStr _ => c = 34%N
  | JList _ => c = 91%N
  | JDict _ => c = 123%N
  end.

(** The characters of an integer. *)
Definition int_char (c : N) : Prop := digit_char c \/ c = 45%N.

(** One record written with two orders of insertion, at both levels. *)
Definition nested_record : json :=
  JDict [ (lit "id", JStr (lit "1"));
          (lit "label", JStr (lit "POSITIVE"));
          (lit "score", JFloat (FFinite false 87 (-2)));
          (lit "meta", JDict [ (lit "x", JInt (PyInt 1 I));
                               (lit "y", JList [JBool true; JNull]) ]) ].

Definition nested_record_permuted : json :=
  JDict [ (lit "meta", JDict [ (lit "y", JList [JBool true; JNull]);
                               (lit "x", JInt (PyInt 1 I)) ]);
          (lit "score", JFloat (FFinite false 87 (-2)));
          (lit "label", JStr (lit "POSITIVE"));
          (lit "id", JStr (lit "1")) ].

(** The characters that [json.dumps] writes with [ensure_ascii]. *)
Definition is_ascii (c : N) : Prop := (c < 128)%N.

Definition ascii_byte (b : byte) : Prop := Z_of_byte b < 128.

(** The line that one turn of the loop prints for [key], if any. *)
Definition change_line (original tampered : list (pystr * json)) (key : pystr)
  : option CompareHashes.line :=
  match dict_lookup original key, dict_lookup tampered key with
  | Some old, Some new =>
      if py_ne old new then Some (CompareHashes.FieldChanged key old new) else None
  | _, _ => None
  end.

(** Two envelopes for [compare_hashes.py]: the original record was written
    with [label] before [id], and both fields were changed. *)
Definition insertion_order_files : gmap string file :=
  {[ "signed_sentiment_original.json" :=
       Document (JDict [ (lit "data",
                          JDict [ (lit "label", JStr (lit "POSITIVE"));
                                  (lit "id", JStr (lit "1")) ]) ]);
     "signed_sentiment.json" :=
       Document (JDict [ (lit "data",
                          JDict [ (lit "id", JStr (lit "2"));
                                  (lit "label", JStr (lit "NEGATIVE")) ]) ]) ]}.

(** Can the line that one turn of the loop prints for [key], if any, be
    written to the standard output? *)
Definition line_prints (original tampered : list (pystr * json)) (key : pystr) : bool :=
  match dict_lookup original key, dict_lookup tampered key with
  | Some old, Some new =>
      negb (py_ne old new) || (encodable key && printable old && printable new)
  | _, _ => true
  end.

(** Every changed field can be printed: no lone surrogate in its key, nor
    in either of its values when that is a string. *)
Definition report_prints (original tampered : list (pystr * json)) : bool :=
  forallb (line_prints original tampered) (map fst original).

(** The scenario of the tamper check: the original envelope and one whose
    label was changed without signing again. *)
Definition tampered_record : json :=
  JDict [ (lit "id", JStr (lit "1"));
          (lit "label", JStr (lit "NEGATIVE"));
          (lit "score", JFloat (FFinite false 87 (-2))) ].

Definition scenario_files : gmap string file :=
  {[ "signed_sentiment_original.json" :=
       Document (JDict [ (lit "data", sample_record);
                         (lit "signature", JStr (b64text (sample_seed ++ sample_digest)));
                         (lit "public_key", JStr (b64text sample_seed)) ]);
     "signed_sentiment.json" :=
       Document (JDict [ (lit "data", tampered_record);
                         (lit "signature", JStr (b64text (sample_seed ++ sample_digest)));
                         (lit "public_key", JStr (b64text sample_seed)) ]) ]}.

(** The documents that [save_keypair] and [save_signed_data] hand to
    [json.dump]. *)
Definition keystore_doc (kp : keypair) : json :=
  JDict [ (lit "private_key", JStr (b64text (private_key kp)));
          (lit "public_key", JStr (b64text (public_key kp))) ].

Definition envelope_doc (record : json) (signature public_key : bytes) : json :=
  JDict [ (lit "data", record);
          (lit "signature", JStr (b64text signature));
          (lit "public_key", JStr (b64text public_key)) ].

(** A first run of [demo.py]: a record to sign and no keystore yet. *)
Definition fresh_files : gmap string file :=
  {[ "sample_sentiment.json" := Document nested_record ]}.

(** A run of [demo.py] that finds the keystore of three-byte keys. *)
Definition short_key_files : gmap string file :=
  <[ "sample_sentiment.json" := Document sample_record ]> short_keystore.

(** A pair of envelopes for [compare_hashes.py] where the tampered record
    lost the field [score]. *)
Definition removed_field_files : gmap string file :=
  {[ "signed_sentiment_original.json" :=
       Document (JDict [ (lit "data", sample_record) ]);
     "signed_sentiment.json" :=
       Document (JDict [ (lit "data",
                          JDict [ (lit "label", JStr (lit "POSITIVE"));
                                  (lit "id", JStr (lit "1")) ]) ]) ]}.

(** A pair of envelopes where the field [text] was changed to a lone
    surrogate, and an original whose label is a lone surrogate. *)
Definition lone_surrogate_files : gmap string file :=
  {[ "signed_sentiment_original.json" :=
       Document (JDict [ (lit "data",
                          JDict [ (lit "label", JStr (lit "POSITIVE"));
                                  (lit "text", JStr (lit "up")) ]) ]);
     "signed_sentiment.json" :=
       Document (JDict [ (lit "data",
                          JDict [ (lit "label", JStr (lit "POSITIVE"));
                                  (lit "text", JStr [0xD800%N]) ]) ]) ]}.

Definition lone_surrogate_label : gmap string file :=
  {[ "signed_sentiment_original.json" :=
       Document (JDict [ (lit "data", JDict [ (lit "label", JStr [0xD800%N]) ]) ]) ]}.

(** A record with a NaN score and a NaN inside a list. *)
Definition nan_fields_record : list (pystr * json) :=
  [ (lit "label", JStr (lit "NEUTRAL"));
    (lit "score", JFloat FNan);
    (lit "history", JList [JFloat FNan; JInt (PyInt 1 I)]) ].

Definition nan_fields_permuted : list (pystr * json) :=
  [ (lit "history", JList [JFloat FNan; JInt (PyInt 1 I)]);
    (lit "score", JFloat FNan);
    (lit "label", JStr (lit "NEUTRAL")) ].

(** Is this line of the report a changed field? *)
Definition is_field_changed (l : CompareHashes.line) : Prop :=
  exists key old new, l = CompareHashes.FieldChanged key old new.

(** Two envelopes of one record, written with different orders of its keys,
    under the same signature and public key. *)
Definition reordered_envelopes : gmap string file :=
  {[ "signed_sentiment_original.json" :=
       Document (envelope_doc nested_record
                   (sample_seed ++ SHA256.digest (map byte_of_N (json_dumps true nested_record)))
                   sample_seed);
     "signed_sentiment.json" :=
       Document (envelope_doc nested_record_permuted
                   (sample_seed ++ SHA256.digest (map byte_of_N (json_dumps true nested_record)))
                   sample_seed) ]}.

(** * Properties *)

Example sha256_abc :
  SHA256.hexdigest (list_byte_of_string "abc")
  = lit "ba7816bf8f01cfea414140de5dae2223b00361a396177a9cb410ff61f20015ad".
Proof. vm_compute. reflexivity. Qed.

Example sha256_empty :
  SHA256.hexdigest []
  = lit "e3b0c44298fc1c149afbf4c8996fb92427ae41e4649b934ca495991b7852b855".
Proof. vm_compute. reflexivity. Qed.

Lemma sha256_digest_length (msg : bytes) : length (SHA256.digest msg) = 32%nat.
Proof. reflexivity. Qed.

Example utf8_examples :
  str_encode_utf8 [0x41; 0xE9; 0x20AC; 0x1F600]%N
  = Ok [x41; xc3; xa9; xe2; x82; xac; xf0; x9f; x98; x80]
  /\ bytes_decode_utf8 [x41; xc3; xa9; xe2; x82; xac; xf0; x9f; x98; x80]
    = Ok [0x41; 0xE9; 0x20AC; 0x1F600]%N
  /\ str_encode_utf8 [0xD83D]%N = Raise UnicodeEncodeError
  /\ bytes_decode_utf8 [xed; xa0; x80] = Raise UnicodeDecodeError
  /\ bytes_decode_utf8 [xc0; x80] = Raise UnicodeDecodeError.
Proof. vm_compute. repeat split; reflexivity. Qed.

Example json_dumps_sample :
  json_dumps true sample_record
  = map Byte.to_N (list_byte_of_string "{")
    ++ [34; 105; 100; 34; 58; 32; 34; 49; 34; 44; 32]%N
    ++ [34; 108; 97; 98; 101; 108; 34; 58; 32; 34; 80; 79; 83; 73; 84; 73; 86; 69; 34; 44; 32]%N
    ++ [34; 115; 99; 111; 114; 101; 34; 58; 32; 48; 46; 56; 55; 125]%N.
Proof. vm_compute. reflexivity. Qed.

(** ** The model against the interpreter

    Values printed by CPython 3.11 for the same inputs. *)

Example sha256_two_blocks :
  SHA256.hexdigest
    (list_byte_of_string "abcdbcdecdefdefgefghfghighijhijkijkljklmklmnlmnomnopnopq")
  = lit "248d6a61d20638b8e5c026930c3e6039a33ce45964ff2167f6ecedd419db06c1".
Proof. vm_compute. reflexivity. Qed.

Example float_repr_examples :
  float_repr false 1 16 = lit "1e+16"
  /\ float_repr false 15 (-8) = lit "1.5e-07"
  /\ float_repr false 1 (-4) = lit "0.0001"
  /\ float_repr false 123456789 (-3) = lit "123456.789"
  /\ float_repr false 5 (-324) = lit "5e-324"
  /\ float_repr true 0 0 = lit "-0.0"
  /\ float_repr false 1 22 = lit "1e+22"
  /\ float_repr false 1 2 = lit "100.0"
  /\ float_repr false 9999999999999998 0 = lit "9999999999999998.0"
  /\ float_repr false 17976931348623157 292 = lit "1.7976931348623157e+308".
Proof. vm_compute. repeat split; reflexivity. Qed.

Example escape_examples :
  encode_basestring_ascii [0x61; 0x22; 0x62; 0x5C; 0x63; 0x0A; 0x7F; 0xE9; 0x1F600]%N
  = [0x22; 0x61; 0x5C; 0x22; 0x62; 0x5C; 0x5C; 0x63; 0x5C; 0x6E]%N
    ++ lit "\u007f\u00e9\ud83d\ude00" ++ [0x22%N].
Proof. vm_compute. reflexivity. Qed.

Example b64decode_examples :
  b64decode (JStr (lit "QUJD")) = Ok [x41; x42; x43]
  /\ b64decode (JStr (lit "QUJDRA==")) = Ok [x41; x42; x43; x44]
  /\ b64decode (JStr (lit "QUJDRA")) = Raise BinasciiError
  /\ b64decode (JStr (lit "QU JD!")) = Ok [x41; x42; x43]
  /\ b64decode (JStr (lit "AA==BB")) = Ok [x00]
  /\ b64decode (JStr (lit "A")) = Raise BinasciiError
  /\ b64decode (JStr [0xE9%N]) = Raise ValueError
  /\ b64decode (JInt (PyInt 1 I)) = Raise TypeError.
Proof. vm_compute. repeat split; reflexivity. Qed.

(** [==] identifies numbers across [bool], [int] and [float] and follows
    the identity of the shared NaN object inside containers; the canonical
    text keeps such values apart. *)
Example py_eq_examples :
  py_eq (JInt (PyInt 1 I)) (JFloat (FFinite false 1 0)) = true
  /\ py_eq (JBool true) (JInt (PyInt 1 I)) = true
  /\ py_eq (JInt (PyInt 10000000000000000 I)) (JFloat (FFinite false 1 16)) = true
  /\ py_eq (JFloat FNan) (JFloat FNan) = false
  /\ py_eq (JList [JFloat FNan]) (JList [JFloat FNan]) = true
  /\ py_eq (JStr (lit "1")) (JInt (PyInt 1 I)) = false
  /\ py_eq (JDict [(lit "a", JInt (PyInt 1 I)); (lit "b", JInt (PyInt 2 I))])
           (JDict [(lit "b", JInt (PyInt 2 I)); (lit "a", JInt (PyInt 1 I))]) = true
  /\ json_dumps true (JInt (PyInt 1 I)) <> json_dumps true (JFloat (FFinite false 1 0)).
Proof. vm_compute. repeat split; try reflexivity. discriminate. Qed.

(** The tamper check on an envelope whose label was changed without signing
    again: the signature no longer verifies, the hashes differ, and the report
    names the one field that changed. *)
Example tampered_label_scenario :
  @Demo.verify_signed_data mock_ed25519 "signed_sentiment_original.json" scenario_files
  = Ok true
  /\ @Demo.verify_signed_data mock_ed25519 "signed_sentiment.json" scenario_files = Ok false
  /\ CompareHashes.main scenario_files
     = ([ CompareHashes.DataHash
            (lit "d10f6dce5e6e049ca94326175b7070577a5951e8d6f294f1cb51a5a1960eedef");
          CompareHashes.Label (JStr (lit "POSITIVE"));
          CompareHashes.DataHash
            (lit "ab668a149d0c5077717ad5d0992d6cae90c492b631fa23934ddc02bfe8fe8a11");
          CompareHashes.Label (JStr (lit "NEGATIVE"));
          CompareHashes.HashesDiffer;
          CompareHashes.FieldChanged (lit "label") (JStr (lit "POSITIVE"))
            (JStr (lit "NEGATIVE")) ],
        Ok tt).
Proof. vm_compute. repeat split; reflexivity. Qed.

(** A field of the original that the tampered record lacks ends the loop
    with the [KeyError] of the subscript. *)
Example removed_field_raises :
  CompareHashes.changes_detected
    [(lit "id", JStr (lit "1")); (lit "label", JStr (lit "POSITIVE"))]
    (JDict [(lit "id", JStr (lit "1"))])
  = ([], Raise (KeyError (lit "label"))).
Proof. vm_compute. reflexivity. Qed.

(** ** Induction on JSON values *)

Lemma json_ind (P : json -> Prop) :
  P JNull ->
  (forall b, P (JBool b)) ->
  (forall n, P (JInt n)) ->
  (forall f, P (JFloat f)) ->
  (forall s, P (JStr s)) ->
  (forall xs, Forall P xs -> P (JList xs)) ->
  (forall items, Forall (fun kv => P kv.2) items -> P (JDict items)) ->
  forall v, P v.
Proof.
  intros Hnull Hbool Hint Hfloat Hstr Hlist Hdict.
  fix IH 1. intros [ | b | n | f | s | xs | items ].
  - exact Hnull.
  - apply Hbool.
  - apply Hint.
  - apply Hfloat.
  - apply Hstr.
  - apply Hlist. induction xs as [ | x xs IHxs ]; constructor; [ apply IH | exact IHxs ].
  - apply Hdict. induction items as [ | [k x] items IHitems ]; constructor;
      [ apply IH | exact IHitems ].
Qed.

(** ** The output of [json.dumps] is ASCII, so encoding it cannot fail *)

Lemma lit_ascii_check (s : string) :
  forallb (fun c => (c <? 128)%N) (lit s) = true -> Forall is_ascii (lit s).
Proof.
  intros H. apply Forall_forall. intros c Hc.
  rewrite forallb_forall in H. apply list_elem_of_In, H in Hc.
  unfold is_ascii. apply N.ltb_lt, Hc.
Qed.

Ltac lit_ascii := apply lit_ascii_check; reflexivity.

Lemma uint_str_ascii (u : Decimal.uint) : Forall is_ascii (uint_str u).
Proof. induction u; simpl; constructor; unfold is_ascii; try lia; assumption. Qed.

Lemma int_repr_ascii (n : Z) : Forall is_ascii (int_repr n).
Proof.
  unfold int_repr. destruct (Z.to_int n).
  - apply uint_str_ascii.
  - apply Forall_app. split; [ lit_ascii | apply uint_str_ascii ].
Qed.

Lemma zeros_ascii (k : Z) : Forall is_ascii (zeros k).
Proof. unfold zeros. apply Forall_forall. intros c Hc.
  apply list_elem_of_In, repeat_spec in Hc. subst. unfold is_ascii. lia. Qed.

Lemma exp_str_ascii (x : Z) : Forall is_ascii (exp_str x).
Proof.
  unfold exp_str. apply Forall_app. split.
  - destruct (x <? 0); lit_ascii.
  - destruct (_ <? _)%nat; [ apply Forall_app; split; [ lit_ascii | ] | ];
      apply int_repr_ascii.
Qed.

Lemma float_repr_ascii (s : bool) (m : N) (e : Z) : Forall is_ascii (float_repr s m e).
Proof.
  unfold float_repr.
  pose proof (uint_str_ascii (N.to_uint m)) as Hd.
  repeat first
    [ apply Forall_app; split
    | match goal with |- Forall _ (if ?b then _ else _) => destruct b end
    | apply Forall_take | apply Forall_drop
    | apply zeros_ascii | apply exp_str_ascii | apply int_repr_ascii | assumption
    | apply Forall_nil_2 | lit_ascii ].
Qed.

Lemma floatstr_ascii (f : pyfloat) : Forall is_ascii (floatstr f).
Proof.
  destruct f as [ | [ | ] | s m e ]; simpl; try lit_ascii. apply float_repr_ascii.
Qed.

Lemma hexdigit_ascii (d : N) : (d < 16)%N -> is_ascii (hexdigit d).
Proof. unfold hexdigit, is_ascii. destruct (d <? 10)%N; lia. Qed.

Lemma hex4_ascii (n : N) : Forall is_ascii (hex4 n).
Proof.
  unfold hex4. simpl.
  repeat constructor; apply hexdigit_ascii; apply N.mod_lt; lia.
Qed.

Lemma escape_char_ascii (c : N) : Forall is_ascii (escape_char c).
Proof.
  unfold escape_char.
  repeat match goal with
         | |- Forall _ (if ?b then _ else _) => destruct b eqn:?
         end;
    repeat first
      [ apply Forall_app; split | apply hex4_ascii
      | apply Forall_cons; split; [ unfold is_ascii; lia | ] | apply Forall_nil_2 ].
  apply andb_true_iff in Heqb6 as [_ H]. apply N.leb_le in H.
  repeat constructor. unfold is_ascii. lia.
Qed.

Lemma encode_basestring_ascii_ascii (s : pystr) :
  Forall is_ascii (encode_basestring_ascii s).
Proof.
  unfold encode_basestring_ascii.
  apply Forall_app; split; [ repeat constructor; unfold is_ascii; lia | ].
  apply Forall_app; split; [ | repeat constructor; unfold is_ascii; lia ].
  induction s as [ | c s IH ]; simpl; [ constructor | ].
  apply Forall_app; split; [ apply escape_char_ascii | exact IH ].
Qed.

Lemma join_ascii (sep : pystr) (parts : list pystr) :
  Forall is_ascii sep -> Forall (Forall is_ascii) parts -> Forall is_ascii (join sep parts).
Proof.
  intros Hsep. induction 1 as [ | p parts Hp Hparts IH ]; simpl; [ constructor | ].
  destruct parts; [ exact Hp | ].
  apply Forall_app; split; [ exact Hp | ]. apply Forall_app; split; [ exact Hsep | exact IH ].
Qed.

Ltac ascii_parts :=
  repeat first
    [ apply Forall_nil_2
    | apply Forall_cons; split; [ unfold is_ascii; lia | ]
    | apply Forall_app; split
    | lit_ascii ].

Lemma json_dumps_ascii (sort_keys : bool) (v : json) :
  Forall is_ascii (json_dumps sort_keys v).
Proof.
  induction v as [ | [ | ] | n | f | s | xs IH | items IH ] using json_ind;
    cbn [json_dumps].
  - lit_ascii.
  - lit_ascii.
  - lit_ascii.
  - apply int_repr_ascii.
  - apply floatstr_ascii.
  - apply encode_basestring_ascii_ascii.
  - ascii_parts. apply join_ascii; [ lit_ascii | ]. apply Forall_fmap. exact IH.
  - ascii_parts. apply join_ascii; [ lit_ascii | ]. apply Forall_fmap.
    set (rendered := map (fun kv => (kv.1, json_dumps sort_keys kv.2)) items).
    assert (Hr : Forall (fun kv : pystr * pystr => Forall is_ascii kv.2) rendered).
    { apply Forall_fmap. exact IH. }
    assert (Ho : Forall (fun kv : pystr * pystr => Forall is_ascii kv.2)
                   (if sort_keys then merge_sort item_le rendered else rendered)).
    { destruct sort_keys; [ | exact Hr ].
      rewrite merge_sort_Permutation. exact Hr. }
    eapply Forall_impl; [ exact Ho | ].
    intros kv Hkv. cbv beta.
    apply Forall_app; split; [ apply encode_basestring_ascii_ascii | ].
    apply Forall_app; split; [ lit_ascii | exact Hkv ].
Qed.

Lemma utf8_char_ascii (c : N) : is_ascii c -> utf8_char c = Some [byte_of_N c].
Proof.
  unfold is_ascii, utf8_char. intros H.
  destruct (Z.ltb_spec (Z.of_N c) 0x80); [ reflexivity | lia ].
Qed.

Lemma str_encode_utf8_ascii (s : pystr) :
  Forall is_ascii s -> str_encode_utf8 s = Ok (map byte_of_N s).
Proof.
  induction 1 as [ | c s Hc Hs IH ]; simpl; [ reflexivity | ].
  rewrite utf8_char_ascii by exact Hc. rewrite IH. reflexivity.
Qed.

(** ** Hashing *)

Lemma canonical_bytes_ok (data : json) :
  canonical_bytes data = Ok (map byte_of_N (json_dumps true data)).
Proof. apply str_encode_utf8_ascii, json_dumps_ascii. Qed.

Lemma demo_hash_ok (data : json) :
  Demo.hash_sentiment_data data
  = Ok (SHA256.digest (map byte_of_N (json_dumps true data))).
Proof.
  unfold Demo.hash_sentiment_data.
  fold (canonical_bytes data). rewrite canonical_bytes_ok. reflexivity.
Qed.

Lemma Z_of_byte_range (b : byte) : 0 <= Z_of_byte b < 256.
Proof. unfold Z_of_byte. pose proof (Byte.to_N_bounded b). lia. Qed.

Lemma hex_digit_lower (d : Z) : 0 <= d < 16 -> is_lower_hex (SHA256.hex_digit d).
Proof.
  intros H. unfold SHA256.hex_digit, is_lower_hex.
  destruct (Z.ltb_spec d 10); [ left | right ]; lia.
Qed.

Lemma hex_lower (bs : bytes) : Forall is_lower_hex (SHA256.hex bs).
Proof.
  unfold SHA256.hex. induction bs as [ | b bs IH ]; simpl; [ constructor | ].
  pose proof (Z_of_byte_range b) as Hb.
  constructor; [ apply hex_digit_lower; split;
                 [ apply Z.div_pos | apply Z.div_lt_upper_bound ]; lia | ].
  constructor; [ apply hex_digit_lower, Z.mod_pos_bound; lia | exact IH ].
Qed.

(** C10. The three hashing routines agree: [hash_sentiment_data] of demo.py
    and of verify_tampering.py return the same 32-byte digest of the same
    canonical bytes, and [hash_data] of compare_hashes.py returns the
    lowercase hexadecimal text of that digest. *)
Theorem hashing_routines_agree (data : json) :
  exists encoded digest,
    canonical_bytes data = Ok encoded
    /\ digest = SHA256.digest encoded
    /\ Demo.hash_sentiment_data data = Ok digest
    /\ VerifyTampering.hash_sentiment_data data = Ok digest
    /\ length digest = 32%nat
    /\ CompareHashes.hash_data data = Ok (SHA256.hex digest)
    /\ Forall is_lower_hex (SHA256.hex digest).
Proof.
  exists (map byte_of_N (json_dumps true data)).
  exists (SHA256.digest (map byte_of_N (json_dumps true data))).
  split; [ apply canonical_bytes_ok | ].
  split; [ reflexivity | ].
  split; [ apply demo_hash_ok | ].
  split.
  { unfold VerifyTampering.hash_sentiment_data.
    fold (canonical_bytes data). rewrite canonical_bytes_ok. reflexivity. }
  split; [ apply sha256_digest_length | ].
  split; [ | apply hex_lower ].
  unfold CompareHashes.hash_data.
  fold (canonical_bytes data). rewrite canonical_bytes_ok. reflexivity.
Qed.



(** ** Signing and verifying *)

Lemma verify_signature_32 {E : Ed25519} (data_hash signature public_key_bytes : bytes) :
  length public_key_bytes = 32%nat ->
  Demo.verify_signature data_hash signature public_key_bytes
  = Ok (verify_raw public_key_bytes signature data_hash).
Proof.
  intros Hlen. unfold Demo.verify_signature, from_public_bytes, Ed25519PublicKey_verify.
  destruct (decide _) as [ _ | Hne ]; [ | contradiction ].
  simpl. destruct (verify_raw _ _ _); reflexivity.
Qed.

Lemma verify_signature_not_32 {E : Ed25519} (data_hash signature public_key_bytes : bytes) :
  length public_key_bytes <> 32%nat ->
  Demo.verify_signature data_hash signature public_key_bytes = Raise ValueError.
Proof.
  intros Hlen. unfold Demo.verify_signature, from_public_bytes.
  destruct (decide _) as [ Heq | _ ]; [ contradiction | reflexivity ].
Qed.

(** C1. On a public key that is not 32 bytes long both verification paths
    raise [ValueError] instead of returning [False]: the key is parsed
    before the [try] that turns failures into [False]. *)
Theorem verify_raises_on_short_key (E : Ed25519) (data_hash signature : bytes) :
  Demo.verify_signature data_hash signature [x61; x62; x63] = Raise ValueError
  /\ Demo.verify_signed_data "signed_sentiment.json" short_key_envelope = Raise ValueError
  /\ VerifyTampering.verify_signed_data "signed_sentiment.json" short_key_envelope
     = Raise ValueError.
Proof. repeat split; vm_compute; reflexivity. Qed.

#[export] Instance mock_ed25519_correct : Ed25519Correct mock_ed25519.
Proof.
  split.
  - intros seed Hlen. exact Hlen.
  - intros seed message _. simpl. apply bool_decide_eq_true. reflexivity.
Qed.

(** C3. Sign/verify round trip: for the keypair generated from any 32 random
    bytes and any record, the signature of the record's digest under the
    private key verifies against the public key over that digest. *)
Theorem sign_verify_roundtrip (E : Ed25519) (HE : Ed25519Correct E)
    (seed : bytes) (r : json) :
  length seed = 32%nat ->
  exists digest signature,
    Demo.hash_sentiment_data r = Ok digest
    /\ Demo.sign_data digest (private_key (Demo.generate_keypair seed)) = Ok signature
    /\ Demo.verify_signature digest signature (public_key (Demo.generate_keypair seed))
       = Ok true.
Proof.
  intros Hlen.
  exists (SHA256.digest (map byte_of_N (json_dumps true r))).
  exists (sign_raw seed (SHA256.digest (map byte_of_N (json_dumps true r)))).
  split; [ apply demo_hash_ok | ].
  split.
  - unfold Demo.sign_data, Demo.generate_keypair, from_private_bytes. simpl.
    destruct (decide _) as [ _ | Hne ]; [ reflexivity | contradiction ].
  - unfold Demo.generate_keypair. simpl.
    rewrite verify_signature_32 by (apply derive_public_length, Hlen).
    rewrite sign_then_verify by exact Hlen. reflexivity.
Qed.

Lemma sign_verify_roundtrip_witness :
  length sample_seed = 32%nat
  /\ exists digest signature,
       Demo.hash_sentiment_data sample_record = Ok digest
       /\ @Demo.sign_data mock_ed25519 digest
            (private_key (@Demo.generate_keypair mock_ed25519 sample_seed)) = Ok signature
       /\ @Demo.verify_signature mock_ed25519 digest signature
            (public_key (@Demo.generate_keypair mock_ed25519 sample_seed)) = Ok true.
Proof.
  split; [ reflexivity | ].
  apply (sign_verify_roundtrip mock_ed25519 mock_ed25519_correct sample_seed sample_record).
  reflexivity.
Defined.

(** ** The keystore *)

(** C5, as the claim states it, fails: a keystore whose keys decode to three
    bytes each is loaded without error. *)
Lemma short_keystore_is_loaded :
  Demo.load_keypair "oracle_keypair.json" short_keystore
  = Ok {| private_key := [x61; x62; x63]; public_key := [x61; x62; x63] |}
  /\ length [x61; x62; x63] <> 32%nat.
Proof. split; [ vm_compute; reflexivity | discriminate ]. Qed.

(** The failures of [b64decode]. *)
Lemma a2b_base64_raises (cs : bytes) :
  forall quad_pos leftchar pads e,
    a2b_base64 cs quad_pos leftchar pads = Raise e -> e = BinasciiError.
Proof.
  induction cs as [ | c rest IH ]; intros quad_pos leftchar pads e; cbn [a2b_base64].
  - destruct (quad_pos =? 0); [ discriminate | intros [= <-]; reflexivity ].
  - destruct (Byte.eqb c b64_pad).
    + destruct (_ && _); [ discriminate | apply IH ].
    + destruct (b64_index c) as [ v | ]; [ | apply IH ].
      destruct (quad_pos =? 0); [ apply IH | ].
      repeat match goal with
             | |- context [ if ?b then _ else _ ] => destruct b
             end;
        match goal with
        | |- context [ a2b_base64 rest ?q ?l ?p ] =>
            destruct (a2b_base64 rest q l p) as [ out | e' ] eqn:Hrest
        end; cbn [mbind result_bind]; try discriminate;
        intros [= <-]; eapply IH, Hrest.
Qed.

Lemma b64decode_raises (s : json) (e : exn) :
  b64decode s = Raise e -> e = TypeError \/ e = ValueError \/ e = BinasciiError.
Proof.
  destruct s as [ | | | | text | | ]; cbn [b64decode]; try (intros [= <-]; auto; fail).
  destruct (str_encode_ascii text) as [ data | e' ]; [ | intros [= <-]; auto ].
  intros H. right. right. eapply a2b_base64_raises, H.
Qed.

(** C5, amended. [load_keypair] handles no error and checks no length. An
    exception of [json.load] goes through it as it is, [FileNotFoundError]
    for a missing file. It returns a keypair exactly when [json.load]
    returns an object whose [private_key] and [public_key] entries are
    accepted by [b64decode], whatever the lengths of the decoded keys. Any
    other failure is the exception of the subscript or of the [b64decode]
    that failed. *)
Theorem load_keypair_outcomes (filename : string) (fs : gmap string file) :
  (fs !! filename = None ->
   Demo.load_keypair filename fs = Raise FileNotFoundError)
  /\ (forall e, json_load fs filename = Raise e ->
                Demo.load_keypair filename fs = Raise e)
  /\ (forall kp,
        Demo.load_keypair filename fs = Ok kp <->
        exists items private_text public_text,
          json_load fs filename = Ok (JDict items)
          /\ dict_lookup items (lit "private_key") = Some private_text
          /\ dict_lookup items (lit "public_key") = Some public_text
          /\ b64decode private_text = Ok (private_key kp)
          /\ b64decode public_text = Ok (public_key kp))
  /\ (forall e,
        Demo.load_keypair filename fs = Raise e ->
        json_load fs filename = Raise e
        \/ exists doc,
             json_load fs filename = Ok doc
             /\ (e = TypeError \/ e = KeyError (lit "private_key")
                 \/ e = KeyError (lit "public_key")
                 \/ e = ValueError \/ e = BinasciiError)).
Proof.
  unfold Demo.load_keypair.
  split; [ intros Hnone; unfold json_load; rewrite Hnone; reflexivity | ].
  split; [ intros e ->; reflexivity | ].
  split.
  - intros kp. split.
    + destruct (json_load fs filename) as [ doc | e ]; simpl; [ | discriminate ].
      destruct doc as [ | | | | | | items ]; simpl; try discriminate.
      unfold dict_get.
      destruct (dict_lookup items (lit "private_key")) as [ private_text | ] eqn:Hp;
        simpl; [ | discriminate ].
      destruct (b64decode private_text) as [ private | ] eqn:Hprivate;
        simpl; [ | discriminate ].
      destruct (dict_lookup items (lit "public_key")) as [ public_text | ] eqn:Hq;
        simpl; [ | discriminate ].
      destruct (b64decode public_text) as [ public | ] eqn:Hpublic;
        simpl; [ | discriminate ].
      intros [= <-]. exists items, private_text, public_text. simpl. auto.
    + intros (items & private_text & public_text & -> & Hp & Hq & Hpd & Hqd).
      simpl. unfold dict_get. rewrite Hp. simpl. rewrite Hpd. simpl.
      rewrite Hq. simpl. rewrite Hqd. simpl. destruct kp; reflexivity.
  - intros e.
    destruct (json_load fs filename) as [ doc | e' ]; simpl;
      [ | intros [= <-]; left; reflexivity ].
    intros H. right. exists doc. split; [ reflexivity | ].
    destruct doc as [ | | | | | | items ]; simpl in H;
      try (injection H as <-; auto; fail).
    unfold dict_get in H.
    destruct (dict_lookup items (lit "private_key")) as [ private_text | ];
      simpl in H; [ | injection H as <-; auto ].
    destruct (b64decode private_text) as [ private | e1 ] eqn:Hprivate; simpl in H.
    2: { injection H as <-.
         destruct (b64decode_raises _ _ Hprivate) as [ -> | [ -> | -> ] ]; auto 6. }
    destruct (dict_lookup items (lit "public_key")) as [ public_text | ];
      simpl in H; [ | injection H as <-; auto ].
    destruct (b64decode public_text) as [ public | e2 ] eqn:Hpublic; simpl in H;
      [ discriminate | ].
    injection H as <-.
    destruct (b64decode_raises _ _ Hpublic) as [ -> | [ -> | -> ] ]; auto 6.
Qed.

(** ** Verifying an envelope file *)

(** C6, as the claim states it, fails: on a valid envelope
    [verify_signed_data] returns the bare verdict [True], not a pair of the
    record and a verdict. *)
Lemma verify_signed_data_returns_a_bool :
  returned_bool (@Demo.verify_signed_data mock_ed25519 "signed_sentiment.json" sample_envelope)
  = Ok (PyBool true)
  /\ forall record verdict,
       returned_bool
         (@Demo.verify_signed_data mock_ed25519 "signed_sentiment.json" sample_envelope)
       <> Ok (PyPair (PyJson record) (PyBool verdict)).
Proof.
  assert (H : @Demo.verify_signed_data mock_ed25519 "signed_sentiment.json" sample_envelope
              = Ok true) by (vm_compute; reflexivity).
  rewrite H. split; [ reflexivity | discriminate ].
Qed.

(** C6, amended. When the components of an envelope file can be extracted
    and its public key is 32 bytes long, [verify_signed_data] returns the
    verdict alone: the outcome of [verify_signature] on the digest recomputed
    from the embedded record, the embedded signature and the embedded key. *)
Theorem verify_signed_data_verdict (E : Ed25519) (filename : string)
    (fs : gmap string file) (record : json) (signature public_key : bytes) :
  Demo.extract_components filename fs = Ok (record, signature, public_key) ->
  length public_key = 32%nat ->
  exists digest,
    Demo.hash_sentiment_data record = Ok digest
    /\ Demo.verify_signed_data filename fs
       = Demo.verify_signature digest signature public_key
    /\ Demo.verify_signed_data filename fs = Ok (verify_raw public_key signature digest).
Proof.
  intros Hextract Hlen.
  exists (SHA256.digest (map byte_of_N (json_dumps true record))).
  split; [ apply demo_hash_ok | ].
  assert (Hv : Demo.verify_signed_data filename fs
               = Demo.verify_signature
                   (SHA256.digest (map byte_of_N (json_dumps true record)))
                   signature public_key).
  { unfold Demo.verify_signed_data. rewrite Hextract. simpl.
    rewrite demo_hash_ok. simpl.
    destruct (Demo.verify_signature _ _ _); reflexivity. }
  split; [ exact Hv | ].
  rewrite Hv. apply verify_signature_32, Hlen.
Qed.

Lemma verify_signed_data_verdict_witness :
  Demo.extract_components "signed_sentiment.json" sample_envelope
  = Ok (sample_record, sample_seed ++ sample_digest, sample_seed)
  /\ length sample_seed = 32%nat
  /\ exists digest,
       Demo.hash_sentiment_data sample_record = Ok digest
       /\ @Demo.verify_signed_data mock_ed25519 "signed_sentiment.json" sample_envelope
          = @Demo.verify_signature mock_ed25519 digest (sample_seed ++ sample_digest) sample_seed
       /\ @Demo.verify_signed_data mock_ed25519 "signed_sentiment.json" sample_envelope
          = Ok (@verify_raw mock_ed25519 sample_seed (sample_seed ++ sample_digest) digest).
Proof.
  split; [ vm_compute; reflexivity | ].
  split; [ reflexivity | ].
  apply (verify_signed_data_verdict mock_ed25519 "signed_sentiment.json" sample_envelope
           sample_record (sample_seed ++ sample_digest) sample_seed).
  - vm_compute. reflexivity.
  - reflexivity.
Defined.

(** ** Base64 round trip *)

(** A property checked on every integer of a range holds on the range. *)
Lemma forall_range (P : Z -> bool) (n : nat) :
  forallb P (map Z.of_nat (seq 0 n)) = true ->
  forall z, 0 <= z < Z.of_nat n -> P z = true.
Proof.
  intros Hall z Hz. rewrite forallb_forall in Hall. apply Hall.
  apply in_map_iff. exists (Z.to_nat z). split; [ lia | ].
  apply in_seq. lia.
Qed.

Lemma byte_of_Z_of_byte (b : byte) : byte_of_Z (Z_of_byte b) = b.
Proof. destruct b; reflexivity. Qed.

Lemma b64_char_index (i : Z) :
  0 <= i < 64 ->
  b64_index (b64_char i) = Some i /\ Byte.eqb (b64_char i) b64_pad = false.
Proof.
  intros Hi.
  pose proof (forall_range
    (fun i => bool_decide (b64_index (b64_char i) = Some i)
              && negb (Byte.eqb (b64_char i) b64_pad)) 64 eq_refl i Hi) as H.
  apply andb_true_iff in H as [H1 H2].
  apply bool_decide_eq_true in H1. apply negb_true_iff in H2. auto.
Qed.

(** The three bytes of a group come back from its four 6-bit values. [h],
    [q], [t] and [r] stand for the bits that a neighbouring byte contributes. *)
Lemma b64_first_byte (z0 h : Z) :
  0 <= z0 < 256 -> 0 <= h < 16 ->
  Z.lor (Z.shiftl (Z.shiftr z0 2) 2) (Z.shiftr (Z.lor (Z.shiftl (Z.land z0 3) 4) h) 4) = z0
  /\ 0 <= Z.shiftr z0 2 < 64
  /\ 0 <= Z.lor (Z.shiftl (Z.land z0 3) 4) h < 64.
Proof.
  intros Hz Hh.
  pose proof (forall_range (fun z0 => forallb (fun h =>
    (Z.lor (Z.shiftl (Z.shiftr z0 2) 2)
       (Z.shiftr (Z.lor (Z.shiftl (Z.land z0 3) 4) h) 4) =? z0)
    && (0 <=? Z.shiftr z0 2) && (Z.shiftr z0 2 <? 64)
    && (0 <=? Z.lor (Z.shiftl (Z.land z0 3) 4) h)
    && (Z.lor (Z.shiftl (Z.land z0 3) 4) h <? 64))
    (map Z.of_nat (seq 0 16))) 256 eq_refl z0 Hz) as H.
  pose proof (forall_range _ 16 H h Hh) as H'. cbv beta in H'.
  repeat (apply andb_true_iff in H' as [H' ?]). lia.
Qed.

Lemma b64_second_byte (z1 q t : Z) :
  0 <= z1 < 256 -> 0 <= q < 4 -> 0 <= t < 4 ->
  Z.lor (Z.shiftl (Z.land (Z.lor (Z.shiftl q 4) (Z.shiftr z1 4)) 15) 4)
        (Z.shiftr (Z.lor (Z.shiftl (Z.land z1 15) 2) t) 2) = z1
  /\ 0 <= Z.lor (Z.shiftl (Z.land z1 15) 2) t < 64
  /\ 0 <= Z.shiftr z1 4 < 16.
Proof.
  intros Hz Hq Ht.
  pose proof (forall_range (fun z1 => forallb (fun q => forallb (fun t =>
    (Z.lor (Z.shiftl (Z.land (Z.lor (Z.shiftl q 4) (Z.shiftr z1 4)) 15) 4)
       (Z.shiftr (Z.lor (Z.shiftl (Z.land z1 15) 2) t) 2) =? z1)
    && (0 <=? Z.lor (Z.shiftl (Z.land z1 15) 2) t)
    && (Z.lor (Z.shiftl (Z.land z1 15) 2) t <? 64)
    && (0 <=? Z.shiftr z1 4) && (Z.shiftr z1 4 <? 16))
    (map Z.of_nat (seq 0 4))) (map Z.of_nat (seq 0 4))) 256 eq_refl z1 Hz) as H.
  pose proof (forall_range _ 4 H q Hq) as H'. cbv beta in H'.
  pose proof (forall_range _ 4 H' t Ht) as H''. cbv beta in H''.
  repeat (apply andb_true_iff in H'' as [H'' ?]). lia.
Qed.

Lemma b64_third_byte (z2 r : Z) :
  0 <= z2 < 256 -> 0 <= r < 16 ->
  Z.lor (Z.shiftl (Z.land (Z.lor (Z.shiftl r 2) (Z.shiftr z2 6)) 3) 6) (Z.land z2 63) = z2
  /\ 0 <= Z.land z2 63 < 64
  /\ 0 <= Z.shiftr z2 6 < 4.
Proof.
  intros Hz Hr.
  pose proof (forall_range (fun z2 => forallb (fun r =>
    (Z.lor (Z.shiftl (Z.land (Z.lor (Z.shiftl r 2) (Z.shiftr z2 6)) 3) 6)
       (Z.land z2 63) =? z2)
    && (0 <=? Z.land z2 63) && (Z.land z2 63 <? 64)
    && (0 <=? Z.shiftr z2 6) && (Z.shiftr z2 6 <? 4))
    (map Z.of_nat (seq 0 16))) 256 eq_refl z2 Hz) as H.
  pose proof (forall_range _ 16 H r Hr) as H'. cbv beta in H'.
  repeat (apply andb_true_iff in H' as [H' ?]). lia.
Qed.

Lemma low_bits_range (z : Z) :
  0 <= z < 256 -> 0 <= Z.land z 3 < 4 /\ 0 <= Z.land z 15 < 16.
Proof.
  intros Hz.
  pose proof (forall_range (fun z =>
    (0 <=? Z.land z 3) && (Z.land z 3 <? 4) && (0 <=? Z.land z 15) && (Z.land z 15 <? 16))
    256 eq_refl z Hz) as H.
  repeat (apply andb_true_iff in H as [H ?]). lia.
Qed.

Section A2bSteps.
Variables (c : byte) (rest : bytes) (v leftchar pads : Z).
Hypothesis not_pad : Byte.eqb c b64_pad = false.
Hypothesis index : b64_index c = Some v.

Lemma a2b_step0 : a2b_base64 (c :: rest) 0 leftchar pads = a2b_base64 rest 1 v 0.
Proof. simpl. rewrite not_pad, index. reflexivity. Qed.

Lemma a2b_step1 :
  a2b_base64 (c :: rest) 1 leftchar pads
  = (out ← a2b_base64 rest 2 (Z.land v 0x0f) 0;
     Ok (byte_of_Z (Z.lor (Z.shiftl leftchar 2) (Z.shiftr v 4)) :: out)).
Proof. simpl. rewrite not_pad, index. reflexivity. Qed.

Lemma a2b_step2 :
  a2b_base64 (c :: rest) 2 leftchar pads
  = (out ← a2b_base64 rest 3 (Z.land v 0x03) 0;
     Ok (byte_of_Z (Z.lor (Z.shiftl leftchar 4) (Z.shiftr v 2)) :: out)).
Proof. simpl. rewrite not_pad, index. reflexivity. Qed.

Lemma a2b_step3 :
  a2b_base64 (c :: rest) 3 leftchar pads
  = (out ← a2b_base64 rest 0 0 0;
     Ok (byte_of_Z (Z.lor (Z.shiftl leftchar 6) v) :: out)).
Proof. simpl. rewrite not_pad, index. reflexivity. Qed.
End A2bSteps.

Lemma a2b_base64_group (b0 b1 b2 : byte) (rest : bytes) :
  a2b_base64 (b64encode (b0 :: b1 :: b2 :: rest)) 0 0 0
  = (out ← a2b_base64 (b64encode rest) 0 0 0; Ok (b0 :: b1 :: b2 :: out)).
Proof.
  pose proof (Z_of_byte_range b0) as H0.
  pose proof (Z_of_byte_range b1) as H1.
  pose proof (Z_of_byte_range b2) as H2.
  destruct (low_bits_range _ H0) as [L0 _].
  destruct (low_bits_range _ H1) as [_ L1].
  destruct (b64_second_byte _ (Z.land (Z_of_byte b0) 3) (Z.shiftr (Z_of_byte b2) 6) H1)
    as (E1 & R2 & S1); [ exact L0 | apply (b64_third_byte _ 0 H2); lia | ].
  destruct (b64_first_byte _ (Z.shiftr (Z_of_byte b1) 4) H0 S1) as (E0 & R0 & R1).
  destruct (b64_third_byte _ (Z.land (Z_of_byte b1) 15) H2 L1) as (E2 & R3 & _).
  destruct (b64_char_index _ R0) as [I0 P0].
  destruct (b64_char_index _ R1) as [I1 P1].
  destruct (b64_char_index _ R2) as [I2 P2].
  destruct (b64_char_index _ R3) as [I3 P3].
  change (b64encode (b0 :: b1 :: b2 :: rest))
    with (b64_char (Z.shiftr (Z_of_byte b0) 2)
          :: b64_char (Z.lor (Z.shiftl (Z.land (Z_of_byte b0) 3) 4) (Z.shiftr (Z_of_byte b1) 4))
          :: b64_char (Z.lor (Z.shiftl (Z.land (Z_of_byte b1) 15) 2) (Z.shiftr (Z_of_byte b2) 6))
          :: b64_char (Z.land (Z_of_byte b2) 63)
          :: b64encode rest).
  rewrite (a2b_step0 _ _ _ _ _ P0 I0), (a2b_step1 _ _ _ _ _ P1 I1),
    (a2b_step2 _ _ _ _ _ P2 I2), (a2b_step3 _ _ _ _ _ P3 I3).
  rewrite E0, E1, E2, !byte_of_Z_of_byte.
  destruct (a2b_base64 (b64encode rest) 0 0 0); reflexivity.
Qed.

Lemma a2b_base64_one (b0 : byte) : a2b_base64 (b64encode [b0]) 0 0 0 = Ok [b0].
Proof.
  pose proof (Z_of_byte_range b0) as H0.
  destruct (b64_first_byte _ 0 H0) as (E0 & R0 & R1); [ lia | ].
  rewrite Z.lor_0_r in E0, R1.
  destruct (b64_char_index _ R0) as [I0 P0].
  destruct (b64_char_index _ R1) as [I1 P1].
  change (b64encode [b0])
    with [b64_char (Z.shiftr (Z_of_byte b0) 2);
          b64_char (Z.shiftl (Z.land (Z_of_byte b0) 3) 4); b64_pad; b64_pad].
  rewrite (a2b_step0 _ _ _ _ _ P0 I0), (a2b_step1 _ _ _ _ _ P1 I1).
  rewrite E0, byte_of_Z_of_byte. reflexivity.
Qed.

Lemma a2b_base64_two (b0 b1 : byte) : a2b_base64 (b64encode [b0; b1]) 0 0 0 = Ok [b0; b1].
Proof.
  pose proof (Z_of_byte_range b0) as H0.
  pose proof (Z_of_byte_range b1) as H1.
  destruct (low_bits_range _ H0) as [L0 _].
  destruct (b64_second_byte _ (Z.land (Z_of_byte b0) 3) 0 H1)
    as (E1 & R2 & S1); [ exact L0 | lia | ].
  rewrite Z.lor_0_r in E1, R2.
  destruct (b64_first_byte _ (Z.shiftr (Z_of_byte b1) 4) H0 S1) as (E0 & R0 & R1).
  destruct (b64_char_index _ R0) as [I0 P0].
  destruct (b64_char_index _ R1) as [I1 P1].
  destruct (b64_char_index _ R2) as [I2 P2].
  change (b64encode [b0; b1])
    with [b64_char (Z.shiftr (Z_of_byte b0) 2);
          b64_char (Z.lor (Z.shiftl (Z.land (Z_of_byte b0) 3) 4) (Z.shiftr (Z_of_byte b1) 4));
          b64_char (Z.shiftl (Z.land (Z_of_byte b1) 15) 2); b64_pad].
  rewrite (a2b_step0 _ _ _ _ _ P0 I0), (a2b_step1 _ _ _ _ _ P1 I1),
    (a2b_step2 _ _ _ _ _ P2 I2).
  rewrite E0, E1, !byte_of_Z_of_byte. reflexivity.
Qed.

Lemma list_ind3 {A} (P : list A -> Prop) :
  P [] -> (forall a, P [a]) -> (forall a b, P [a; b]) ->
  (forall a b c l, P l -> P (a :: b :: c :: l)) ->
  forall l, P l.
Proof.
  intros H0 H1 H2 H3. fix IH 1.
  intros [ | a [ | b [ | c l ] ] ]; [ apply H0 | apply H1 | apply H2 | apply H3, IH ].
Qed.

Lemma a2b_base64_b64encode (b : bytes) : a2b_base64 (b64encode b) 0 0 0 = Ok b.
Proof.
  induction b as [ | b0 | b0 b1 | b0 b1 b2 rest IH ] using list_ind3.
  - reflexivity.
  - apply a2b_base64_one.
  - apply a2b_base64_two.
  - rewrite a2b_base64_group, IH. reflexivity.
Qed.

Lemma b64_char_ascii (i : Z) : ascii_byte (b64_char i).
Proof.
  unfold b64_char.
  destruct (nth_in_or_default (Z.to_nat i) b64_alphabet x00) as [ Hin | -> ];
    [ | unfold ascii_byte; vm_compute; reflexivity ].
  assert (Hall : forallb (fun b => Z_of_byte b <? 128) b64_alphabet = true) by reflexivity.
  rewrite forallb_forall in Hall. apply Z.ltb_lt, Hall, Hin.
Qed.

Lemma b64encode_ascii (b : bytes) : Forall ascii_byte (b64encode b).
Proof.
  assert (Hpad : ascii_byte b64_pad) by (unfold ascii_byte; vm_compute; reflexivity).
  induction b as [ | b0 | b0 b1 | b0 b1 b2 rest IH ] using list_ind3;
    cbn [b64encode]; repeat (apply Forall_cons; split);
    auto using b64_char_ascii, Forall_nil_2.
Qed.

Lemma bytes_decode_utf8_ascii (bs : bytes) :
  Forall ascii_byte bs -> bytes_decode_utf8 bs = Ok (map Byte.to_N bs).
Proof.
  induction 1 as [ | b bs Hb Hbs IH ]; [ reflexivity | ].
  cbn [bytes_decode_utf8]. cbv zeta.
  destruct (Z.ltb_spec (Z_of_byte b) 0x80) as [ _ | Hge ];
    [ | unfold ascii_byte in Hb; lia ].
  rewrite IH. simpl. unfold Z_of_byte. rewrite N2Z.id. reflexivity.
Qed.

Lemma str_encode_ascii_bytes (bs : bytes) :
  Forall ascii_byte bs -> str_encode_ascii (map Byte.to_N bs) = Ok bs.
Proof.
  induction 1 as [ | b bs Hb Hbs IH ]; [ reflexivity | ].
  cbn [map str_encode_ascii].
  destruct (N.ltb_spec (Byte.to_N b) 128) as [ _ | Hge ];
    [ | unfold ascii_byte, Z_of_byte in Hb; lia ].
  rewrite IH. simpl. f_equal. f_equal.
  unfold byte_of_N. apply byte_of_Z_of_byte.
Qed.

Lemma b64encode_str_ok (b : bytes) : b64encode_str b = Ok (b64text b).
Proof. apply bytes_decode_utf8_ascii, b64encode_ascii. Qed.

Lemma b64decode_b64text (b : bytes) : b64decode (JStr (b64text b)) = Ok b.
Proof.
  unfold b64decode, b64text.
  rewrite str_encode_ascii_bytes by apply b64encode_ascii.
  apply a2b_base64_b64encode.
Qed.

(** ** Saving and loading an envelope *)

Lemma merge_surrogates_valid (s : pystr) : wf_str s -> merge_surrogates s = s.
Proof.
  induction 1 as [ | hi rest [_ Hhi] Hrest IH ]; [ reflexivity | ].
  destruct rest as [ | lo rest' ]; [ reflexivity | ].
  cbn [merge_surrogates] in *.
  assert (Hcond : ((0xD800 <=? hi) && (hi <=? 0xDBFF))%N = false).
  { unfold is_surrogate in Hhi. apply andb_false_iff in Hhi. apply andb_false_iff.
    destruct Hhi as [ H | H ]; [ left; exact H | right ].
    apply N.leb_gt in H. apply N.leb_gt. lia. }
  rewrite Hcond. cbn [andb]. rewrite IH. reflexivity.
Qed.

Lemma dict_set_fresh (items : list (pystr * json)) (k : pystr) (v : json) :
  k ∉ map fst items -> dict_set items k v = items ++ [(k, v)].
Proof.
  induction items as [ | [k' v'] items IH ]; intros Hk; [ reflexivity | ].
  simpl in *. apply not_elem_of_cons in Hk as [Hne Hk].
  rewrite decide_False by congruence. rewrite IH by exact Hk. reflexivity.
Qed.

Lemma fold_dict_set (items acc : list (pystr * json)) :
  NoDup (map fst (acc ++ items)) ->
  fold_left (fun d kv => dict_set d kv.1 kv.2) items acc = acc ++ items.
Proof.
  revert acc. induction items as [ | [k v] items IH ]; intros acc Hnd.
  - rewrite app_nil_r. reflexivity.
  - cbn [fold_left fst snd]. rewrite dict_set_fresh.
    + rewrite IH; rewrite <- app_assoc; [ reflexivity | exact Hnd ].
    + rewrite map_app in Hnd. apply NoDup_app in Hnd as (_ & Hdisj & _).
      intros Hin. apply (Hdisj k Hin). left.
Qed.

(** A well-formed value is read back as it was written. *)
Lemma reload_wf (v : json) : wf_json v -> reload v = v.
Proof.
  induction v as [ | b | n | f | s | xs IH | items IH ] using json_ind;
    intros Hwf; try reflexivity.
  - inversion Hwf; subst. cbn [reload]. rewrite merge_surrogates_valid by assumption.
    reflexivity.
  - inversion Hwf as [ | | | | | ? Hxs | ]; subst. cbn [reload]. f_equal.
    clear Hwf. induction IH as [ | x xs Hx IH IHxs ]; [ reflexivity | ].
    apply Forall_cons in Hxs as [Hwx Hxs]. simpl. rewrite Hx, IHxs by assumption.
    reflexivity.
  - inversion Hwf as [ | | | | | | ? Hnd Hitems ]; subst. cbn [reload]. f_equal.
    assert (Hmap : map (fun kv => (merge_surrogates kv.1, reload kv.2)) items = items).
    { clear Hnd Hwf. induction IH as [ | [k x] items Hx IH IHitems ]; [ reflexivity | ].
      apply Forall_cons in Hitems as [[Hk Hwx] Hitems]. simpl in *.
      rewrite merge_surrogates_valid, Hx, IHitems by assumption. reflexivity. }
    rewrite Hmap. apply fold_dict_set. exact Hnd.
Qed.

Lemma json_load_dump (doc : json) (filename : string) (fs : gmap string file) :
  wf_json doc -> json_load (json_dump doc filename fs) filename = Ok doc.
Proof.
  intros Hwf. unfold json_load, json_dump. rewrite lookup_insert_eq, reload_wf by exact Hwf.
  reflexivity.
Qed.

Lemma ascii_text_wf (b : bytes) : Forall ascii_byte b -> wf_str (map Byte.to_N b).
Proof.
  intros Hb. apply Forall_fmap. eapply Forall_impl; [ exact Hb | ].
  intros c Hc. unfold ascii_byte, Z_of_byte in Hc.
  assert (Hlt : (Byte.to_N c < 128)%N) by lia.
  split; [ lia | ]. unfold is_surrogate. apply andb_false_iff. left. apply N.leb_gt. lia.
Qed.

Lemma lit_wf_check (s : string) :
  forallb (fun c => (c <? 128)%N) (lit s) = true -> wf_str (lit s).
Proof.
  intros H. apply lit_ascii_check in H. eapply Forall_impl; [ exact H | ].
  intros c Hc. unfold is_ascii in Hc.
  split; [ lia | ]. unfold is_surrogate. apply andb_false_iff. left. apply N.leb_gt. lia.
Qed.

Lemma envelope_wf (record : json) (signature public_key : bytes) :
  wf_json record ->
  wf_json (JDict [(lit "data", record);
                  (lit "signature", JStr (b64text signature));
                  (lit "public_key", JStr (b64text public_key))]).
Proof.
  intros Hrecord. apply wf_dict.
  - apply (bool_decide_unpack _). vm_compute. exact I.
  - repeat (apply Forall_cons; split; [ split; [ apply lit_wf_check; reflexivity | ] | ]);
      [ exact Hrecord | .. | apply Forall_nil_2 ];
      apply wf_string, ascii_text_wf, b64encode_ascii.
Qed.

Lemma envelope_fields (data signature public_key : json) :
  let signed_data :=
    JDict [(lit "data", data); (lit "signature", signature);
           (lit "public_key", public_key)] in
  getitem signed_data (lit "data") = Ok data
  /\ getitem signed_data (lit "signature") = Ok signature
  /\ getitem signed_data (lit "public_key") = Ok public_key.
Proof. repeat split; vm_compute; reflexivity. Qed.



Lemma keystore_fields (private public : json) :
  let encoded_keypair :=
    JDict [(lit "private_key", private); (lit "public_key", public)] in
  getitem encoded_keypair (lit "private_key") = Ok private
  /\ getitem encoded_keypair (lit "public_key") = Ok public.
Proof. repeat split; vm_compute; reflexivity. Qed.

Lemma keypair_roundtrip (kp : keypair) (filename : string) (fs : gmap string file) :
  exists fs',
    Demo.save_keypair kp filename fs = Ok fs'
    /\ Demo.load_keypair filename fs' = Ok kp.
Proof.
  unfold Demo.save_keypair. rewrite !b64encode_str_ok.
  eexists. split; [ reflexivity | ].
  unfold Demo.load_keypair. rewrite json_load_dump.
  2: { apply wf_dict; [ apply (bool_decide_unpack _); vm_compute; exact I | ].
       repeat (apply Forall_cons; split; [ split; [ apply lit_wf_check; reflexivity | ] | ]);
         [ .. | apply Forall_nil_2 ]; apply wf_string, ascii_text_wf, b64encode_ascii. }
  destruct (keystore_fields (JStr (b64text (private_key kp)))
              (JStr (b64text (public_key kp)))) as (Hp & Hq).
  cbn [mbind result_bind]. rewrite Hp. cbn [mbind result_bind].
  rewrite b64decode_b64text. cbn [mbind result_bind]. rewrite Hq.
  cbn [mbind result_bind]. rewrite b64decode_b64text. destruct kp; reflexivity.
Qed.

(** ** The comparison report *)

Lemma changes_loop_spec (original tampered : list (pystr * json)) (keys : list pystr) :
  (forall k, k ∈ keys ->
     is_Some (dict_lookup original k) /\ is_Some (dict_lookup tampered k)) ->
  forallb (line_prints original tampered) keys = true ->
  forall found, exists found',
    CompareHashes.changes_loop keys (JDict original) (JDict tampered) found
    = (omap (change_line original tampered) keys, Ok found').
Proof.
  induction keys as [ | key keys IH ]; intros Hkeys Hprint found.
  - exists found. reflexivity.
  - destruct (Hkeys key) as [[old Hold] [new Hnew]]; [ left | ].
    assert (Hrest : forall k, k ∈ keys ->
              is_Some (dict_lookup original k) /\ is_Some (dict_lookup tampered k)).
    { intros k Hk. apply Hkeys. right. exact Hk. }
    cbn [forallb] in Hprint. apply andb_true_iff in Hprint as [Hline Hprint].
    unfold line_prints in Hline. rewrite Hold, Hnew in Hline.
    cbn [CompareHashes.changes_loop omap list_omap getitem]. unfold dict_get, change_line.
    rewrite Hold, Hnew.
    destruct (py_ne old new).
    + cbn [negb orb] in Hline. rewrite Hline.
      destruct (IH Hrest Hprint true) as [found' ->]. exists found'. reflexivity.
    + destruct (IH Hrest Hprint found) as [found' ->]. exists found'. reflexivity.
Qed.

Lemma dict_lookup_keys (items : list (pystr * json)) (k : pystr) :
  k ∈ map fst items <-> is_Some (dict_lookup items k).
Proof.
  induction items as [ | [k' v] items IH ]; simpl.
  - split; [ intros H; inversion H | intros [? [=]] ].
  - destruct (decide (k' = k)) as [ -> | Hne ].
    + split; [ eauto | left ].
    + rewrite <- IH. split; [ | right; assumption ].
      intros H. inversion H; subst; [ contradiction | assumption ].
Qed.

Lemma changes_detected_spec (original tampered : list (pystr * json)) :
  (forall k, k ∈ map fst original -> is_Some (dict_lookup tampered k)) ->
  report_prints original tampered = true ->
  exists tail,
    CompareHashes.changes_detected original (JDict tampered)
    = (omap (change_line original tampered) (map fst original) ++ tail, Ok tt)
    /\ (tail = [] \/ tail = [CompareHashes.NoDifferencesFound]).
Proof.
  intros Hkeys Hprint. unfold CompareHashes.changes_detected.
  destruct (changes_loop_spec original tampered (map fst original)) with (found := false)
    as [found' ->].
  { intros k Hk. split; [ apply dict_lookup_keys, Hk | apply Hkeys, Hk ]. }
  { exact Hprint. }
  destruct found'.
  - exists []. auto.
  - exists [CompareHashes.NoDifferencesFound]. auto.
Qed.

(** C4, as the claim states it, fails: a field present only in the tampered
    record differs from the original (where it is absent) but is not
    reported. *)
Lemma added_field_is_not_reported :
  let original := [(lit "label", JStr (lit "POSITIVE"))] in
  let tampered := [(lit "label", JStr (lit "POSITIVE")); (lit "extra", JInt (PyInt 1 I))] in
  dict_lookup original (lit "extra") = None
  /\ dict_lookup tampered (lit "extra") = Some (JInt (PyInt 1 I))
  /\ CompareHashes.changes_detected original (JDict tampered)
     = ([CompareHashes.NoDifferencesFound], Ok tt).
Proof. repeat split; vm_compute; reflexivity. Qed.

(** C4, amended. The comparison walks the keys of the original record.
    When each of them is also a key of the tampered record and every changed
    field can be printed, the report holds exactly the fields of the
    original whose two values differ under [!=], each with its two values; a
    field whose values are equal is not reported, nor is a field that only
    the tampered record has. *)
Theorem changes_detected_complete (original tampered : list (pystr * json)) :
  (forall k, k ∈ map fst original -> is_Some (dict_lookup tampered k)) ->
  report_prints original tampered = true ->
  exists out,
    CompareHashes.changes_detected original (JDict tampered) = (out, Ok tt)
    /\ forall key old new,
         CompareHashes.FieldChanged key old new ∈ out <->
         dict_lookup original key = Some old
         /\ dict_lookup tampered key = Some new
         /\ py_ne old new = true.
Proof.
  intros Hkeys Hprint.
  destruct (changes_detected_spec original tampered Hkeys Hprint) as (tail & -> & Htail).
  eexists. split; [ reflexivity | ].
  intros key old new. rewrite elem_of_app, list_elem_of_omap. split.
  - intros [ (k & Hk & Hline) | Hin ].
    + unfold change_line in Hline.
      destruct (dict_lookup original k) as [ old' | ] eqn:Hold; [ | discriminate ].
      destruct (dict_lookup tampered k) as [ new' | ] eqn:Hnew; [ | discriminate ].
      destruct (py_ne old' new') eqn:Hne; [ | discriminate ].
      injection Hline as <- <- <-. auto.
    + destruct Htail as [ -> | -> ]; [ inversion Hin | ].
      apply list_elem_of_singleton in Hin. discriminate.
  - intros (Hold & Hnew & Hne). left. exists key. split.
    + apply dict_lookup_keys. eauto.
    + unfold change_line. rewrite Hold, Hnew, Hne. reflexivity.
Qed.

Lemma changes_detected_complete_witness :
  let original := [(lit "id", JStr (lit "1")); (lit "label", JStr (lit "POSITIVE"))] in
  let tampered := [(lit "label", JStr (lit "NEGATIVE")); (lit "id", JStr (lit "1"))] in
  report_prints original tampered = true
  /\ exists out,
       CompareHashes.changes_detected original (JDict tampered) = (out, Ok tt)
       /\ forall key old new,
            CompareHashes.FieldChanged key old new ∈ out <->
            dict_lookup original key = Some old
            /\ dict_lookup tampered key = Some new
            /\ py_ne old new = true.
Proof.
  split; [ vm_compute; reflexivity | ].
  apply (changes_detected_complete
           [(lit "id", JStr (lit "1")); (lit "label", JStr (lit "POSITIVE"))]
           [(lit "label", JStr (lit "NEGATIVE")); (lit "id", JStr (lit "1"))]).
  - intros k Hk. apply dict_lookup_keys.
    apply list_elem_of_In in Hk. apply list_elem_of_In.
    simpl in *. intuition.
  - vm_compute. reflexivity.
Defined.

(** The two values of a changed field are compared as Python compares
    them: an [int] against the exact value of a double. *)
Example int_against_float :
  let big := 100000000000000000000000 in
  let original := [(lit "label", JStr (lit "POSITIVE")); (lit "count", JInt (PyInt big I))] in
  let tampered :=
    [(lit "label", JStr (lit "POSITIVE")); (lit "count", JFloat (FFinite false 1 23))] in
  CompareHashes.changes_detected original (JDict tampered)
  = ([CompareHashes.FieldChanged (lit "count") (JInt (PyInt big I))
        (JFloat (FFinite false 1 23))], Ok tt)
  /\ py_ne (JInt (PyInt 1152921504606846976 I)) (JFloat (FFinite false 1152921504606847 3))
     = false.
Proof. split; vm_compute; reflexivity. Qed.

(** C8, as the claim states it, fails: with the original record written
    [{"label": "POSITIVE", "id": "1"}] and both fields changed, [main]
    reports [label] before [id]. *)
Lemma report_follows_insertion_order :
  exists out,
    CompareHashes.main insertion_order_files = (out, Ok tt)
    /\ reported_keys out = [lit "label"; lit "id"]
    /\ str_ltb (lit "id") (lit "label") = true.
Proof. eexists. repeat split; vm_compute; reflexivity. Qed.

Lemma dict_lookup_NoDup (items : list (pystr * json)) (kv : pystr * json) :
  NoDup (map fst items) -> kv ∈ items -> dict_lookup items kv.1 = Some kv.2.
Proof.
  induction items as [ | [k v] items IH ]; intros Hnd Hin; [ inversion Hin | ].
  simpl in *. apply NoDup_cons in Hnd as [Hk Hnd].
  apply elem_of_cons in Hin as [ -> | Hin ].
  - simpl. rewrite decide_True by reflexivity. reflexivity.
  - rewrite decide_False; [ apply IH; assumption | ].
    intros ->. apply Hk. apply list_elem_of_fmap. exists kv. auto.
Qed.

Lemma reported_keys_changed (original tampered items : list (pystr * json)) :
  (forall kv, kv ∈ items -> dict_lookup original kv.1 = Some kv.2) ->
  (forall kv, kv ∈ items -> is_Some (dict_lookup tampered kv.1)) ->
  reported_keys (omap (change_line original tampered) (map fst items))
  = map fst (List.filter (changed tampered) items).
Proof.
  induction items as [ | [k v] items IH ]; intros Ho Ht; [ reflexivity | ].
  assert (IH' : reported_keys (omap (change_line original tampered) (map fst items))
                = map fst (List.filter (changed tampered) items)).
  { apply IH; intros kv Hkv; [ apply Ho | apply Ht ]; right; exact Hkv. }
  specialize (Ho (k, v) ltac:(left)). destruct (Ht (k, v) ltac:(left)) as [new Hnew].
  simpl in Ho, Hnew.
  cbn [map omap list_omap List.filter fst]. unfold change_line at 1, changed at 1.
  cbn [fst snd]. rewrite Ho, Hnew.
  destruct (py_ne v new); [ | exact IH' ].
  unfold reported_keys in *. cbn [omap list_omap map fst]. rewrite IH'. reflexivity.
Qed.

Lemma reported_keys_app (out tail : list CompareHashes.line) :
  tail = [] \/ tail = [CompareHashes.NoDifferencesFound] ->
  reported_keys (out ++ tail) = reported_keys out.
Proof.
  unfold reported_keys. rewrite omap_app.
  intros [ -> | -> ]; simpl; apply app_nil_r.
Qed.

(** C8, amended. The differing fields are reported in the order in which the
    original record yields its keys, its insertion order: when every key of
    the original is a key of the tampered record and every changed field can
    be printed, the reported keys are the keys of the original whose values
    differ, in their original sequence, whatever the order of the keys of
    the tampered record. *)
Theorem report_in_original_order (original tampered : list (pystr * json)) :
  NoDup (map fst original) ->
  (forall k, k ∈ map fst original -> is_Some (dict_lookup tampered k)) ->
  report_prints original tampered = true ->
  exists out,
    CompareHashes.changes_detected original (JDict tampered) = (out, Ok tt)
    /\ reported_keys out = map fst (List.filter (changed tampered) original).
Proof.
  intros Hnd Hkeys Hprint.
  destruct (changes_detected_spec original tampered Hkeys Hprint) as (tail & -> & Htail).
  eexists. split; [ reflexivity | ].
  rewrite reported_keys_app by exact Htail.
  apply reported_keys_changed.
  - intros kv Hkv. apply dict_lookup_NoDup; assumption.
  - intros kv Hkv. apply Hkeys. apply list_elem_of_fmap. exists kv. auto.
Qed.

Lemma report_in_original_order_witness :
  let original :=
    [(lit "label", JStr (lit "POSITIVE")); (lit "score", JFloat (FFinite false 87 (-2)));
     (lit "id", JStr (lit "1"))] in
  let tampered :=
    [(lit "id", JStr (lit "2")); (lit "label", JStr (lit "NEGATIVE"));
     (lit "score", JFloat (FFinite false 87 (-2)))] in
  NoDup (map fst original)
  /\ report_prints original tampered = true
  /\ exists out,
       CompareHashes.changes_detected original (JDict tampered) = (out, Ok tt)
       /\ reported_keys out = [lit "label"; lit "id"].
Proof.
  intros original tampered.
  assert (Hnd : NoDup (map fst original)).
  { apply (bool_decide_unpack _). vm_compute. exact I. }
  assert (Hprint : report_prints original tampered = true) by (vm_compute; reflexivity).
  split; [ exact Hnd | ]. split; [ exact Hprint | ].
  destruct (report_in_original_order original tampered Hnd) as (out & Hout & Hkeys).
  { intros k Hk. apply dict_lookup_keys.
    apply list_elem_of_In in Hk. apply list_elem_of_In. simpl in *. intuition. }
  { exact Hprint. }
  exists out. split; [ exact Hout | ]. rewrite Hkeys. vm_compute. reflexivity.
Defined.

(** ** Canonical form: the order of keys *)

Lemma str_ltb_irrefl (a : pystr) : str_ltb a a = false.
Proof.
  induction a as [ | x a IH ]; [ reflexivity | ].
  simpl. rewrite N.ltb_irrefl, N.eqb_refl, IH. reflexivity.
Qed.

Lemma str_ltb_trans (a b c : pystr) :
  str_ltb a b = true -> str_ltb b c = true -> str_ltb a c = true.
Proof.
  revert b c. induction a as [ | x a IH ]; intros [ | y b ] [ | z c ]; simpl;
    try discriminate; try reflexivity.
  intros Hab Hbc.
  apply orb_true_iff in Hab as [ Hxy | Hab ]; apply orb_true_iff in Hbc as [ Hyz | Hbc ].
  - apply orb_true_iff. left. apply N.ltb_lt in Hxy, Hyz. apply N.ltb_lt. lia.
  - apply andb_true_iff in Hbc as [Hyz _]. apply N.eqb_eq in Hyz. subst.
    rewrite Hxy. reflexivity.
  - apply andb_true_iff in Hab as [Hxy _]. apply N.eqb_eq in Hxy. subst.
    rewrite Hyz. reflexivity.
  - apply andb_true_iff in Hab as [Hxy Hab]. apply andb_true_iff in Hbc as [Hyz Hbc].
    apply N.eqb_eq in Hxy, Hyz. subst. rewrite N.eqb_refl, (IH _ _ Hab Hbc).
    apply orb_true_r.
Qed.

Lemma str_ltb_connex (a b : pystr) :
  str_ltb a b = false -> str_ltb b a = false -> a = b.
Proof.
  revert b. induction a as [ | x a IH ]; intros [ | y b ]; simpl;
    try discriminate; try reflexivity.
  intros Hab Hba.
  apply orb_false_iff in Hab as [Hxy Hab]. apply orb_false_iff in Hba as [Hyx Hba].
  apply N.ltb_ge in Hxy, Hyx. assert (x = y) by lia. subst.
  rewrite N.eqb_refl in Hab, Hba. simpl in Hab, Hba. f_equal. apply IH; assumption.
Qed.

Lemma str_ltb_asym (a b : pystr) : str_ltb a b = true -> str_ltb b a = false.
Proof.
  intros Hab. destruct (str_ltb b a) eqn:Hba; [ | reflexivity ].
  rewrite <- (str_ltb_irrefl a). symmetry. eapply str_ltb_trans; eassumption.
Qed.

#[export] Instance item_le_total {A} : Total (@item_le A).
Proof.
  intros x y. unfold item_le, str_leb.
  destruct (str_ltb y.1 x.1) eqn:H; [ right | left; exact I ].
  rewrite (str_ltb_asym _ _ H). exact I.
Qed.

#[export] Instance item_le_trans {A} : Transitive (@item_le A).
Proof.
  intros x y z. unfold item_le, str_leb. intros Hxy Hyz.
  apply Is_true_true, negb_true_iff in Hxy. apply Is_true_true, negb_true_iff in Hyz.
  apply Is_true_true, negb_true_iff.
  destruct (str_ltb z.1 x.1) eqn:Hzx; [ | reflexivity ].
  destruct (str_ltb x.1 y.1) eqn:Hxy'.
  - rewrite <- Hyz. symmetry. eapply str_ltb_trans; eassumption.
  - rewrite (str_ltb_connex _ _ Hxy' Hxy) in Hzx. congruence.
Qed.

Lemma item_le_antisym {A} (x y : pystr * A) : item_le x y -> item_le y x -> x.1 = y.1.
Proof.
  unfold item_le, str_leb. intros Hxy Hyx.
  apply Is_true_true, negb_true_iff in Hxy. apply Is_true_true, negb_true_iff in Hyx.
  apply str_ltb_connex; assumption.
Qed.

Lemma NoDup_fst_inj {A} (l : list (pystr * A)) (x y : pystr * A) :
  NoDup (map fst l) -> x ∈ l -> y ∈ l -> x.1 = y.1 -> x = y.
Proof.
  induction l as [ | z l IH ]; intros Hnd Hx Hy Hk; [ inversion Hx | ].
  simpl in Hnd. apply NoDup_cons in Hnd as [Hz Hnd].
  apply elem_of_cons in Hx as [ -> | Hx ]; apply elem_of_cons in Hy as [ -> | Hy ].
  - reflexivity.
  - exfalso. apply Hz. rewrite Hk. apply list_elem_of_fmap. exists y. auto.
  - exfalso. apply Hz. rewrite <- Hk. apply list_elem_of_fmap. exists x. auto.
  - apply IH; assumption.
Qed.

(** Two orders of insertion of the same items sort to the same list. *)
Lemma merge_sort_items_unique {A} (l1 l2 : list (pystr * A)) :
  NoDup (map fst l1) -> l1 ≡ₚ l2 ->
  merge_sort item_le l1 = merge_sort item_le l2.
Proof.
  intros Hnd Hperm.
  apply (Sorted_unique_strong item_le).
  - intros x1 x2 H1 H2 H12 H21.
    rewrite merge_sort_Permutation in H1, H2. rewrite <- Hperm in H2.
    apply (NoDup_fst_inj l1); [ assumption .. | ].
    apply item_le_antisym; assumption.
  - apply Sorted_merge_sort, _.
  - apply Sorted_merge_sort, _.
  - rewrite !merge_sort_Permutation. exact Hperm.
Qed.

Lemma rendered_keys (items : list (pystr * json)) :
  map fst (map (fun kv => (kv.1, json_dumps true kv.2)) items) = map fst items.
Proof. rewrite map_map. reflexivity. Qed.

Lemma Forall2_same_keys (xs ys : list (pystr * json)) :
  Forall2 (fun a b => a.1 = b.1 /\ json_equiv a.2 b.2) xs ys ->
  map fst xs = map fst ys.
Proof.
  induction 1 as [ | x y xs ys [Hk _] _ IH ]; [ reflexivity | ].
  simpl. rewrite Hk, IH. reflexivity.
Qed.

(** Equal values up to key order have the same canonical text. *)
Lemma json_equiv_dumps (v1 : json) :
  forall v2, json_equiv v1 v2 -> wf_json v1 -> json_dumps true v1 = json_dumps true v2.
Proof.
  induction v1 as [ | b | n | f | s | xs IH | items IH ] using json_ind;
    intros v2 Hequiv Hwf; inversion Hequiv; subst; try reflexivity.
  - (* lists *)
    cbn [json_dumps]. do 3 f_equal.
    inversion Hwf as [ | | | | | ? Hwfs | ]; subst.
    match goal with H : Forall2 json_equiv xs _ |- _ => rename H into Hall end.
    clear Hequiv Hwf.
    induction Hall as [ | x y l k Hxy Hall IHall ]; [ reflexivity | ].
    apply Forall_cons in IH as [IHx IH]. apply Forall_cons in Hwfs as [Hx Hwfs].
    simpl. f_equal; [ apply IHx; assumption | ].
    apply IHall; assumption.
  - (* dicts *)
    inversion Hwf as [ | | | | | | ? Hnd Hwfs ]; subst.
    match goal with
    | H1 : items ≡ₚ ?a, H2 : _ ≡ₚ ?b, H3 : Forall2 _ ?a ?b |- _ =>
        rename H1 into Hp1; rename H2 into Hp2; rename H3 into Hall
    end.
    cbn [json_dumps]. do 4 f_equal.
    rewrite Hp1 in IH, Hwfs, Hnd.
    transitivity (merge_sort item_le (map (fun kv => (kv.1, json_dumps true kv.2)) xs')).
    { symmetry. apply merge_sort_items_unique; [ rewrite rendered_keys; exact Hnd | ].
      symmetry. apply Permutation_map, Hp1. }
    transitivity (merge_sort item_le (map (fun kv => (kv.1, json_dumps true kv.2)) ys')).
    2: { apply merge_sort_items_unique.
         - rewrite rendered_keys, <- (Forall2_same_keys _ _ Hall). exact Hnd.
         - symmetry. apply Permutation_map, Hp2. }
    f_equal. clear Hp1 Hp2 Hequiv Hwf Hnd.
    induction Hall as [ | x y l k [Hk Hxy] Hall IHall ]; [ reflexivity | ].
    apply Forall_cons in IH as [IHx IH]. apply Forall_cons in Hwfs as [[_ Hx] Hwfs].
    simpl. f_equal; [ rewrite Hk; f_equal; apply IHx; assumption | ].
    apply IHall; assumption.
Qed.

(** ** Canonical form: numbers are told apart *)

Lemma uint_str_digits (u : Decimal.uint) : Forall digit_char (uint_str u).
Proof. induction u; simpl; constructor; unfold digit_char; try lia; assumption. Qed.

Lemma uint_str_inj (u v : Decimal.uint) : uint_str u = uint_str v -> u = v.
Proof.
  revert v. induction u; intros [ ]; simpl; intros H; try discriminate;
    try reflexivity; injection H as H; f_equal; auto.
Qed.

Lemma num_acc_uint (d : Decimal.uint) (acc : positive) :
  num_acc (uint_str d) (Npos acc) = Npos (Pos.of_uint_acc d acc).
Proof.
  revert acc. induction d; intros acc; simpl; [ reflexivity | .. ];
    unfold num_acc in *; simpl;
    match goal with
    | |- fold_left _ _ ?a = N.pos (Pos.of_uint_acc _ ?b) =>
        replace a with (N.pos b) by lia
    end; apply IHd.
Qed.

Lemma num_uint_str (d : Decimal.uint) : num (uint_str d) = Pos.of_uint d.
Proof.
  induction d; simpl; [ reflexivity | exact IHd | .. ];
    unfold num, num_acc; simpl; apply num_acc_uint.
Qed.

Lemma num_digits (m : N) : num (uint_str (N.to_uint m)) = m.
Proof. rewrite num_uint_str. apply DecimalN.Unsigned.of_to. Qed.

Lemma digits_nonempty (m : N) : uint_str (N.to_uint m) <> [].
Proof.
  destruct m as [ | p ]; [ discriminate | ].
  intros H. pose proof (num_digits (Npos p)) as Hn. rewrite H in Hn. discriminate.
Qed.

Lemma int_repr_nonneg (z : Z) : 0 <= z -> int_repr z = uint_str (N.to_uint (Z.to_N z)).
Proof. destruct z; [ reflexivity | reflexivity | lia ]. Qed.

Lemma digit_not_minus (s : pystr) (r : pystr) :
  Forall digit_char s -> s = 45%N :: r -> False.
Proof. intros H ->. apply Forall_cons in H as [H _]. unfold digit_char in H. lia. Qed.

Lemma int_repr_inj (n1 n2 : Z) : int_repr n1 = int_repr n2 -> n1 = n2.
Proof.
  unfold int_repr. intros H. apply DecimalZ.to_int_inj.
  destruct (Z.to_int n1) as [ u | u ], (Z.to_int n2) as [ v | v ]; simpl in H.
  - f_equal. apply uint_str_inj, H.
  - exfalso. eapply digit_not_minus; [ apply uint_str_digits | exact H ].
  - exfalso. eapply digit_not_minus; [ apply uint_str_digits | symmetry; exact H ].
  - injection H as H. f_equal. apply uint_str_inj, H.
Qed.

(** An [int] is its value: the proof that it is within the limit is unique. *)
Lemma pyint_eq (n1 n2 : pyint) : int_value n1 = int_value n2 -> n1 = n2.
Proof.
  destruct n1 as [z1 H1], n2 as [z2 H2]. cbn [int_value]. intros <-.
  f_equal. revert H1 H2. destruct (within_int_limit z1); intros [] []. reflexivity.
Qed.

Lemma digit_is_float_char (s : pystr) : Forall digit_char s -> Forall float_char s.
Proof. intros Hs. eapply Forall_impl; [ exact Hs | ]. intros c H. left. exact H. Qed.

Lemma int_repr_chars (n : Z) : Forall float_char (int_repr n).
Proof.
  unfold int_repr. destruct (Z.to_int n); simpl.
  - apply digit_is_float_char, uint_str_digits.
  - constructor; [ unfold float_char; lia | apply digit_is_float_char, uint_str_digits ].
Qed.

Lemma float_char_token (s : pystr) : Forall float_char s -> token s.
Proof.
  intros Hs. eapply Forall_impl; [ exact Hs | ].
  intros c H Hstop. unfold float_char, digit_char, stop_char in *. lia.
Qed.

(** Two tokens followed by stops are equal when the whole texts are. *)
Lemma token_split (a b s1 s2 : pystr) :
  token a -> token b -> stops s1 -> stops s2 ->
  a ++ s1 = b ++ s2 -> a = b /\ s1 = s2.
Proof.
  revert b. induction a as [ | x a IH ]; intros [ | y b ] Ha Hb H1 H2 H; simpl in H.
  - auto.
  - subst s1. apply Forall_cons in Hb as [Hy _]. contradiction.
  - subst s2. apply Forall_cons in Ha as [Hx _]. contradiction.
  - injection H as -> H. apply Forall_cons in Ha as [_ Ha]. apply Forall_cons in Hb as [_ Hb].
    destruct (IH b Ha Hb H1 H2 H) as [-> ->]. auto.
Qed.

Lemma float_repr_body (s : bool) (m : N) (e : Z) :
  float_repr s m e = (if s then [45%N] else []) ++ float_body m e.
Proof. reflexivity. Qed.

Lemma num_acc_app (a b : pystr) (acc : N) :
  num_acc (a ++ b) acc = num_acc b (num_acc a acc).
Proof. apply fold_left_app. Qed.

Lemma num_acc_zeros (k : Z) (acc : N) :
  0 <= k -> Z.of_N (num_acc (zeros k) acc) = Z.of_N acc * 10 ^ k.
Proof.
  intros Hk. unfold zeros. rewrite <- (Z2Nat.id k) at 2 by exact Hk.
  generalize (Z.to_nat k) as j. clear. intros j. revert acc.
  induction j as [ | j IH ]; intros acc.
  - simpl. lia.
  - cbn [repeat]. unfold num_acc in *. cbn [fold_left]. rewrite IH.
    rewrite Nat2Z.inj_succ, Z.pow_succ_r by lia. lia.
Qed.

Lemma num_of_leading_zeros (k : Z) (s : pystr) : num (zeros k ++ s) = num s.
Proof.
  unfold num. rewrite num_acc_app. f_equal.
  unfold zeros. induction (Z.to_nat k) as [ | j IH ]; [ reflexivity | exact IH ].
Qed.

Lemma split_at_char (x : N) (a1 a2 b1 b2 : pystr) :
  x ∉ a1 -> x ∉ a2 -> a1 ++ x :: b1 = a2 ++ x :: b2 -> a1 = a2 /\ b1 = b2.
Proof.
  revert a2. induction a1 as [ | c a1 IH ]; intros [ | d a2 ] H1 H2 H; simpl in H.
  - injection H as ->. auto.
  - injection H as -> _. exfalso. apply H2. left.
  - injection H as -> _. exfalso. apply H1. left.
  - injection H as -> H. apply not_elem_of_cons in H1 as [_ H1].
    apply not_elem_of_cons in H2 as [_ H2].
    destruct (IH a2 H1 H2 H) as [-> ->]. auto.
Qed.

Lemma digits_exclude (x : N) (s : pystr) :
  ~ digit_char x -> Forall digit_char s -> x ∉ s.
Proof.
  intros Hx Hs Hin. rewrite Forall_forall in Hs. apply Hx, Hs, Hin.
Qed.

Lemma zeros_digits (k : Z) : Forall digit_char (zeros k).
Proof.
  unfold zeros. apply Forall_forall. intros c Hc.
  apply list_elem_of_In, repeat_spec in Hc. subst. unfold digit_char. lia.
Qed.

Lemma length_zeros (k : Z) : 0 <= k -> Z.of_nat (length (zeros k)) = k.
Proof. intros Hk. unfold zeros. rewrite repeat_length. lia. Qed.

(** In positional notation the text is an integer part, a point and a
    fraction; read without the point it is [m] scaled to the fraction. *)
Lemma float_body_fixed (m : N) (e : Z) :
  let n := Z.of_nat (length (uint_str (N.to_uint m))) in
  -4 < n + e <= 16 ->
  exists I F,
    float_body m e = I ++ 46%N :: F
    /\ Forall digit_char I /\ Forall digit_char F
    /\ I <> []
    /\ 0 <= e + Z.of_nat (length F)
    /\ Z.of_N (num (I ++ F)) = Z.of_N m * 10 ^ (e + Z.of_nat (length F)).
Proof.
  intros n Hrange. unfold float_body. fold n.
  pose proof (uint_str_digits (N.to_uint m)) as Hd.
  pose proof (num_digits m) as Hm.
  pose proof (digits_nonempty m) as Hne.
  set (D := uint_str (N.to_uint m)) in *.
  destruct (Z.leb_spec (n + e) (-4)); [ lia | ].
  destruct (Z.ltb_spec 16 (n + e)); [ lia | ]. cbn [orb].
  destruct (Z.leb_spec (n + e) 0) as [ Hle | Hgt ].
  - exists [48%N], (zeros (- (n + e)) ++ D).
    split; [ reflexivity | ].
    split; [ repeat constructor; unfold digit_char; lia | ].
    split; [ apply Forall_app; split; [ apply zeros_digits | exact Hd ] | ].
    split; [ discriminate | ].
    rewrite length_app, Nat2Z.inj_add, length_zeros by lia. fold n.
    split; [ lia | ].
    replace (e + (- (n + e) + n)) with 0 by lia.
    change ([48%N] ++ zeros (- (n + e)) ++ D) with (zeros 1 ++ zeros (- (n + e)) ++ D).
    rewrite !num_of_leading_zeros, Hm. lia.
  - destruct (Z.ltb_spec (n + e) n) as [ Hlt | Hge ].
    + exists (take (Z.to_nat (n + e)) D), (drop (Z.to_nat (n + e)) D).
      split; [ reflexivity | ].
      split; [ apply Forall_take, Hd | ].
      split; [ apply Forall_drop, Hd | ].
      split.
      { intros Htake. apply (f_equal length) in Htake.
        rewrite length_take in Htake. simpl in Htake. lia. }
      rewrite length_drop, take_drop, Hm. fold n.
      split; [ lia | ].
      replace (e + Z.of_nat (length D - Z.to_nat (n + e))) with 0 by lia. lia.
    + exists (D ++ zeros (n + e - n)), [48%N].
      split; [ rewrite <- app_assoc; reflexivity | ].
      split; [ apply Forall_app; split; [ exact Hd | apply zeros_digits ] | ].
      split; [ repeat constructor; unfold digit_char; lia | ].
      split; [ destruct D; [ contradiction | discriminate ] | ].
      cbn [length]. split; [ lia | ].
      change [48%N] with (zeros 1). rewrite <- app_assoc.
      unfold num. rewrite !num_acc_app. fold (num D). rewrite Hm.
      rewrite num_acc_zeros, num_acc_zeros by lia.
      replace (e + Z.of_nat 1) with ((n + e - n) + 1) by lia.
      rewrite Z.pow_add_r by lia. lia.
Qed.

Lemma mantissa_text_digits (D : pystr) :
  Forall digit_char D -> no_dot (mantissa_text D) = D /\ 101%N ∉ mantissa_text D.
Proof.
  intros Hd.
  assert (Hnd : forall s, Forall digit_char s -> no_dot s = s).
  { intros s Hs. induction Hs as [ | c s Hc Hs IH ]; [ reflexivity | ].
    unfold no_dot in *. simpl. destruct (N.eqb_spec c 46) as [ -> | _ ];
      [ unfold digit_char in Hc; lia | ]. simpl. rewrite IH. reflexivity. }
  unfold mantissa_text. split.
  - unfold no_dot. rewrite List.filter_app. fold (no_dot (take 1 D)).
    rewrite Hnd by apply Forall_take, Hd.
    destruct (1 <? Z.of_nat (length D)) eqn:Hlen.
    + simpl. fold (no_dot (drop 1 D)). rewrite Hnd by apply Forall_drop, Hd.
      apply take_drop.
    + simpl. rewrite app_nil_r. apply take_ge. apply Z.ltb_ge in Hlen. lia.
  - rewrite not_elem_of_app. split.
    + apply digits_exclude; [ unfold digit_char; lia | apply Forall_take, Hd ].
    + destruct (1 <? Z.of_nat (length D)); [ | apply not_elem_of_nil ].
      apply not_elem_of_cons. split; [ lia | ].
      apply digits_exclude; [ unfold digit_char; lia | apply Forall_drop, Hd ].
Qed.

Lemma float_body_exp (m : N) (e : Z) :
  let D := uint_str (N.to_uint m) in
  let n := Z.of_nat (length D) in
  n + e <= -4 \/ 16 < n + e ->
  float_body m e = mantissa_text D ++ 101%N :: exp_str (n + e - 1).
Proof.
  intros D n Hrange. unfold float_body, mantissa_text. fold D. fold n.
  assert (Hb : (n + e <=? -4) || (16 <? n + e) = true).
  { apply orb_true_iff. destruct Hrange; [ left; lia | right; lia ]. }
  rewrite Hb. rewrite <- app_assoc. reflexivity.
Qed.

Lemma num_pad (d : pystr) : num (if (length d <? 2)%nat then lit "0" ++ d else d) = num d.
Proof.
  destruct (length d <? 2)%nat; [ | reflexivity ].
  change (lit "0" ++ d) with (zeros 1 ++ d). apply num_of_leading_zeros.
Qed.

Lemma exp_str_shape (z : Z) :
  exists p, exp_str z = (if z <? 0 then 45%N else 43%N) :: p /\ num p = Z.to_N (Z.abs z).
Proof.
  unfold exp_str. eexists. split.
  - destruct (z <? 0); reflexivity.
  - rewrite num_pad, int_repr_nonneg by lia. apply num_digits.
Qed.

Lemma exp_str_inj (x y : Z) : exp_str x = exp_str y -> x = y.
Proof.
  destruct (exp_str_shape x) as (p & -> & Hp), (exp_str_shape y) as (q & -> & Hq).
  destruct (Z.ltb_spec x 0), (Z.ltb_spec y 0); intros Heq; try discriminate;
    injection Heq as ->; lia.
Qed.

Lemma exp_str_chars (x : Z) : Forall float_char (exp_str x).
Proof.
  unfold exp_str. apply Forall_app. split.
  - change (lit "-") with [45%N]. change (lit "+") with [43%N].
    destruct (x <? 0); (apply Forall_cons; split; [ | apply Forall_nil_2 ]);
      unfold float_char, digit_char; lia.
  - destruct (_ <? _)%nat;
      [ change (lit "0") with [48%N];
        apply Forall_cons; split; [ unfold float_char, digit_char; lia | ] | ];
      apply int_repr_chars.
Qed.

(** Replace the literals of the goal by their code points. *)
Ltac lit_values :=
  repeat match goal with
         | |- context [lit ?s] =>
             let v := eval vm_compute in (lit s) in change (lit s) with v
         end.

Ltac lit_values_in H :=
  repeat match type of H with
         | context [lit ?s] =>
             let v := eval vm_compute in (lit s) in change (lit s) with v in H
         end.

Lemma float_repr_chars (s : bool) (m : N) (e : Z) : Forall float_char (float_repr s m e).
Proof.
  unfold float_repr. lit_values.
  pose proof (digit_is_float_char _ (uint_str_digits (N.to_uint m))) as Hd.
  assert (Hz : forall k, Forall float_char (zeros k))
    by (intros k; apply digit_is_float_char, zeros_digits).
  repeat first
    [ apply Hz | apply exp_str_chars | assumption
    | apply Forall_app; split
    | match goal with |- Forall _ (if ?b then _ else _) => destruct b end
    | apply Forall_take | apply Forall_drop
    | apply Forall_nil_2
    | apply Forall_cons; split; [ unfold float_char, digit_char; lia | ] ].
Qed.

Lemma float_body_first (m : N) (e : Z) :
  exists c rest, float_body m e = c :: rest /\ digit_char c.
Proof.
  pose proof (uint_str_digits (N.to_uint m)) as Hd.
  pose proof (digits_nonempty m) as Hne.
  set (n := Z.of_nat (length (uint_str (N.to_uint m)))).
  destruct (Z.leb_spec (n + e) (-4)) as [ H1 | H1 ];
    [ | destruct (Z.ltb_spec 16 (n + e)) as [ H2 | H2 ] ].
  1, 2: rewrite float_body_exp by (fold n; lia); unfold mantissa_text;
    destruct (uint_str (N.to_uint m)) as [ | c D ]; [ contradiction | ];
    apply Forall_cons in Hd as [Hc _]; exists c; eexists; split; [ reflexivity | exact Hc ].
  destruct (float_body_fixed m e) as (I & F & -> & HI & _ & HIne & _); [ fold n; lia | ].
  destruct I as [ | c I ]; [ contradiction | ].
  apply Forall_cons in HI as [Hc _]. exists c. eexists. split; [ reflexivity | exact Hc ].
Qed.

Lemma scaled_normal (m1 m2 : N) (e1 e2 k : Z) :
  ((m1 = 0%N -> e1 = 0) /\ (m1 <> 0%N -> (m1 mod 10 <> 0)%N)) ->
  ((m2 = 0%N -> e2 = 0) /\ (m2 <> 0%N -> (m2 mod 10 <> 0)%N)) ->
  0 <= e1 + k -> 0 <= e2 + k ->
  Z.of_N m1 * 10 ^ (e1 + k) = Z.of_N m2 * 10 ^ (e2 + k) ->
  m1 = m2 /\ e1 = e2.
Proof.
  assert (Hlt : forall (a b : N) (ea eb : Z),
            (a <> 0%N -> (a mod 10 <> 0)%N) ->
            0 <= ea < eb -> Z.of_N a * 10 ^ ea = Z.of_N b * 10 ^ eb ->
            a = 0%N /\ b = 0%N).
  { intros a b ea eb Ha Hab H.
    replace eb with (ea + (1 + (eb - ea - 1))) in H by lia.
    rewrite !Z.pow_add_r in H by lia.
    assert (Hpos : 0 < 10 ^ ea) by (apply Z.pow_pos_nonneg; lia).
    assert (Hpos' : 0 < 10 ^ (eb - ea - 1)) by (apply Z.pow_pos_nonneg; lia).
    assert (Ha10 : Z.of_N a = 10 * (Z.of_N b * 10 ^ (eb - ea - 1))) by nia.
    assert (Ha0 : a = 0%N).
    { destruct (N.eq_dec a 0%N) as [ | Hne ]; [ assumption | ].
      exfalso. apply (Ha Hne).
      apply N2Z.inj. rewrite N2Z.inj_mod. change (Z.of_N 10) with 10.
      rewrite Ha10, Z.mul_comm. apply Z.mod_mul. lia. }
    split; [ exact Ha0 | ]. subst a. nia. }
  intros [Hz1 Hn1] [Hz2 Hn2] Hk1 Hk2 H.
  destruct (Z.lt_trichotomy (e1 + k) (e2 + k)) as [ Hlt' | [ Heq | Hgt ] ].
  - destruct (Hlt m1 m2 (e1 + k) (e2 + k) Hn1 ltac:(lia) H) as [-> ->].
    specialize (Hz1 eq_refl). specialize (Hz2 eq_refl). lia.
  - rewrite Heq in H.
    assert (Hpos : 0 < 10 ^ (e2 + k)) by (apply Z.pow_pos_nonneg; lia).
    split; [ nia | lia ].
  - destruct (Hlt m2 m1 (e2 + k) (e1 + k) Hn2 ltac:(lia) (eq_sym H)) as [-> ->].
    specialize (Hz1 eq_refl). specialize (Hz2 eq_refl). lia.
Qed.

Lemma float_body_inj (m1 m2 : N) (e1 e2 : Z) :
  wf_float (FFinite false m1 e1) -> wf_float (FFinite false m2 e2) ->
  float_body m1 e1 = float_body m2 e2 -> m1 = m2 /\ e1 = e2.
Proof.
  intros Hw1 Hw2 H. simpl in Hw1, Hw2.
  pose proof (uint_str_digits (N.to_uint m1)) as Hd1.
  pose proof (uint_str_digits (N.to_uint m2)) as Hd2.
  set (n1 := Z.of_nat (length (uint_str (N.to_uint m1)))).
  set (n2 := Z.of_nat (length (uint_str (N.to_uint m2)))).
  assert (Hexp : forall m e, let n := Z.of_nat (length (uint_str (N.to_uint m))) in
            n + e <= -4 \/ 16 < n + e -> 101%N ∈ float_body m e).
  { intros m e n Hr. rewrite float_body_exp by exact Hr.
    apply elem_of_app. right. left. }
  assert (Hfix : forall m e, let n := Z.of_nat (length (uint_str (N.to_uint m))) in
            -4 < n + e <= 16 -> 101%N ∉ float_body m e).
  { intros m e n Hr. destruct (float_body_fixed m e Hr) as (I & F & -> & HI & HF & _).
    rewrite not_elem_of_app, not_elem_of_cons.
    split; [ | split; [ lia | ] ]; apply digits_exclude; try assumption;
      unfold digit_char; lia. }
  assert (Hcase : forall n e, (n + e <= -4 \/ 16 < n + e) \/ -4 < n + e <= 16) by lia.
  destruct (Hcase n1 e1) as [ Hr1 | Hr1 ], (Hcase n2 e2) as [ Hr2 | Hr2 ].
  - (* both in exponent notation *)
    rewrite !float_body_exp in H by assumption.
    destruct (mantissa_text_digits _ Hd1) as [Hm1 Hx1].
    destruct (mantissa_text_digits _ Hd2) as [Hm2 Hx2].
    apply split_at_char in H as [HM HX]; [ | assumption .. ].
    apply exp_str_inj in HX.
    assert (HD : uint_str (N.to_uint m1) = uint_str (N.to_uint m2))
      by (rewrite <- Hm1, <- Hm2, HM; reflexivity).
    assert (Hm : m1 = m2) by (rewrite <- (num_digits m1), <- (num_digits m2), HD; reflexivity).
    subst m2. split; [ reflexivity | lia ].
  - exfalso. apply (Hfix m2 e2 Hr2). rewrite <- H. apply Hexp, Hr1.
  - exfalso. apply (Hfix m1 e1 Hr1). rewrite H. apply Hexp, Hr2.
  - (* both in positional notation *)
    destruct (float_body_fixed m1 e1 Hr1) as (I1 & F1 & E1 & HI1 & HF1 & _ & Hk1 & Hv1).
    destruct (float_body_fixed m2 e2 Hr2) as (I2 & F2 & E2 & HI2 & HF2 & _ & Hk2 & Hv2).
    rewrite E1, E2 in H.
    apply split_at_char in H as [-> ->];
      [ | apply digits_exclude; [ unfold digit_char; lia | assumption ] .. ].
    rewrite Hv1 in Hv2.
    apply (scaled_normal m1 m2 e1 e2 (Z.of_nat (length F2))); assumption.
Qed.

Lemma float_repr_inj (s1 s2 : bool) (m1 m2 : N) (e1 e2 : Z) :
  wf_float (FFinite s1 m1 e1) -> wf_float (FFinite s2 m2 e2) ->
  float_repr s1 m1 e1 = float_repr s2 m2 e2 ->
  s1 = s2 /\ m1 = m2 /\ e1 = e2.
Proof.
  intros Hw1 Hw2 H. rewrite !float_repr_body in H.
  destruct (float_body_first m1 e1) as (c1 & r1 & E1 & Hc1).
  destruct (float_body_first m2 e2) as (c2 & r2 & E2 & Hc2).
  destruct s1, s2; simpl in H.
  - injection H as H. split; [ reflexivity | ]. apply float_body_inj; assumption.
  - rewrite E2 in H. injection H as <- _. unfold digit_char in Hc2. lia.
  - rewrite E1 in H. injection H as -> _. unfold digit_char in Hc1. lia.
  - split; [ reflexivity | ]. apply float_body_inj; assumption.
Qed.

(** ** Canonical form: strings are told apart *)

Lemma unhexdigit_hexdigit (d : N) : (d < 16)%N -> unhexdigit (hexdigit d) = d.
Proof.
  intros Hd. unfold hexdigit, unhexdigit.
  destruct (N.ltb_spec d 10).
  - destruct (N.ltb_spec (48 + d) 58); lia.
  - destruct (N.ltb_spec (87 + d) 58); lia.
Qed.

Lemma unhex4_hex4 (n : N) :
  (n < 0x10000)%N ->
  exists h1 h2 h3 h4, hex4 n = [h1; h2; h3; h4] /\ unhex4 h1 h2 h3 h4 = n.
Proof.
  intros Hn. unfold hex4. cbn [map]. do 4 eexists. split; [ reflexivity | ].
  unfold unhex4. rewrite !unhexdigit_hexdigit by (apply N.mod_lt; lia).
  pose proof (N.div_mod n 4096 ltac:(lia)) as E1.
  pose proof (N.div_mod (n mod 4096) 256 ltac:(lia)) as E2.
  pose proof (N.div_mod (n mod 256) 16 ltac:(lia)) as E3.
  assert (H1 : (n / 4096 mod 16 = n / 4096)%N).
  { apply N.mod_small. apply N.Div0.div_lt_upper_bound. lia. }
  assert (H2 : (n / 256 mod 16 = n mod 4096 / 256)%N).
  { change 4096%N with (256 * 16)%N. rewrite N.Div0.mod_mul_r.
    rewrite N.mul_comm, N.div_add by lia.
    rewrite (N.div_small (n mod 256)) by (apply N.mod_lt; lia). reflexivity. }
  assert (H3 : (n / 16 mod 16 = n mod 256 / 16)%N).
  { change 256%N with (16 * 16)%N. rewrite N.Div0.mod_mul_r.
    rewrite N.mul_comm, N.div_add by lia.
    rewrite (N.div_small (n mod 16)) by (apply N.mod_lt; lia). reflexivity. }
  assert (H4 : (n mod 4096 mod 256 = n mod 256)%N).
  { change 4096%N with (256 * 16)%N. rewrite N.Div0.mod_mul_r.
    rewrite N.mul_comm, N.Div0.mod_add. apply N.Div0.mod_mod. }
  assert (H5 : (n mod 256 mod 16 = n mod 16)%N).
  { change 256%N with (16 * 16)%N. rewrite N.Div0.mod_mul_r.
    rewrite N.mul_comm, N.Div0.mod_add. apply N.Div0.mod_mod. }
  rewrite H1, H2, H3. rewrite H4 in E2. rewrite H5 in E3. lia.
Qed.

Lemma forall_range_N (P : N -> bool) (n : nat) :
  forallb P (map N.of_nat (seq 0 n)) = true ->
  forall x, (x < N.of_nat n)%N -> P x = true.
Proof.
  intros Hall x Hx. rewrite forallb_forall in Hall. apply Hall.
  apply in_map_iff. exists (N.to_nat x). split; [ lia | ].
  apply in_seq. lia.
Qed.

Lemma surrogate_pair (n : N) :
  (n < 0x100000)%N ->
  N.lor 0xD800 (N.land (N.shiftr n 10) 0x3FF) = (0xD800 + n / 1024)%N
  /\ N.lor 0xDC00 (N.land n 0x3FF) = (0xDC00 + n mod 1024)%N
  /\ (n / 1024 < 1024)%N /\ (n mod 1024 < 1024)%N.
Proof.
  intros Hn.
  assert (Hdiv : (n / 1024 < 1024)%N) by (apply N.Div0.div_lt_upper_bound; lia).
  assert (Hmod : (n mod 1024 < 1024)%N) by (apply N.mod_lt; lia).
  assert (Hland : forall a, N.land a 0x3FF = (a mod 1024)%N).
  { intros a. change 0x3FF%N with (N.ones 10). rewrite N.land_ones. reflexivity. }
  assert (Hlor : forall x, (x < 1024)%N ->
            N.lor 0xD800 x = (0xD800 + x)%N /\ N.lor 0xDC00 x = (0xDC00 + x)%N).
  { intros x Hx.
    pose proof (forall_range_N
      (fun x => (N.lor 0xD800 x =? 0xD800 + x)%N && (N.lor 0xDC00 x =? 0xDC00 + x)%N)
      1024 eq_refl x Hx) as H.
    apply andb_true_iff in H as [H1 H2]. apply N.eqb_eq in H1, H2. auto. }
  rewrite !Hland, N.shiftr_div_pow2. change (2 ^ 10)%N with 1024%N.
  rewrite (N.mod_small (n / 1024)) by exact Hdiv.
  destruct (Hlor _ Hdiv) as [-> _]. destruct (Hlor _ Hmod) as [_ ->]. auto.
Qed.

Lemma unescape_escape (c : N) (r : pystr) :
  valid_char c -> unescape_one (escape_char c ++ r) = Some (c, r).
Proof.
  intros [Hmax Hsur]. unfold escape_char.
  destruct (N.eqb_spec c 0x5C) as [ -> | H1 ]; [ reflexivity | ].
  destruct (N.eqb_spec c 0x22) as [ -> | H2 ]; [ reflexivity | ].
  destruct (N.eqb_spec c 0x08) as [ -> | H3 ]; [ reflexivity | ].
  destruct (N.eqb_spec c 0x0C) as [ -> | H4 ]; [ reflexivity | ].
  destruct (N.eqb_spec c 0x0A) as [ -> | H5 ]; [ reflexivity | ].
  destruct (N.eqb_spec c 0x0D) as [ -> | H6 ]; [ reflexivity | ].
  destruct (N.eqb_spec c 0x09) as [ -> | H7 ]; [ reflexivity | ].
  destruct ((0x20 <=? c)%N && (c <=? 0x7E)%N) eqn:Hprint.
  { cbn [app unescape_one]. destruct (N.eqb_spec c 0x5C); [ contradiction | reflexivity ]. }
  unfold is_surrogate in Hsur. apply andb_false_iff in Hsur.
  destruct (N.ltb_spec c 0x10000) as [ Hbmp | Hastral ].
  - destruct (unhex4_hex4 c Hbmp) as (h1 & h2 & h3 & h4 & -> & Hv).
    cbn [app unescape_one N.eqb Pos.eqb]. rewrite Hv.
    assert (Hhigh : ((0xD800 <=? c) && (c <=? 0xDBFF))%N = false).
    { apply andb_false_iff. destruct Hsur as [ H | H ]; [ left; exact H | right ].
      apply N.leb_gt in H. apply N.leb_gt. lia. }
    rewrite Hhigh. reflexivity.
  - destruct (surrogate_pair (c - 0x10000)) as (-> & -> & Hd & Hm); [ lia | ].
    pose proof (N.div_mod (c - 0x10000) 1024 ltac:(lia)) as Hdm.
    set (q := ((c - 0x10000) / 1024)%N) in *.
    set (m := ((c - 0x10000) mod 1024)%N) in *. clearbody q m.
    destruct (unhex4_hex4 (0xD800 + q)) as (h1 & h2 & h3 & h4 & -> & Hv1); [ lia | ].
    destruct (unhex4_hex4 (0xDC00 + m)) as (l1 & l2 & l3 & l4 & -> & Hv2); [ lia | ].
    cbn [app unescape_one N.eqb Pos.eqb]. rewrite Hv1, Hv2.
    assert (Hhigh : ((0xD800 <=? 0xD800 + q) && (0xD800 + q <=? 0xDBFF))%N = true).
    { apply andb_true_iff. split; apply N.leb_le; lia. }
    rewrite Hhigh. f_equal. f_equal. lia.
Qed.

Lemma escape_char_first (c : N) :
  exists x rest, escape_char c = x :: rest /\ x <> 0x22%N.
Proof.
  unfold escape_char.
  repeat match goal with
         | |- context [if (c =? ?k)%N then _ else _] => destruct (N.eqb_spec c k)
         | |- context [if ?b then _ else _] => destruct b
         end;
    do 2 eexists; (split; [ reflexivity | lia ]).
Qed.

(** The characters of a string are read back from its escaped body, up to
    the closing quote. *)
Lemma escaped_body_inj (s1 s2 r1 r2 : pystr) :
  wf_str s1 -> wf_str s2 ->
  concat (map escape_char s1) ++ 0x22%N :: r1 = concat (map escape_char s2) ++ 0x22%N :: r2 ->
  s1 = s2 /\ r1 = r2.
Proof.
  intros Hw1. revert s2. induction Hw1 as [ | c1 s1 Hc1 Hw1 IH ]; intros s2 Hw2 H.
  - destruct Hw2 as [ | c2 s2 Hc2 Hw2 ]; simpl in H.
    + injection H as ->. auto.
    + destruct (escape_char_first c2) as (x & rest & E & Hx). rewrite E in H.
      injection H as <- _. contradiction.
  - destruct Hw2 as [ | c2 s2 Hc2 Hw2 ]; simpl in H.
    + destruct (escape_char_first c1) as (x & rest & E & Hx). rewrite E in H.
      injection H as -> _. contradiction.
    + rewrite <- !app_assoc in H. apply (f_equal unescape_one) in H.
      rewrite !unescape_escape in H by assumption.
      injection H as -> H. destruct (IH s2 Hw2 H) as [-> ->]. auto.
Qed.

Lemma encode_basestring_ascii_inj (s1 s2 r1 r2 : pystr) :
  wf_str s1 -> wf_str s2 ->
  encode_basestring_ascii s1 ++ r1 = encode_basestring_ascii s2 ++ r2 ->
  s1 = s2 /\ r1 = r2.
Proof.
  intros Hw1 Hw2 H. unfold encode_basestring_ascii in H.
  rewrite <- !app_assoc in H. simpl in H. injection H as H.
  eapply escaped_body_inj; eassumption.
Qed.

(** ** Canonical form: a value is read back from its text *)

Lemma float_repr_first (s : bool) (m : N) (e : Z) :
  exists c rest,
    float_repr s m e = c :: rest
    /\ (digit_char c \/ (c = 45%N /\ exists d rest', rest = d :: rest' /\ digit_char d)).
Proof.
  rewrite float_repr_body. destruct (float_body_first m e) as (d & r & -> & Hd).
  destruct s; simpl; do 2 eexists; (split; [ reflexivity | ]); [ right | left; exact Hd ].
  split; [ reflexivity | ]. eauto.
Qed.

Lemma floatstr_inj (f1 f2 : pyfloat) :
  wf_float f1 -> wf_float f2 -> floatstr f1 = floatstr f2 -> f1 = f2.
Proof.
  assert (Hspecial : forall s m e,
            float_repr s m e <> [78; 97; 78]%N
            /\ float_repr s m e <> [73; 110; 102; 105; 110; 105; 116; 121]%N
            /\ float_repr s m e <> [45; 73; 110; 102; 105; 110; 105; 116; 121]%N).
  { intros s m e.
    destruct (float_repr_first s m e) as (c & rest & -> & [ Hc | (-> & d & r & -> & Hd) ]);
      unfold digit_char in *; repeat split; intros [=]; lia. }
  intros Hw1 Hw2.
  destruct f1 as [ | [ | ] | s1 m1 e1 ], f2 as [ | [ | ] | s2 m2 e2 ];
    cbn [floatstr]; lit_values; intros H; try reflexivity; try discriminate;
    try (destruct (Hspecial s1 m1 e1) as (A & B & C); congruence);
    try (destruct (Hspecial s2 m2 e2) as (A & B & C); congruence).
  apply float_repr_inj in H as (-> & -> & ->); [ reflexivity | assumption .. ].
Qed.

Lemma floatstr_token (f : pyfloat) : token (floatstr f).
Proof.
  destruct f as [ | [ | ] | s m e ]; cbn [floatstr]; lit_values;
    [ | | | apply float_char_token, float_repr_chars ];
    repeat (apply Forall_cons; split; [ unfold stop_char; lia | ]); apply Forall_nil_2.
Qed.

Lemma int_repr_plain (n : Z) : Forall int_char (int_repr n).
Proof.
  unfold int_repr. destruct (Z.to_int n) as [ u | u ]; simpl.
  - eapply Forall_impl; [ apply uint_str_digits | ]. intros c H. left. exact H.
  - constructor; [ right; reflexivity | ].
    eapply Forall_impl; [ apply uint_str_digits | ]. intros c H. left. exact H.
Qed.

Lemma floatstr_mark (f : pyfloat) : exists c, c ∈ floatstr f /\ ~ int_char c.
Proof.
  destruct f as [ | [ | ] | s m e ]; cbn [floatstr]; lit_values.
  - exists 78%N. split; [ left | unfold int_char, digit_char; lia ].
  - exists 73%N. split; [ right; left | unfold int_char, digit_char; lia ].
  - exists 73%N. split; [ left | unfold int_char, digit_char; lia ].
  - set (n := Z.of_nat (length (uint_str (N.to_uint m)))).
    assert (Hcase : (n + e <= -4 \/ 16 < n + e) \/ -4 < n + e <= 16) by lia.
    rewrite float_repr_body. destruct Hcase as [ Hr | Hr ].
    + exists 101%N. split; [ | unfold int_char, digit_char; lia ].
      rewrite float_body_exp by exact Hr.
      apply elem_of_app. right. apply elem_of_app. right. left.
    + exists 46%N. split; [ | unfold int_char, digit_char; lia ].
      destruct (float_body_fixed m e Hr) as (I & F & -> & _).
      apply elem_of_app. right. apply elem_of_app. right. left.
Qed.

Lemma int_repr_not_floatstr (n : Z) (f : pyfloat) : int_repr n <> floatstr f.
Proof.
  intros H. destruct (floatstr_mark f) as (c & Hin & Hc).
  rewrite <- H in Hin. pose proof (int_repr_plain n) as Hall.
  rewrite Forall_forall in Hall. apply Hc, Hall, Hin.
Qed.

Lemma json_dumps_first (v : json) :
  exists c rest, json_dumps true v = c :: rest /\ kind_char v c.
Proof.
  destruct v as [ | [ | ] | n | f | s | xs | items ]; cbn [json_dumps kind_char];
    lit_values; try (do 2 eexists; split; [ reflexivity | auto ]; fail).
  - (* int *)
    unfold int_repr. destruct n as [ [ | p | p ] Hn ]; cbn [int_value Z.to_int].
    + do 2 eexists. split; [ reflexivity | left; unfold digit_char; lia ].
    + pose proof (digits_nonempty (Npos p)) as Hne.
      pose proof (uint_str_digits (N.to_uint (Npos p))) as Hd.
      cbn [N.to_uint] in Hne, Hd.
      destruct (uint_str (Pos.to_uint p)) as [ | c r ]; [ contradiction | ].
      apply Forall_cons in Hd as [Hc _]. do 2 eexists. split; [ reflexivity | auto ].
    + do 2 eexists. split; [ reflexivity | right; left; reflexivity ].
  - (* float *)
    destruct f as [ | [ | ] | s m e ]; cbn [floatstr]; lit_values;
      try (do 2 eexists; split; [ reflexivity | ]; unfold digit_char; lia).
    destruct (float_repr_first s m e) as (c & rest & -> & [ Hc | [-> _] ]);
      do 2 eexists; (split; [ reflexivity | auto ]).
Qed.

Lemma kind_char_not_stop (v : json) (c : N) : kind_char v c -> ~ stop_char c.
Proof.
  destruct v; unfold kind_char, stop_char, digit_char; lia.
Qed.

Lemma join_cons_tail (sep p : pystr) (rest : list pystr) :
  join sep (p :: rest) = p ++ concat (map (app sep) rest).
Proof.
  revert p. induction rest as [ | q rest IH ]; intros p.
  - simpl. rewrite app_nil_r. reflexivity.
  - change (join sep (p :: q :: rest)) with (p ++ sep ++ join sep (q :: rest)).
    rewrite IH. simpl. rewrite <- !app_assoc. reflexivity.
Qed.

Section JoinInj.
Context {X : Type} (g : X -> pystr) (P Q : X -> Prop) (R : X -> X -> Prop) (closer : N).
Hypothesis closer_stop : stop_char closer.
Hypothesis closer_not_comma : closer <> 44%N.
Hypothesis g_first : forall x, exists c r, g x = c :: r /\ ~ stop_char c.
Hypothesis g_inj :
  forall x y k1 k2, P x -> Q y -> stops k1 -> stops k2 ->
    g x ++ k1 = g y ++ k2 -> R x y /\ k1 = k2.

Lemma tail_stops (xs : list X) (s : pystr) :
  stops (concat (map (app (lit ", ")) (map g xs)) ++ closer :: s).
Proof.
  destruct xs as [ | x xs ]; simpl; [ exact closer_stop | left; reflexivity ].
Qed.

Lemma tail_inj (xs ys : list X) (s1 s2 : pystr) :
  Forall P xs -> Forall Q ys ->
  concat (map (app (lit ", ")) (map g xs)) ++ closer :: s1
  = concat (map (app (lit ", ")) (map g ys)) ++ closer :: s2 ->
  Forall2 R xs ys /\ s1 = s2.
Proof.
  intros HP. revert ys. induction HP as [ | x xs Hx HP IH ]; intros ys HQ H.
  - destruct HQ as [ | y ys Hy HQ ]; simpl in H.
    + injection H as ->. auto.
    + injection H as Hc _. exfalso. apply closer_not_comma. exact Hc.
  - destruct HQ as [ | y ys Hy HQ ].
    + simpl in H. injection H as Hc _. exfalso. apply closer_not_comma. symmetry. exact Hc.
    + cbn [map concat] in H. rewrite <- !app_assoc in H.
      change (lit ", ") with [44%N; 32%N] in H at 1 3. simpl in H. injection H as H.
      apply g_inj in H as [Hxy H]; [ | assumption | assumption | apply tail_stops .. ].
      destruct (IH ys HQ H) as [Hall ->]. auto.
Qed.

Lemma join_inj (xs ys : list X) (s1 s2 : pystr) :
  Forall P xs -> Forall Q ys ->
  join (lit ", ") (map g xs) ++ closer :: s1 = join (lit ", ") (map g ys) ++ closer :: s2 ->
  Forall2 R xs ys /\ s1 = s2.
Proof.
  intros HP HQ H.
  destruct HP as [ | x xs Hx HP ], HQ as [ | y ys Hy HQ ].
  - simpl in H. injection H as ->. auto.
  - exfalso. cbn [map] in H. rewrite join_cons_tail in H.
    destruct (g_first y) as (c & r & E & Hc). rewrite E in H. simpl in H.
    injection H as -> _. contradiction.
  - exfalso. cbn [map] in H. rewrite join_cons_tail in H.
    destruct (g_first x) as (c & r & E & Hc). rewrite E in H. simpl in H.
    injection H as <- _. contradiction.
  - cbn [map] in H. rewrite !join_cons_tail, <- !app_assoc in H.
    apply g_inj in H as [Hxy H]; [ | assumption | assumption | apply tail_stops .. ].
    apply tail_inj in H as [Hall ->]; auto.
Qed.

End JoinInj.

Lemma first_chars (v1 v2 : json) (s1 s2 : pystr) :
  json_dumps true v1 ++ s1 = json_dumps true v2 ++ s2 ->
  exists c, kind_char v1 c /\ kind_char v2 c.
Proof.
  destruct (json_dumps_first v1) as (c1 & r1 & -> & H1).
  destruct (json_dumps_first v2) as (c2 & r2 & -> & H2).
  intros [= -> _]. eauto.
Qed.

Lemma json_dumps_starts (v : json) :
  exists c r, json_dumps true v = c :: r /\ ~ stop_char c.
Proof.
  destruct (json_dumps_first v) as (c & r & E & Hc).
  exists c, r. split; [ exact E | eapply kind_char_not_stop, Hc ].
Qed.

Lemma scalar_token (v : json) :
  match v with JStr _ | JList _ | JDict _ => False | _ => True end ->
  token (json_dumps true v).
Proof.
  destruct v as [ | [ | ] | n | f | | | ]; cbn [json_dumps]; lit_values; intros Hv;
    try contradiction;
    try (repeat (apply Forall_cons; split; [ unfold stop_char; lia | ]); apply Forall_nil_2).
  - apply float_char_token, int_repr_chars.
  - apply floatstr_token.
Qed.

(** A value is determined, up to the order of its keys, by its canonical
    text, even when more text follows it. *)
Lemma json_dumps_inj (v1 : json) :
  forall v2 s1 s2,
    wf_json v1 -> wf_json v2 -> stops s1 -> stops s2 ->
    json_dumps true v1 ++ s1 = json_dumps true v2 ++ s2 ->
    json_equiv v1 v2 /\ s1 = s2.
Proof.
  induction v1 as [ | b1 | n1 | f1 | t1 | xs IH | items IH ] using json_ind;
    intros v2 s1 s2 Hw1 Hw2 Hs1 Hs2 H;
    destruct (first_chars _ _ _ _ H) as (c & Hk1 & Hk2);
    destruct v2 as [ | b2 | n2 | f2 | t2 | ys | items2 ];
    try (exfalso; unfold kind_char, digit_char in Hk1, Hk2; lia);
    try (apply token_split in H as [H Hs];
         [ | apply scalar_token; exact I | apply scalar_token; exact I
           | assumption | assumption ]).
  - (* null *)
    subst. split; [ constructor | reflexivity ].
  - (* bool *)
    subst. destruct b1, b2; try discriminate; split; try constructor; reflexivity.
  - (* int, int *)
    subst. apply int_repr_inj, pyint_eq in H as ->. split; [ constructor | reflexivity ].
  - (* int, float *)
    exfalso. eapply int_repr_not_floatstr. exact H.
  - (* float, int *)
    exfalso. eapply int_repr_not_floatstr. symmetry. exact H.
  - (* float, float *)
    subst. inversion Hw1; inversion Hw2; subst.
    apply floatstr_inj in H as ->; try assumption. split; [ constructor | reflexivity ].
  - (* str *)
    inversion Hw1; inversion Hw2; subst. cbn [json_dumps] in H.
    apply encode_basestring_ascii_inj in H as [-> ->]; try assumption.
    split; [ constructor | reflexivity ].
  - (* list *)
    inversion Hw1 as [ | | | | | ? Hxs | ]; inversion Hw2 as [ | | | | | ? Hys | ]; subst.
    cbn [json_dumps] in H. lit_values_in H. simpl in H. injection H as H.
    rewrite <- !app_assoc in H. simpl in H.
    apply (join_inj (json_dumps true)
             (fun x => wf_json x /\
                       forall v2 s1 s2, wf_json x -> wf_json v2 -> stops s1 -> stops s2 ->
                         json_dumps true x ++ s1 = json_dumps true v2 ++ s2 ->
                         json_equiv x v2 /\ s1 = s2)
             wf_json json_equiv 93%N) in H.
    + destruct H as [Hall ->]. split; [ constructor; exact Hall | reflexivity ].
    + right. left. reflexivity.
    + discriminate.
    + apply json_dumps_starts.
    + intros x y k1 k2 [Hx IHx] Hy Hst1 Hst2 Hxy. apply IHx; assumption.
    + apply Forall_and. split; assumption.
    + assumption.
  - (* dict *)
    inversion Hw1 as [ | | | | | | ? Hnd1 Hi1 ]; inversion Hw2 as [ | | | | | | ? Hnd2 Hi2 ];
      subst.
    cbn [json_dumps] in H.
    destruct (Permutation_map_inv (fun kv : pystr * json => (kv.1, json_dumps true kv.2))
                items (merge_sort_Permutation item_le _)) as (zs1 & E1 & Hp1).
    destruct (Permutation_map_inv (fun kv : pystr * json => (kv.1, json_dumps true kv.2))
                items2 (merge_sort_Permutation item_le _)) as (zs2 & E2 & Hp2).
    rewrite E1, E2, !map_map in H. cbn [fst snd] in H.
    lit_values_in H. simpl in H. injection H as H.
    rewrite <- !app_assoc in H. simpl in H.
    rewrite Hp1 in IH, Hi1. rewrite Hp2 in Hi2.
    apply (join_inj
             (fun kv : pystr * json =>
                encode_basestring_ascii kv.1 ++ [58%N; 32%N] ++ json_dumps true kv.2)
             (fun kv => (wf_str kv.1 /\ wf_json kv.2) /\
                        forall v2 s1 s2, wf_json kv.2 -> wf_json v2 -> stops s1 -> stops s2 ->
                          json_dumps true kv.2 ++ s1 = json_dumps true v2 ++ s2 ->
                          json_equiv kv.2 v2 /\ s1 = s2)
             (fun kv => wf_str kv.1 /\ wf_json kv.2)
             (fun a b => a.1 = b.1 /\ json_equiv a.2 b.2) 125%N) in H.
    + destruct H as [Hall ->]. split; [ | reflexivity ].
      econstructor; eassumption.
    + right. right. reflexivity.
    + discriminate.
    + intros kv. unfold encode_basestring_ascii. do 2 eexists.
      split; [ reflexivity | unfold stop_char; lia ].
    + intros x y k1 k2 [[Hkx Hx] IHx] [Hky Hy] Hst1 Hst2 Hxy.
      rewrite <- !app_assoc in Hxy.
      apply encode_basestring_ascii_inj in Hxy as [Hkey Hxy]; try assumption.
      simpl in Hxy. injection Hxy as Hxy.
      destruct (IHx _ _ _ Hx Hy Hst1 Hst2 Hxy) as [Hequiv ->]. auto.
    + apply Forall_and. split; assumption.
    + assumption.
Qed.

Lemma json_equiv_refl (v : json) : json_equiv v v.
Proof.
  induction v as [ | b | n | f | s | xs IH | items IH ] using json_ind;
    try constructor.
  - induction IH; constructor; assumption.
  - apply (equiv_dict items items items items); [ reflexivity | reflexivity | ].
    induction IH; constructor; auto.
Qed.

(** Changing the insertion order of the top-level keys gives an equal record. *)
Lemma permuted_dict_equiv (items items' : list (pystr * json)) :
  items ≡ₚ items' -> json_equiv (JDict items) (JDict items').
Proof.
  intros Hp. apply (equiv_dict items items' items' items'); [ exact Hp | reflexivity | ].
  clear. induction items' as [ | kv items' IH ]; constructor;
    [ split; [ reflexivity | apply json_equiv_refl ] | exact IH ].
Qed.

Lemma Z_of_byte_of_Z (z : Z) : 0 <= z < 256 -> Z_of_byte (byte_of_Z z) = z.
Proof.
  intros Hz.
  pose proof (forall_range (fun z => Z_of_byte (byte_of_Z z) =? z) 256 eq_refl z Hz) as H.
  apply Z.eqb_eq, H.
Qed.

Lemma map_byte_of_N_inj (s1 s2 : pystr) :
  Forall is_ascii s1 -> Forall is_ascii s2 ->
  map byte_of_N s1 = map byte_of_N s2 -> s1 = s2.
Proof.
  intros H1. revert s2. induction H1 as [ | c1 s1 Hc1 H1 IH ]; intros s2 H2 H;
    destruct H2 as [ | c2 s2 Hc2 H2 ]; try discriminate; [ reflexivity | ].
  simpl in H. injection H as Hc H. f_equal; [ | apply IH; assumption ].
  unfold byte_of_N in Hc. apply (f_equal Z_of_byte) in Hc.
  unfold is_ascii in Hc1, Hc2. rewrite !Z_of_byte_of_Z in Hc by lia. lia.
Qed.

(** Two well-formed records have the same canonical bytes exactly when they
    are equal up to the order of the keys of their dicts. *)
Lemma canonical_bytes_equiv (r1 r2 : json) :
  wf_json r1 -> wf_json r2 ->
  (canonical_bytes r1 = canonical_bytes r2 <-> json_equiv r1 r2).
Proof.
  intros Hw1 Hw2. rewrite !canonical_bytes_ok. split.
  - intros [= H]. apply map_byte_of_N_inj in H; [ | apply json_dumps_ascii .. ].
    apply (json_dumps_inj r1 r2 [] []); try assumption; try exact I.
    rewrite !app_nil_r. exact H.
  - intros Hequiv. rewrite (json_equiv_dumps r1 r2 Hequiv Hw1). reflexivity.
Qed.

Lemma hash_data_ok (data : json) :
  CompareHashes.hash_data data
  = Ok (SHA256.hexdigest (map byte_of_N (json_dumps true data))).
Proof.
  unfold CompareHashes.hash_data.
  rewrite (str_encode_utf8_ascii _ (json_dumps_ascii true data)). reflexivity.
Qed.

(** C2, as the claim states it, fails in both directions. A string that
    holds the two halves of a surrogate pair and the string that holds the
    character they encode are different records with the same canonical
    bytes, hence the same hash. And [{"n": 1}] and [{"n": 1.0}], equal
    under [==], have different canonical bytes and different hashes. *)
Lemma canonical_bytes_not_iff_equal :
  let halves := JDict [(lit "text", JStr [0xD83D; 0xDE00]%N)] in
  let joined := JDict [(lit "text", JStr [0x1F600%N])] in
  let one := JDict [(lit "n", JInt (PyInt 1 I))] in
  let one_float := JDict [(lit "n", JFloat (FFinite false 1 0))] in
  halves <> joined
  /\ py_eq halves joined = false
  /\ canonical_bytes halves = canonical_bytes joined
  /\ Demo.hash_sentiment_data halves = Demo.hash_sentiment_data joined
  /\ CompareHashes.hash_data halves = CompareHashes.hash_data joined
  /\ py_eq one one_float = true
  /\ canonical_bytes one <> canonical_bytes one_float
  /\ CompareHashes.hash_data one <> CompareHashes.hash_data one_float.
Proof.
  intros halves joined one one_float.
  split; [ discriminate | ].
  do 5 (split; [ vm_compute; reflexivity | ]).
  split; intros H; vm_compute in H; discriminate H.
Qed.

(** C2, amended. On records whose strings hold no surrogate code point, the
    bytes that [hash_sentiment_data] and [hash_data] feed to SHA-256 do not
    depend on the order in which keys were inserted, at any depth, and they
    tell records apart: two records get the same bytes exactly when they are
    equal up to the order of the keys of their dicts, with the same type and
    the same value at every field. Records equal in that sense get the same
    digest from both routines. *)
Theorem canonical_bytes_iff_equiv (r1 r2 : json) :
  wf_json r1 -> wf_json r2 ->
  exists b1 b2,
    canonical_bytes r1 = Ok b1
    /\ canonical_bytes r2 = Ok b2
    /\ Demo.hash_sentiment_data r1 = Ok (SHA256.digest b1)
    /\ Demo.hash_sentiment_data r2 = Ok (SHA256.digest b2)
    /\ CompareHashes.hash_data r1 = Ok (SHA256.hexdigest b1)
    /\ CompareHashes.hash_data r2 = Ok (SHA256.hexdigest b2)
    /\ (b1 = b2 <-> json_equiv r1 r2)
    /\ (json_equiv r1 r2 ->
        Demo.hash_sentiment_data r1 = Demo.hash_sentiment_data r2
        /\ CompareHashes.hash_data r1 = CompareHashes.hash_data r2).
Proof.
  intros Hw1 Hw2.
  exists (map byte_of_N (json_dumps true r1)), (map byte_of_N (json_dumps true r2)).
  pose proof (canonical_bytes_equiv r1 r2 Hw1 Hw2) as Hiff.
  rewrite !canonical_bytes_ok in Hiff.
  split; [ apply canonical_bytes_ok | ]. split; [ apply canonical_bytes_ok | ].
  split; [ apply demo_hash_ok | ]. split; [ apply demo_hash_ok | ].
  split; [ apply hash_data_ok | ]. split; [ apply hash_data_ok | ].
  split.
  - rewrite <- Hiff. split; [ intros ->; reflexivity | intros [= H]; exact H ].
  - intros Hequiv. rewrite !demo_hash_ok, !hash_data_ok.
    rewrite (json_equiv_dumps r1 r2 Hequiv Hw1). split; reflexivity.
Qed.

Ltac solve_valid_chars :=
  repeat (apply Forall_cons; split; [ split; [ lia | reflexivity ] | ]); apply Forall_nil_2.

Lemma nested_record_wf : wf_json nested_record /\ wf_json nested_record_permuted.
Proof.
  split.
  - apply wf_dict; [ apply (bool_decide_unpack _); vm_compute; exact I | ].
    repeat (apply Forall_cons; split; [ split; [ unfold lit; simpl; solve_valid_chars | ] | ]);
      try apply Forall_nil_2.
    + apply wf_string. unfold lit; simpl. solve_valid_chars.
    + apply wf_string. unfold lit; simpl. solve_valid_chars.
    + apply wf_number. simpl. split; [ discriminate | intros _; discriminate ].
    + apply wf_dict; [ apply (bool_decide_unpack _); vm_compute; exact I | ].
      repeat (apply Forall_cons; split; [ split; [ unfold lit; simpl; solve_valid_chars | ] | ]);
        try apply Forall_nil_2.
      * apply wf_int.
      * apply wf_list. repeat constructor.
  - apply wf_dict; [ apply (bool_decide_unpack _); vm_compute; exact I | ].
    repeat (apply Forall_cons; split; [ split; [ unfold lit; simpl; solve_valid_chars | ] | ]);
      try apply Forall_nil_2.
    + apply wf_dict; [ apply (bool_decide_unpack _); vm_compute; exact I | ].
      repeat (apply Forall_cons; split; [ split; [ unfold lit; simpl; solve_valid_chars | ] | ]);
        try apply Forall_nil_2.
      * apply wf_list. repeat constructor.
      * apply wf_int.
    + apply wf_number. simpl. split; [ discriminate | intros _; discriminate ].
    + apply wf_string. unfold lit; simpl. solve_valid_chars.
    + apply wf_string. unfold lit; simpl. solve_valid_chars.
Qed.

Lemma canonical_bytes_iff_equiv_witness :
  wf_json nested_record /\ wf_json nested_record_permuted
  /\ exists b1 b2,
       canonical_bytes nested_record = Ok b1
       /\ canonical_bytes nested_record_permuted = Ok b2
       /\ Demo.hash_sentiment_data nested_record = Ok (SHA256.digest b1)
       /\ Demo.hash_sentiment_data nested_record_permuted = Ok (SHA256.digest b2)
       /\ CompareHashes.hash_data nested_record = Ok (SHA256.hexdigest b1)
       /\ CompareHashes.hash_data nested_record_permuted = Ok (SHA256.hexdigest b2)
       /\ (b1 = b2 <-> json_equiv nested_record nested_record_permuted)
       /\ (json_equiv nested_record nested_record_permuted ->
           Demo.hash_sentiment_data nested_record
           = Demo.hash_sentiment_data nested_record_permuted
           /\ CompareHashes.hash_data nested_record
              = CompareHashes.hash_data nested_record_permuted).
Proof.
  split; [ apply nested_record_wf | ]. split; [ apply nested_record_wf | ].
  apply (canonical_bytes_iff_equiv nested_record nested_record_permuted);
    apply nested_record_wf.
Defined.

Example nested_record_same_bytes :
  canonical_bytes nested_record = canonical_bytes nested_record_permuted
  /\ json_dumps false nested_record <> json_dumps false nested_record_permuted.
Proof. split; [ vm_compute; reflexivity | vm_compute; discriminate ]. Qed.


(** Outside the well-formed values: a string holding the two halves of a
    surrogate pair as separate code points is read back as one character. *)
Example surrogate_pair_is_joined :
  reload (JStr [0xD83D; 0xDE00]%N) = JStr [0x1F600%N]
  /\ json_dumps true (JStr [0xD83D; 0xDE00]%N) = json_dumps true (JStr [0x1F600%N]).
Proof. split; vm_compute; reflexivity. Qed.

(** ** What the two savers write and what the loaders read back *)

Lemma keystore_doc_wf (kp : keypair) : wf_json (keystore_doc kp).
Proof.
  apply wf_dict; [ apply (bool_decide_unpack _); vm_compute; exact I | ].
  repeat (apply Forall_cons; split; [ split; [ apply lit_wf_check; reflexivity | ] | ]);
    [ .. | apply Forall_nil_2 ]; apply wf_string, ascii_text_wf, b64encode_ascii.
Qed.

Lemma save_keypair_writes (kp : keypair) (filename : string)
    (fs : gmap string file) :
  Demo.save_keypair kp filename fs = Ok (<[filename := Document (keystore_doc kp)]> fs).
Proof.
  unfold Demo.save_keypair. rewrite !b64encode_str_ok. cbn [mbind result_bind].
  unfold json_dump. fold (keystore_doc kp). rewrite reload_wf by apply keystore_doc_wf.
  reflexivity.
Qed.

Lemma load_keypair_reads (kp : keypair) (filename : string)
    (fs : gmap string file) :
  fs !! filename = Some (Document (keystore_doc kp)) ->
  Demo.load_keypair filename fs = Ok kp.
Proof.
  intros Hfile. unfold Demo.load_keypair, json_load. rewrite Hfile.
  destruct (keystore_fields (JStr (b64text (private_key kp)))
              (JStr (b64text (public_key kp)))) as (Hp & Hq).
  unfold keystore_doc.
  cbn [mbind result_bind]. rewrite Hp. cbn [mbind result_bind].
  rewrite b64decode_b64text. cbn [mbind result_bind]. rewrite Hq.
  cbn [mbind result_bind]. rewrite b64decode_b64text. destruct kp; reflexivity.
Qed.

Lemma save_signed_data_writes (record : json) (signature public_key : bytes)
    (filename : string) (fs : gmap string file) :
  wf_json record ->
  Demo.save_signed_data record signature public_key filename fs
  = Ok (<[filename := Document (envelope_doc record signature public_key)]> fs).
Proof.
  intros Hwf. unfold Demo.save_signed_data. rewrite !b64encode_str_ok.
  cbn [mbind result_bind]. unfold json_dump.
  fold (envelope_doc record signature public_key).
  rewrite reload_wf by (apply envelope_wf, Hwf). reflexivity.
Qed.

Lemma extract_components_reads (record : json) (signature public_key : bytes)
    (filename : string) (fs : gmap string file) :
  fs !! filename = Some (Document (envelope_doc record signature public_key)) ->
  Demo.extract_components filename fs = Ok (record, signature, public_key).
Proof.
  intros Hfile. unfold Demo.extract_components, json_load. rewrite Hfile.
  destruct (envelope_fields record (JStr (b64text signature)) (JStr (b64text public_key)))
    as (Hd & Hs & Hp).
  unfold envelope_doc.
  cbn [mbind result_bind]. rewrite Hd. cbn [mbind result_bind].
  rewrite Hs. cbn [mbind result_bind]. rewrite b64decode_b64text.
  cbn [mbind result_bind]. rewrite Hp. cbn [mbind result_bind].
  rewrite b64decode_b64text. reflexivity.
Qed.

(** The outcome of [verify_signed_data] in terms of what was extracted. *)
Lemma verify_signed_data_outcome {E : Ed25519} (filename : string) (fs : gmap string file) :
  Demo.verify_signed_data filename fs
  = match Demo.extract_components filename fs with
    | Raise e => Raise e
    | Ok (record, signature, public_key) =>
        if decide (length public_key = 32%nat)
        then Ok (verify_raw public_key signature
                   (SHA256.digest (map byte_of_N (json_dumps true record))))
        else Raise ValueError
    end.
Proof.
  unfold Demo.verify_signed_data.
  destruct (Demo.extract_components filename fs) as [ [[record signature] public_key] | e ];
    [ | reflexivity ].
  cbn [mbind result_bind]. rewrite demo_hash_ok. cbn [mbind result_bind].
  destruct (decide (length public_key = 32%nat)) as [Hlen | Hlen].
  - rewrite verify_signature_32 by exact Hlen. reflexivity.
  - rewrite verify_signature_not_32 by exact Hlen. reflexivity.
Qed.

(** X1. A keypair written by [save_keypair] is the one [load_keypair] reads
    back from that file, whatever the bytes of the two keys, and no other
    file is touched. *)
Theorem keystore_roundtrip (kp : keypair) (filename : string)
    (fs : gmap string file) :
  exists fs',
    Demo.save_keypair kp filename fs = Ok fs'
    /\ Demo.load_keypair filename fs' = Ok kp
    /\ forall other, other <> filename -> fs' !! other = fs !! other.
Proof.
  eexists. split; [ apply save_keypair_writes | ]. split.
  - apply load_keypair_reads, lookup_insert_eq.
  - intros other Hother. apply lookup_insert_ne. congruence.
Qed.

(** X2. The verifier of [verify_tampering.py] and the one of [demo.py] give
    the same verdict, or raise the same exception, on every file. *)
Theorem verifiers_agree {E : Ed25519} (filename : string) (fs : gmap string file) :
  VerifyTampering.verify_signed_data filename fs = Demo.verify_signed_data filename fs.
Proof.
  unfold VerifyTampering.verify_signed_data, Demo.verify_signed_data,
    Demo.extract_components.
  destruct (json_load fs filename) as [ signed_data | e ]; [ | reflexivity ].
  cbn [mbind result_bind].
  destruct (getitem signed_data (lit "data")) as [ record | e ]; [ | reflexivity ].
  cbn [mbind result_bind].
  destruct (getitem signed_data (lit "signature")) as [ st | e ]; [ | reflexivity ].
  cbn [mbind result_bind].
  destruct (b64decode st) as [ signature | e ]; [ | reflexivity ].
  cbn [mbind result_bind].
  destruct (getitem signed_data (lit "public_key")) as [ pt | e ]; [ | reflexivity ].
  cbn [mbind result_bind].
  destruct (b64decode pt) as [ public_key | e ]; [ | reflexivity ].
  cbn [mbind result_bind].
  unfold VerifyTampering.hash_sentiment_data, Demo.hash_sentiment_data, Demo.verify_signature.
  destruct (str_encode_utf8 (json_dumps true record)) as [ encoded | e ]; [ | reflexivity ].
  cbn [mbind result_bind].
  destruct (from_public_bytes public_key) as [ key | e ]; [ | reflexivity ].
  cbn [mbind result_bind].
  destruct (Ed25519PublicKey_verify key signature (SHA256.digest encoded)); reflexivity.
Qed.

(** X3. The failures of [verify_signed_data]: an exception met while
    reading the file and taking the three fields out of it, or [ValueError]
    for a public key that is not 32 bytes long. Hashing the record and an
    invalid signature never raise. *)
Theorem verify_signed_data_failures {E : Ed25519} (filename : string)
    (fs : gmap string file) (e : exn) :
  Demo.verify_signed_data filename fs = Raise e
  <-> Demo.extract_components filename fs = Raise e
      \/ exists record signature public_key,
           Demo.extract_components filename fs = Ok (record, signature, public_key)
           /\ length public_key <> 32%nat /\ e = ValueError.
Proof.
  rewrite verify_signed_data_outcome.
  destruct (Demo.extract_components filename fs) as [ [[record signature] public_key] | e' ].
  - destruct (decide (length public_key = 32%nat)) as [Hlen | Hlen]; split.
    + discriminate.
    + intros [ H | (r & s & p & H & Hne & _) ]; [ discriminate | ].
      injection H as -> -> ->. contradiction.
    + intros H. injection H as <-. right. eauto 6.
    + intros [ H | (r & s & p & _ & _ & ->) ]; [ discriminate | reflexivity ].
  - split; intros H.
    + left. injection H as ->. reflexivity.
    + destruct H as [ H | (r & s & p & H & _) ]; [ | discriminate ].
      injection H as ->. reflexivity.
Qed.

(** ** Signing, saving and verifying together *)

Lemma sign_data_32 {E : Ed25519} (data_hash private_key_bytes : bytes) :
  length private_key_bytes = 32%nat ->
  Demo.sign_data data_hash private_key_bytes = Ok (sign_raw private_key_bytes data_hash).
Proof.
  intros Hlen. unfold Demo.sign_data, from_private_bytes.
  destruct (decide _) as [ _ | Hne ]; [ reflexivity | contradiction ].
Qed.

Lemma sign_data_not_32 {E : Ed25519} (data_hash private_key_bytes : bytes) :
  length private_key_bytes <> 32%nat ->
  Demo.sign_data data_hash private_key_bytes = Raise ValueError.
Proof.
  intros Hlen. unfold Demo.sign_data, from_private_bytes.
  destruct (decide _) as [ Heq | _ ]; [ contradiction | reflexivity ].
Qed.

(** The verdict on an envelope that holds the signature of its own record
    under the keypair of a 32-byte seed. *)
Lemma own_envelope_verdict {E : Ed25519} {HE : Ed25519Correct E} (seed : bytes)
    (record : json) (filename : string) (fs : gmap string file) :
  length seed = 32%nat ->
  fs !! filename
  = Some (Document (envelope_doc record
                      (sign_raw seed (SHA256.digest (map byte_of_N (json_dumps true record))))
                      (derive_public seed))) ->
  Demo.verify_signed_data filename fs = Ok true.
Proof.
  intros Hlen Hfile. rewrite verify_signed_data_outcome.
  rewrite (extract_components_reads _ _ _ _ _ Hfile).
  destruct (decide _) as [ _ | Hne ].
  - rewrite sign_then_verify by exact Hlen. reflexivity.
  - destruct Hne. apply derive_public_length, Hlen.
Qed.



(** ** [main] of demo.py *)

(** The file system after a run that found the keypair [kp] and signed
    [record]. *)
Lemma main_signs {E : Ed25519} (kp : keypair) (record : json) (fs1 : gmap string file) :
  length (private_key kp) = 32%nat ->
  wf_json record ->
  fs1 !! "sample_sentiment.json" = Some (Document record) ->
  let signature :=
    sign_raw (private_key kp) (SHA256.digest (map byte_of_N (json_dumps true record))) in
  let fs2 :=
    <["signed_sentiment.json" := Document (envelope_doc record signature (public_key kp))]>
      fs1 in
  match sentiment_data ← Demo.load_sentiment_data "sample_sentiment.json" fs1;
        data_hash ← Demo.hash_sentiment_data sentiment_data;
        signature ← Demo.sign_data data_hash (private_key kp);
        Ok (sentiment_data, signature) with
  | Raise e => (fs1, Raise e)
  | Ok (sentiment_data, signature) =>
      match Demo.save_signed_data sentiment_data signature (public_key kp)
              "signed_sentiment.json" fs1 with
      | Raise e => (fs1, Raise e)
      | Ok fs2 => (fs2, Demo.verify_signed_data "signed_sentiment.json" fs2)
      end
  end
  = (fs2, Demo.verify_signed_data "signed_sentiment.json" fs2).
Proof.
  intros Hlen Hwf Hfile signature fs2.
  unfold Demo.load_sentiment_data, json_load. rewrite Hfile.
  cbn [mbind result_bind]. rewrite demo_hash_ok. cbn [mbind result_bind].
  rewrite sign_data_32 by exact Hlen. cbn [mbind result_bind].
  rewrite save_signed_data_writes by exact Hwf. reflexivity.
Qed.



(** X6. Running [main] again changes nothing: the second run loads the
    keypair that the first one saved, whatever randomness is at hand, writes
    the same envelope and gives the same verdict. *)
Theorem main_second_run (E : Ed25519) (HE : Ed25519Correct E) (seed seed' : bytes)
    (record : json) (fs : gmap string file) :
  length seed = 32%nat ->
  wf_json record ->
  fs !! "oracle_keypair.json" = None ->
  fs !! "sample_sentiment.json" = Some (Document record) ->
  Demo.main seed' (Demo.main seed fs).1 = Demo.main seed fs.
Proof.
  intros Hlen Hwf Hnew Hfile.
  assert (Hfirst : exists fs1,
    fs1 !! "oracle_keypair.json" = Some (Document (keystore_doc (Demo.generate_keypair seed)))
    /\ fs1 !! "sample_sentiment.json" = Some (Document record)
    /\ Demo.main seed fs
       = (<["signed_sentiment.json" :=
              Document (envelope_doc record
                          (sign_raw seed (SHA256.digest (map byte_of_N (json_dumps true record))))
                          (derive_public seed))]> fs1,
          Ok true)).
  { eexists. split; [ apply lookup_insert_eq | ]. split.
    - rewrite lookup_insert_ne by discriminate. exact Hfile.
    - unfold Demo.main. rewrite Hnew, save_keypair_writes.
      rewrite (main_signs (Demo.generate_keypair seed) record _ Hlen Hwf)
        by (rewrite lookup_insert_ne by discriminate; exact Hfile).
      f_equal. apply (own_envelope_verdict seed record);
        [ exact Hlen | apply lookup_insert_eq ]. }
  destruct Hfirst as (fs1 & Hkey & Hrec & ->). cbn [fst].
  set (fs2 := <["signed_sentiment.json" := _]> fs1).
  assert (Hkey2 : fs2 !! "oracle_keypair.json"
                  = Some (Document (keystore_doc (Demo.generate_keypair seed)))).
  { unfold fs2. rewrite lookup_insert_ne by discriminate. exact Hkey. }
  assert (Hrec2 : fs2 !! "sample_sentiment.json" = Some (Document record)).
  { unfold fs2. rewrite lookup_insert_ne by discriminate. exact Hrec. }
  unfold Demo.main. rewrite Hkey2, (load_keypair_reads _ _ _ Hkey2).
  rewrite (main_signs (Demo.generate_keypair seed) record fs2 Hlen Hwf Hrec2).
  cbn [Demo.generate_keypair private_key public_key].
  unfold fs2. rewrite insert_insert_eq. f_equal.
  apply (own_envelope_verdict seed record); [ exact Hlen | apply lookup_insert_eq ].
Qed.

Lemma main_second_run_witness :
  length sample_seed = 32%nat
  /\ wf_json nested_record
  /\ fresh_files !! "oracle_keypair.json" = None
  /\ fresh_files !! "sample_sentiment.json" = Some (Document nested_record)
  /\ @Demo.main mock_ed25519 [] (@Demo.main mock_ed25519 sample_seed fresh_files).1
     = @Demo.main mock_ed25519 sample_seed fresh_files.
Proof.
  split; [ reflexivity | ]. split; [ apply nested_record_wf | ].
  split; [ reflexivity | ]. split; [ reflexivity | ].
  apply (main_second_run mock_ed25519 mock_ed25519_correct sample_seed [] nested_record
           fresh_files);
    [ reflexivity | apply nested_record_wf | reflexivity | reflexivity ].
Defined.

(** X7. A keystore is used as it is found: when the private key it holds is
    not 32 bytes long, [main] ends in [ValueError] at the signing step and
    writes no file. *)
Theorem main_rejects_short_key (E : Ed25519) (seed : bytes) (kp : keypair)
    (record : json) (fs : gmap string file) :
  Demo.load_keypair "oracle_keypair.json" fs = Ok kp ->
  length (private_key kp) <> 32%nat ->
  fs !! "sample_sentiment.json" = Some (Document record) ->
  Demo.main seed fs = (fs, Raise ValueError).
Proof.
  intros Hload Hlen Hfile.
  assert (Hf : is_Some (fs !! "oracle_keypair.json")).
  { unfold Demo.load_keypair, json_load in Hload.
    destruct (fs !! "oracle_keypair.json"); [ eauto | discriminate ]. }
  destruct Hf as [f Hf]. unfold Demo.main. rewrite Hf, Hload.
  unfold Demo.load_sentiment_data, json_load. rewrite Hfile.
  cbn [mbind result_bind]. rewrite demo_hash_ok. cbn [mbind result_bind].
  rewrite sign_data_not_32 by exact Hlen. reflexivity.
Qed.

Lemma main_rejects_short_key_witness :
  Demo.load_keypair "oracle_keypair.json" short_key_files
  = Ok {| private_key := [x61; x62; x63]; public_key := [x61; x62; x63] |}
  /\ length [x61; x62; x63] <> 32%nat
  /\ short_key_files !! "sample_sentiment.json" = Some (Document sample_record)
  /\ @Demo.main mock_ed25519 sample_seed short_key_files
     = (short_key_files, Raise ValueError).
Proof.
  split; [ vm_compute; reflexivity | ].
  split; [ simpl; lia | ]. split; [ reflexivity | ].
  apply (main_rejects_short_key mock_ed25519 sample_seed
           {| private_key := [x61; x62; x63]; public_key := [x61; x62; x63] |}
           sample_record short_key_files);
    [ vm_compute; reflexivity | simpl; lia | reflexivity ].
Defined.

(** X8. The keystore is written before the record is read: a first run that
    finds no [sample_sentiment.json] ends in [FileNotFoundError], and leaves
    the new keypair in the keystore and nothing else. *)
Theorem main_without_record (E : Ed25519) (seed : bytes) (fs : gmap string file) :
  fs !! "oracle_keypair.json" = None ->
  fs !! "sample_sentiment.json" = None ->
  exists fs',
    Demo.main seed fs = (fs', Raise FileNotFoundError)
    /\ Demo.load_keypair "oracle_keypair.json" fs' = Ok (Demo.generate_keypair seed)
    /\ forall other, other <> "oracle_keypair.json" -> fs' !! other = fs !! other.
Proof.
  intros Hnew Hnone.
  unfold Demo.main. rewrite Hnew, save_keypair_writes.
  unfold Demo.load_sentiment_data, json_load.
  rewrite lookup_insert_ne by discriminate. rewrite Hnone.
  eexists. split; [ reflexivity | ]. split.
  - apply load_keypair_reads, lookup_insert_eq.
  - intros other Hother. apply lookup_insert_ne. congruence.
Qed.

Lemma main_without_record_witness :
  (∅ : gmap string file) !! "oracle_keypair.json" = None
  /\ (∅ : gmap string file) !! "sample_sentiment.json" = None
  /\ exists fs',
       @Demo.main mock_ed25519 sample_seed ∅ = (fs', Raise FileNotFoundError)
       /\ Demo.load_keypair "oracle_keypair.json" fs'
          = Ok (@Demo.generate_keypair mock_ed25519 sample_seed)
       /\ forall other, other <> "oracle_keypair.json" -> fs' !! other = (∅ : gmap string file) !! other.
Proof.
  split; [ reflexivity | ]. split; [ reflexivity | ].
  apply (main_without_record mock_ed25519 sample_seed ∅); reflexivity.
Defined.

(** ** [==] agrees with field-for-field equality *)

Lemma number_eqb_refl (x : Z * Z) : number_eqb x x = true.
Proof. unfold number_eqb. apply Z.eqb_refl. Qed.

Lemma py_eq_list_cons (x y : json) (xs ys : list json) :
  py_eq (JList (x :: xs)) (JList (y :: ys))
  = ((is_nan x && is_nan y) || py_eq x y) && py_eq (JList xs) (JList ys).
Proof. reflexivity. Qed.

(** The value that an equivalent dict holds under a key of the first. *)
Lemma equiv_dict_lookup (xs ys : list (pystr * json)) (kv : pystr * json) :
  json_equiv (JDict xs) (JDict ys) ->
  NoDup (map fst ys) ->
  kv ∈ xs ->
  exists b, b ∈ ys /\ dict_lookup ys kv.1 = Some b.2 /\ json_equiv kv.2 b.2.
Proof.
  intros Hequiv Hnd Hin. inversion Hequiv as [ | | | | | | ? xs' ? ys' Hp1 Hp2 Hall ]; subst.
  rewrite Hp1 in Hin. apply list_elem_of_lookup_1 in Hin as [i Hi].
  destruct (Forall2_lookup_l _ _ _ _ _ Hall Hi) as (b & Hb & Hk & Hv).
  assert (Hbin : b ∈ ys).
  { rewrite Hp2. apply list_elem_of_lookup. eauto. }
  exists b. split; [ exact Hbin | ]. split; [ | exact Hv ].
  rewrite Hk. apply dict_lookup_NoDup; assumption.
Qed.

Lemma py_eq_equiv (a : json) :
  forall b, json_equiv a b -> wf_json b -> (is_nan a && is_nan b) || py_eq a b = true.
Proof.
  induction a as [ | c | n | f | s | xs IH | items IH ] using json_ind;
    intros b' Hequiv Hwf; inversion Hequiv; subst.
  - reflexivity.
  - destruct c; reflexivity.
  - apply number_eqb_refl.
  - destruct f as [ | neg | neg m e ]; [ reflexivity | simpl; apply eqb_reflx | ].
    cbn [is_nan andb orb py_eq number].
    destruct (double_of_decimal m e) as [mantissa k]. apply number_eqb_refl.
  - simpl. apply bool_decide_eq_true. reflexivity.
  - (* lists *)
    inversion Hwf as [ | | | | | ? Hwfs | ]; subst.
    match goal with H : Forall2 json_equiv xs _ |- _ => rename H into Hall end.
    clear Hequiv Hwf. change (is_nan (JList xs)) with false. cbn [andb orb].
    induction Hall as [ | x y l k Hxy Hall IHall ]; [ reflexivity | ].
    apply Forall_cons in IH as [IHx IH]. apply Forall_cons in Hwfs as [Hy Hwfs].
    rewrite py_eq_list_cons, (IHx _ Hxy Hy). apply IHall; assumption.
  - (* dicts *)
    inversion Hwf as [ | | | | | | ? Hnd Hwfs ]; subst.
    change (is_nan (JDict items)) with false. cbn [andb orb py_eq].
    apply andb_true_intro. split.
    + apply Nat.eqb_eq.
      match goal with
      | H1 : items ≡ₚ ?a, H2 : _ ≡ₚ ?b, H3 : Forall2 _ ?a ?b |- _ =>
          rewrite H1, H2; exact (Forall2_length _ _ _ H3)
      end.
    + apply forallb_forall. intros kv Hin. apply list_elem_of_In in Hin.
      destruct (equiv_dict_lookup _ _ kv Hequiv Hnd Hin) as (b & Hb & -> & Hv).
      rewrite Forall_forall in IH. apply (IH kv Hin _ Hv).
      rewrite Forall_forall in Hwfs. apply (Hwfs b Hb).
Qed.

(** Comparing a value with itself: [!=] holds of NaN alone. *)
Lemma py_ne_self (v : json) : wf_json v -> py_ne v v = is_nan v.
Proof.
  intros Hwf. pose proof (py_eq_equiv v v (json_equiv_refl v) Hwf) as Heq.
  unfold py_ne. destruct (is_nan v) eqn:Hnan.
  - destruct v as [ | | | [ | | ] | | | ]; try discriminate. reflexivity.
  - simpl in Heq. rewrite Heq. reflexivity.
Qed.

(** ** The loop of the report *)

Lemma changes_loop_quiet (original tampered : list (pystr * json)) (keys : list pystr)
    (found : bool) :
  (forall k, k ∈ keys ->
     exists old new, dict_lookup original k = Some old
                     /\ dict_lookup tampered k = Some new
                     /\ py_ne old new = false) ->
  CompareHashes.changes_loop keys (JDict original) (JDict tampered) found = ([], Ok found).
Proof.
  induction keys as [ | key keys IH ]; intros Hkeys; [ reflexivity | ].
  destruct (Hkeys key) as (old & new & Hold & Hnew & Hne); [ left | ].
  cbn [CompareHashes.changes_loop getitem]. unfold dict_get.
  rewrite Hold, Hnew, Hne. apply IH. intros k Hk. apply Hkeys. right. exact Hk.
Qed.

(** What the loop has printed when it ends normally, and its flag. *)
Lemma changes_loop_flag (keys : list pystr) (original tampered : json) :
  forall found out found',
    CompareHashes.changes_loop keys original tampered found = (out, Ok found') ->
    Forall (fun l => exists key old new, l = CompareHashes.FieldChanged key old new) out
    /\ found' = found || negb (bool_decide (out = [])).
Proof.
  induction keys as [ | key keys IH ]; intros found out found' Hloop.
  - injection Hloop as <- <-. split; [ constructor | ]. destruct found; reflexivity.
  - cbn [CompareHashes.changes_loop] in Hloop.
    destruct (getitem original key) as [ old | e ]; [ | discriminate ].
    destruct (getitem tampered key) as [ new | e ]; [ | discriminate ].
    destruct (py_ne old new).
    + destruct (encodable key && printable old && printable new); [ | discriminate ].
      destruct (CompareHashes.changes_loop keys original tampered true)
        as [out' r] eqn:Hrest.
      injection Hloop as <- ->.
      destruct (IH _ _ _ Hrest) as (Hall & ->). split.
      * constructor; [ eauto | exact Hall ].
      * destruct found; reflexivity.
    + apply IH, Hloop.
Qed.

(** The loop ends early only at a key that the tampered record lacks, or at
    a changed field that cannot be printed. *)
Lemma changes_loop_raises (original tampered : list (pystr * json)) (keys : list pystr) :
  (forall k, k ∈ keys -> is_Some (dict_lookup original k)) ->
  forall found out e,
    CompareHashes.changes_loop keys (JDict original) (JDict tampered) found
    = (out, Raise e) ->
    exists key,
      key ∈ keys
      /\ ((dict_lookup tampered key = None /\ e = KeyError key)
          \/ (line_prints original tampered key = false /\ e = UnicodeEncodeError)).
Proof.
  induction keys as [ | key keys IH ]; intros Hkeys found out e Hloop; [ discriminate | ].
  cbn [CompareHashes.changes_loop getitem] in Hloop. unfold dict_get in Hloop.
  destruct (Hkeys key) as [old Hold]; [ left | ]. rewrite Hold in Hloop.
  assert (Hrest : forall k, k ∈ keys -> is_Some (dict_lookup original k)).
  { intros k Hk. apply Hkeys. right. exact Hk. }
  destruct (dict_lookup tampered key) as [ new | ] eqn:Hnew.
  - destruct (py_ne old new) eqn:Hne.
    + destruct (encodable key && printable old && printable new) eqn:Hprint.
      * destruct (CompareHashes.changes_loop keys (JDict original) (JDict tampered) true)
          as [out' r] eqn:Hloop'.
        injection Hloop as <- ->.
        destruct (IH Hrest _ _ _ Hloop') as (k & Hk & Hcase).
        exists k. split; [ right; exact Hk | exact Hcase ].
      * injection Hloop as <- <-. exists key. split; [ left | right ].
        split; [ | reflexivity ].
        unfold line_prints. rewrite Hold, Hnew, Hne, Hprint. reflexivity.
    + destruct (IH Hrest _ _ _ Hloop) as (k & Hk & Hcase).
      exists k. split; [ right; exact Hk | exact Hcase ].
  - injection Hloop as <- <-. exists key. split; [ left | left; auto ].
Qed.

(** What [load_and_hash] returns is a [dict]: its [label] was read. *)
Lemma load_and_hash_dict (filename : string) (fs : gmap string file)
    (out : list CompareHashes.line) (data : json) (data_hash : pystr) :
  CompareHashes.load_and_hash filename fs = (out, Ok (data, data_hash)) ->
  exists items, data = JDict items.
Proof.
  unfold CompareHashes.load_and_hash. intros Hload.
  destruct (_ ← CompareHashes.load_json filename fs; _) as [ data' | e ]; [ | discriminate ].
  destruct (CompareHashes.hash_data data') as [ h | e ]; [ | discriminate ].
  destruct (getitem data' (lit "label")) as [ label | e ] eqn:Hlabel; [ | discriminate ].
  destruct (printable label); [ | discriminate ].
  injection Hload as <- <- <-.
  destruct data'; try discriminate. eauto.
Qed.

(** Well-formed values can be printed. *)
Lemma wf_str_encodable (s : pystr) : wf_str s -> encodable s = true.
Proof.
  intros Hwf. apply forallb_forall. intros c Hc. apply list_elem_of_In in Hc.
  unfold wf_str in Hwf. rewrite Forall_forall in Hwf.
  destruct (Hwf c Hc) as [_ ->]. reflexivity.
Qed.

Lemma wf_printable (v : json) : wf_json v -> printable v = true.
Proof.
  intros Hwf. destruct v; try reflexivity.
  inversion Hwf; subst. apply wf_str_encodable. assumption.
Qed.

Lemma dict_lookup_In (items : list (pystr * json)) (key : pystr) (v : json) :
  dict_lookup items key = Some v -> (key, v) ∈ items.
Proof.
  induction items as [ | [k w] items IH ]; [ discriminate | ].
  simpl. destruct (decide (k = key)) as [ -> | _ ].
  - intros [= ->]. left.
  - intros H. right. apply IH, H.
Qed.

Lemma wf_report_prints (original tampered : list (pystr * json)) :
  wf_json (JDict original) -> wf_json (JDict tampered) ->
  report_prints original tampered = true.
Proof.
  intros Hwf1 Hwf2.
  inversion Hwf1 as [ | | | | | | ? _ Hwfs1 ]; subst.
  inversion Hwf2 as [ | | | | | | ? _ Hwfs2 ]; subst.
  rewrite Forall_forall in Hwfs1, Hwfs2.
  apply forallb_forall. intros key _. unfold line_prints.
  destruct (dict_lookup original key) as [ old | ] eqn:Hold; [ | reflexivity ].
  destruct (dict_lookup tampered key) as [ new | ] eqn:Hnew; [ | reflexivity ].
  apply dict_lookup_In in Hold, Hnew.
  destruct (Hwfs1 _ Hold) as [Hkey Hv1]. destruct (Hwfs2 _ Hnew) as [_ Hv2].
  cbn [fst snd] in *.
  rewrite (wf_str_encodable _ Hkey), (wf_printable _ Hv1), (wf_printable _ Hv2).
  apply orb_true_r.
Qed.

Lemma py_ne_equiv (a b : json) : json_equiv a b -> wf_json b -> py_ne a b = is_nan a.
Proof.
  intros Hequiv Hwf. pose proof (py_eq_equiv a b Hequiv Hwf) as Heq.
  unfold py_ne. destruct (is_nan a) eqn:Hnan.
  - destruct a as [ | | | [ | | ] | | | ]; try discriminate.
    inversion Hequiv; subst. reflexivity.
  - simpl in Heq. rewrite Heq. reflexivity.
Qed.

(** X9. A report that ends normally is either the single line "no
    differences found" or a list of changed fields that is not empty: the
    two never mix, and the report is never empty. *)
Theorem report_shape (original : list (pystr * json)) (tampered : json)
    (out : list CompareHashes.line) :
  CompareHashes.changes_detected original tampered = (out, Ok tt) ->
  out = [CompareHashes.NoDifferencesFound]
  \/ (out <> [] /\ Forall is_field_changed out).
Proof.
  unfold CompareHashes.changes_detected.
  destruct (CompareHashes.changes_loop _ _ _ _) as [out' [ found | e ]] eqn:Hloop;
    [ | discriminate ].
  intros H. injection H as <-.
  destruct (changes_loop_flag _ _ _ _ _ _ Hloop) as (Hall & ->).
  destruct out' as [ | l out' ]; [ left; reflexivity | right ].
  simpl. rewrite app_nil_r. split; [ discriminate | exact Hall ].
Qed.

Lemma report_shape_witness :
  let original := [(lit "id", JStr (lit "1")); (lit "label", JStr (lit "POSITIVE"))] in
  let tampered := JDict [(lit "label", JStr (lit "NEGATIVE")); (lit "id", JStr (lit "1"))] in
  let out := [CompareHashes.FieldChanged (lit "label") (JStr (lit "POSITIVE"))
                (JStr (lit "NEGATIVE"))] in
  CompareHashes.changes_detected original tampered = (out, Ok tt)
  /\ (out = [CompareHashes.NoDifferencesFound]
      \/ (out <> [] /\ Forall is_field_changed out)).
Proof.
  intros original tampered out. split; [ vm_compute; reflexivity | ].
  apply (report_shape original tampered out). vm_compute. reflexivity.
Defined.

(** X10. Two exceptions can leave [main] of compare_hashes.py, both out of
    the loop: the [KeyError] of a field of the original record that the
    tampered record lacks, and the [UnicodeEncodeError] of printing a changed
    field whose key, or one of whose values when it is a string, holds a lone
    surrogate. Whatever goes wrong while the two files are loaded, hashed
    and their labels printed is caught, and [main] returns. *)
Theorem main_exceptions (fs : gmap string file)
    (out : list CompareHashes.line) (e : exn) :
  CompareHashes.main fs = (out, Raise e) ->
  exists original tampered out1 out2 hash1 hash2 key,
    CompareHashes.load_and_hash "signed_sentiment_original.json" fs
    = (out1, Ok (JDict original, hash1))
    /\ CompareHashes.load_and_hash "signed_sentiment.json" fs
       = (out2, Ok (JDict tampered, hash2))
    /\ key ∈ map fst original
    /\ ((dict_lookup tampered key = None /\ e = KeyError key)
        \/ (exists old new,
              dict_lookup original key = Some old
              /\ dict_lookup tampered key = Some new
              /\ py_ne old new = true
              /\ encodable key && printable old && printable new = false
              /\ e = UnicodeEncodeError)).
Proof.
  unfold CompareHashes.main.
  destruct (CompareHashes.load_and_hash "signed_sentiment_original.json" fs)
    as [out1 [ [original hash1] | e1 ]] eqn:Hload1; [ | discriminate ].
  destruct (CompareHashes.load_and_hash "signed_sentiment.json" fs)
    as [out2 [ [tampered hash2] | e2 ]] eqn:Hload2; [ | discriminate ].
  destruct (load_and_hash_dict _ _ _ _ _ Hload1) as [items ->].
  destruct (load_and_hash_dict _ _ _ _ _ Hload2) as [items' ->].
  unfold CompareHashes.changes_detected.
  destruct (CompareHashes.changes_loop _ _ _ _) as [out3 [ found | e3 ]] eqn:Hloop;
    [ discriminate | ].
  intros H. injection H as <- <-.
  assert (Hkeys : forall k, k ∈ map fst items -> is_Some (dict_lookup items k)).
  { intros k Hk. apply dict_lookup_keys, Hk. }
  destruct (changes_loop_raises items items' (map fst items) Hkeys _ _ _ Hloop)
    as (key & Hkey & Hcase).
  exists items, items', out1, out2, hash1, hash2, key.
  split; [ reflexivity | ]. split; [ reflexivity | ]. split; [ exact Hkey | ].
  destruct Hcase as [ Hmissing | [Hline ->] ]; [ left; exact Hmissing | right ].
  unfold line_prints in Hline.
  destruct (dict_lookup items key) as [ old | ]; [ | discriminate ].
  destruct (dict_lookup items' key) as [ new | ]; [ | discriminate ].
  exists old, new. apply orb_false_iff in Hline as [Hne Hprint].
  apply negb_false_iff in Hne. auto 6.
Qed.

Lemma main_exceptions_witness :
  CompareHashes.main removed_field_files
  = ([ CompareHashes.DataHash
         (lit "d10f6dce5e6e049ca94326175b7070577a5951e8d6f294f1cb51a5a1960eedef");
       CompareHashes.Label (JStr (lit "POSITIVE"));
       CompareHashes.DataHash
         (lit "5c74f236d3d5edfdb5b1a2158093dbf3470bfe3b1b9351f363b798bd713c2802");
       CompareHashes.Label (JStr (lit "POSITIVE"));
       CompareHashes.HashesDiffer ],
     Raise (KeyError (lit "score")))
  /\ exists original tampered out1 out2 hash1 hash2 key,
       CompareHashes.load_and_hash "signed_sentiment_original.json" removed_field_files
       = (out1, Ok (JDict original, hash1))
       /\ CompareHashes.load_and_hash "signed_sentiment.json" removed_field_files
          = (out2, Ok (JDict tampered, hash2))
       /\ key ∈ map fst original
       /\ ((dict_lookup tampered key = None /\ KeyError (lit "score") = KeyError key)
           \/ (exists old new,
                 dict_lookup original key = Some old
                 /\ dict_lookup tampered key = Some new
                 /\ py_ne old new = true
                 /\ encodable key && printable old && printable new = false
                 /\ KeyError (lit "score") = UnicodeEncodeError)).
Proof.
  split; [ vm_compute; reflexivity | ].
  apply (main_exceptions removed_field_files
           [ CompareHashes.DataHash
               (lit "d10f6dce5e6e049ca94326175b7070577a5951e8d6f294f1cb51a5a1960eedef");
             CompareHashes.Label (JStr (lit "POSITIVE"));
             CompareHashes.DataHash
               (lit "5c74f236d3d5edfdb5b1a2158093dbf3470bfe3b1b9351f363b798bd713c2802");
             CompareHashes.Label (JStr (lit "POSITIVE"));
             CompareHashes.HashesDiffer ]
           (KeyError (lit "score"))).
  vm_compute. reflexivity.
Defined.

(** Both ways out of the loop, and the label that cannot be printed, which
    the first [try] catches. *)
Example lone_surrogate_escapes :
  (exists out, CompareHashes.main lone_surrogate_files = (out, Raise UnicodeEncodeError))
  /\ (exists data_hash,
        CompareHashes.main lone_surrogate_label
        = ([ CompareHashes.DataHash data_hash;
             CompareHashes.ErrorLoadingOriginal UnicodeEncodeError ], Ok tt)).
Proof. split; eexists; vm_compute; reflexivity. Qed.

(** X11. Between two records that are equal field for field (at any depth
    and whatever the order of their keys) the hashes match, and the fields
    reported as changed are exactly those whose value is NaN, which [!=]
    tells apart from itself. Without such a field nothing is reported. *)
Theorem equal_records_report (original tampered : list (pystr * json)) :
  wf_json (JDict original) ->
  wf_json (JDict tampered) ->
  json_equiv (JDict original) (JDict tampered) ->
  CompareHashes.hash_data (JDict original) = CompareHashes.hash_data (JDict tampered)
  /\ exists out,
       CompareHashes.changes_detected original (JDict tampered) = (out, Ok tt)
       /\ reported_keys out = map fst (List.filter (fun kv => is_nan kv.2) original).
Proof.
  intros Hwf1 Hwf2 Hequiv. split.
  { unfold CompareHashes.hash_data.
    rewrite (json_equiv_dumps _ _ Hequiv Hwf1). reflexivity. }
  inversion Hwf1 as [ | | | | | | ? Hnd1 _ ]; subst.
  inversion Hwf2 as [ | | | | | | ? Hnd2 Hwfs2 ]; subst.
  assert (Hfield : forall kv, kv ∈ original ->
            exists b, b ∈ tampered /\ dict_lookup tampered kv.1 = Some b.2
                      /\ json_equiv kv.2 b.2).
  { intros kv Hin. apply (equiv_dict_lookup original); assumption. }
  destruct (changes_detected_spec original tampered) as (tail & -> & Htail).
  { intros k Hk. apply list_elem_of_fmap in Hk as (kv & -> & Hin).
    destruct (Hfield kv Hin) as (b & _ & Hb & _). eauto. }
  { apply wf_report_prints; assumption. }
  eexists. split; [ reflexivity | ].
  rewrite reported_keys_app by exact Htail.
  rewrite reported_keys_changed.
  - f_equal. apply List.filter_ext_in. intros kv Hin. apply list_elem_of_In in Hin.
    destruct (Hfield kv Hin) as (b & Hbin & Hb & Hv).
    unfold changed. rewrite Hb. apply py_ne_equiv; [ exact Hv | ].
    rewrite Forall_forall in Hwfs2. apply (Hwfs2 b Hbin).
  - intros kv Hin. apply dict_lookup_NoDup; assumption.
  - intros kv Hin. destruct (Hfield kv Hin) as (b & _ & Hb & _). eauto.
Qed.

Lemma nan_fields_wf : wf_json (JDict nan_fields_record) /\ wf_json (JDict nan_fields_permuted).
Proof.
  split; (apply wf_dict; [ apply (bool_decide_unpack _); vm_compute; exact I | ]);
    repeat (apply Forall_cons; split; [ split; [ apply lit_wf_check; reflexivity | ] | ]);
    try apply Forall_nil_2;
    try (apply wf_string, lit_wf_check; reflexivity);
    try (apply wf_number; exact I);
    apply wf_list; repeat constructor.
Qed.

Lemma nan_fields_equiv : json_equiv (JDict nan_fields_record) (JDict nan_fields_permuted).
Proof.
  apply permuted_dict_equiv.
  change nan_fields_permuted with (reverse nan_fields_record).
  symmetry. apply reverse_Permutation.
Qed.

Lemma equal_records_report_witness :
  wf_json (JDict nan_fields_record)
  /\ wf_json (JDict nan_fields_permuted)
  /\ json_equiv (JDict nan_fields_record) (JDict nan_fields_permuted)
  /\ CompareHashes.hash_data (JDict nan_fields_record)
     = CompareHashes.hash_data (JDict nan_fields_permuted)
  /\ exists out,
       CompareHashes.changes_detected nan_fields_record (JDict nan_fields_permuted)
       = (out, Ok tt)
       /\ reported_keys out
          = map fst (List.filter (fun kv => is_nan kv.2) nan_fields_record).
Proof.
  split; [ apply nan_fields_wf | ]. split; [ apply nan_fields_wf | ].
  split; [ apply nan_fields_equiv | ].
  apply (equal_records_report nan_fields_record nan_fields_permuted);
    [ apply nan_fields_wf | apply nan_fields_wf | apply nan_fields_equiv ].
Defined.

(** The report on [nan_fields_record] against itself names its NaN score,
    and not the list that holds a NaN. *)
Example nan_field_is_reported :
  CompareHashes.changes_detected nan_fields_record (JDict nan_fields_record)
  = ([CompareHashes.FieldChanged (lit "score") (JFloat FNan) (JFloat FNan)], Ok tt).
Proof. vm_compute. reflexivity. Qed.

Lemma dict_lookup_Permutation (items items' : list (pystr * json)) (key : pystr) :
  NoDup (map fst items) -> items ≡ₚ items' ->
  dict_lookup items key = dict_lookup items' key.
Proof.
  intros Hnd Hperm.
  assert (Hnd' : NoDup (map fst items')) by (rewrite <- Hperm; exact Hnd).
  destruct (dict_lookup items key) as [ v | ] eqn:Hv.
  - assert (Hin : (key, v) ∈ items).
    { clear -Hv. induction items as [ | [k w] items IH ]; [ discriminate | ].
      simpl in Hv. destruct (decide (k = key)) as [ -> | _ ].
      - injection Hv as ->. left.
      - right. apply IH, Hv. }
    rewrite Hperm in Hin. symmetry. apply (dict_lookup_NoDup items' (key, v) Hnd' Hin).
  - destruct (dict_lookup items' key) as [ w | ] eqn:Hw; [ | reflexivity ].
    assert (His : is_Some (dict_lookup items key)).
    { apply dict_lookup_keys. rewrite Hperm. apply dict_lookup_keys. eauto. }
    rewrite Hv in His. destruct His as [? ?]. discriminate.
Qed.

Lemma changes_loop_ext (original : json) (tampered tampered' : list (pystr * json))
    (keys : list pystr) :
  (forall key, dict_lookup tampered key = dict_lookup tampered' key) ->
  forall found,
    CompareHashes.changes_loop keys original (JDict tampered) found
    = CompareHashes.changes_loop keys original (JDict tampered') found.
Proof.
  intros Hext. induction keys as [ | key keys IH ]; intros found; [ reflexivity | ].
  cbn [CompareHashes.changes_loop getitem]. unfold dict_get.
  rewrite Hext, !IH. reflexivity.
Qed.

(** X12. The report does not depend on the order in which the tampered
    record holds its fields: the lines printed, their order, and the
    exception that ends the loop are the same. *)
Theorem report_ignores_tampered_order (original tampered tampered' : list (pystr * json)) :
  NoDup (map fst tampered) ->
  tampered ≡ₚ tampered' ->
  CompareHashes.changes_detected original (JDict tampered)
  = CompareHashes.changes_detected original (JDict tampered').
Proof.
  intros Hnd Hperm. unfold CompareHashes.changes_detected.
  rewrite (changes_loop_ext _ tampered tampered'); [ reflexivity | ].
  intros key. apply dict_lookup_Permutation; assumption.
Qed.

Lemma report_ignores_tampered_order_witness :
  NoDup (map fst nan_fields_record)
  /\ nan_fields_record ≡ₚ nan_fields_permuted
  /\ CompareHashes.changes_detected nan_fields_record (JDict nan_fields_record)
     = CompareHashes.changes_detected nan_fields_record (JDict nan_fields_permuted).
Proof.
  assert (Hnd : NoDup (map fst nan_fields_record)).
  { apply (bool_decide_unpack _). vm_compute. exact I. }
  assert (Hperm : nan_fields_record ≡ₚ nan_fields_permuted).
  { change nan_fields_permuted with (reverse nan_fields_record).
    symmetry. apply reverse_Permutation. }
  split; [ exact Hnd | ]. split; [ exact Hperm | ].
  apply (report_ignores_tampered_order nan_fields_record nan_fields_record
           nan_fields_permuted Hnd Hperm).
Defined.

(** X13. The verdict on an envelope depends on the record only up to the
    order of its keys: two files that hold the same signature and public
    key, and records equal field for field, get the same verdict or the same
    exception. *)
Theorem verdict_ignores_key_order (E : Ed25519) (filename1 filename2 : string)
    (fs1 fs2 : gmap string file) (record1 record2 : json)
    (signature public_key : bytes) :
  Demo.extract_components filename1 fs1 = Ok (record1, signature, public_key) ->
  Demo.extract_components filename2 fs2 = Ok (record2, signature, public_key) ->
  wf_json record1 ->
  json_equiv record1 record2 ->
  Demo.verify_signed_data filename1 fs1 = Demo.verify_signed_data filename2 fs2.
Proof.
  intros Hfile1 Hfile2 Hwf Hequiv.
  rewrite !verify_signed_data_outcome, Hfile1, Hfile2.
  rewrite (json_equiv_dumps _ _ Hequiv Hwf). reflexivity.
Qed.

Lemma nested_record_equiv : json_equiv nested_record nested_record_permuted.
Proof.
  apply (json_dumps_inj nested_record nested_record_permuted [] []);
    [ apply nested_record_wf | apply nested_record_wf | exact I | exact I | ].
  vm_compute. reflexivity.
Qed.

Lemma verdict_ignores_key_order_witness :
  let signature :=
    sample_seed ++ SHA256.digest (map byte_of_N (json_dumps true nested_record)) in
  Demo.extract_components "signed_sentiment_original.json" reordered_envelopes
  = Ok (nested_record, signature, sample_seed)
  /\ Demo.extract_components "signed_sentiment.json" reordered_envelopes
     = Ok (nested_record_permuted, signature, sample_seed)
  /\ wf_json nested_record
  /\ json_equiv nested_record nested_record_permuted
  /\ @Demo.verify_signed_data mock_ed25519 "signed_sentiment_original.json"
       reordered_envelopes
     = @Demo.verify_signed_data mock_ed25519 "signed_sentiment.json" reordered_envelopes.
Proof.
  intros signature.
  assert (H1 : Demo.extract_components "signed_sentiment_original.json" reordered_envelopes
               = Ok (nested_record, signature, sample_seed)).
  { apply extract_components_reads. reflexivity. }
  assert (H2 : Demo.extract_components "signed_sentiment.json" reordered_envelopes
               = Ok (nested_record_permuted, signature, sample_seed)).
  { apply extract_components_reads. reflexivity. }
  split; [ exact H1 | ]. split; [ exact H2 | ].
  split; [ apply nested_record_wf | ]. split; [ apply nested_record_equiv | ].
  apply (verdict_ignores_key_order mock_ed25519 "signed_sentiment_original.json"
           "signed_sentiment.json" reordered_envelopes reordered_envelopes
           nested_record nested_record_permuted signature sample_seed H1 H2);
    [ apply nested_record_wf | apply nested_record_equiv ].
Defined.

(** Both envelopes of [reordered_envelopes] verify. *)
Example reordered_envelopes_verify :
  @Demo.verify_signed_data mock_ed25519 "signed_sentiment_original.json" reordered_envelopes
  = Ok true
  /\ @Demo.verify_signed_data mock_ed25519 "signed_sentiment.json" reordered_envelopes
     = Ok true.
Proof. split; vm_compute; reflexivity. Qed.

(** ** The adjustment of sentiment_analyzer.py *)

Lemma float_ltb_irrefl (x : pyfloat) : SentimentAnalyzer.float_ltb x x = false.
Proof.
  destruct x as [ | s | s m e ]; [ reflexivity | destruct s; reflexivity | ].
  unfold SentimentAnalyzer.float_ltb, SentimentAnalyzer.number_ltb. apply Z.ltb_irrefl.
Qed.

Lemma float_ltb_asym (x y : pyfloat) :
  SentimentAnalyzer.float_ltb x y = true -> SentimentAnalyzer.float_ltb y x = false.
Proof.
  destruct x as [ | s | s m e ], y as [ | t | t n d ]; simpl; try discriminate;
    try reflexivity.
  - destruct s, t; simpl; try discriminate; reflexivity.
  - intros ->. reflexivity.
  - destruct t; simpl; [ discriminate | reflexivity ].
  - unfold SentimentAnalyzer.number_ltb. cbn [fst snd]. rewrite (Z.min_comm d e).
    intros H. apply Z.ltb_lt in H. apply Z.ltb_ge. lia.
Qed.

Lemma max_not_below (a b : pyfloat) :
  SentimentAnalyzer.float_ltb (SentimentAnalyzer.max a b) a = false.
Proof.
  unfold SentimentAnalyzer.max. destruct (SentimentAnalyzer.float_ltb a b) eqn:Hab.
  - apply float_ltb_asym, Hab.
  - apply float_ltb_irrefl.
Qed.

Lemma max_idempotent (a b : pyfloat) :
  SentimentAnalyzer.max (SentimentAnalyzer.max a b) b = SentimentAnalyzer.max a b.
Proof.
  unfold SentimentAnalyzer.max at 2 3.
  destruct (SentimentAnalyzer.float_ltb a b) eqn:Hab.
  - unfold SentimentAnalyzer.max. rewrite float_ltb_irrefl. reflexivity.
  - unfold SentimentAnalyzer.max. rewrite Hab. reflexivity.
Qed.

(** X14. The adjustment never lowers the score of the classifier: the
    adjusted score is not below the score it was given, whatever the text
    and the label. *)
Theorem adjustment_never_lowers_score (text_lower label : pystr) (score : pyfloat) :
  SentimentAnalyzer.float_ltb
    (SentimentAnalyzer.adjust_financial_sentiment text_lower label score).2 score
  = false.
Proof.
  unfold SentimentAnalyzer.adjust_financial_sentiment.
  repeat match goal with |- context [ if ?c then _ else _ ] => destruct c end;
    cbn [snd]; first [ apply max_not_below | apply float_ltb_irrefl ].
Qed.

(** X15. Adjusting twice is adjusting once: on the label and score that the
    adjustment returned for a text, it returns them again. *)
Theorem adjustment_idempotent (text_lower label : pystr) (score : pyfloat) :
  let adjusted := SentimentAnalyzer.adjust_financial_sentiment text_lower label score in
  SentimentAnalyzer.adjust_financial_sentiment text_lower adjusted.1 adjusted.2 = adjusted.
Proof.
  unfold SentimentAnalyzer.adjust_financial_sentiment. cbv zeta.
  set (positive := (_ <? _)%nat && _). set (negative := (_ <? _)%nat && _).
  destruct positive; [ cbn [fst snd]; rewrite max_idempotent; reflexivity | ].
  destruct negative; [ cbn [fst snd]; rewrite max_idempotent; reflexivity | ].
  destruct (SentimentAnalyzer.float_ltb (FFinite false 4 (-1)) score
            && SentimentAnalyzer.float_ltb score (FFinite false 6 (-1))) eqn:Hband;
    cbn [fst snd]; rewrite Hband; reflexivity.
Qed.

Lemma max_not_below_second (a b : pyfloat) :
  SentimentAnalyzer.float_ltb (SentimentAnalyzer.max a b) b = false.
Proof.
  unfold SentimentAnalyzer.max. destruct (SentimentAnalyzer.float_ltb a b) eqn:Hab.
  - apply float_ltb_irrefl.
  - exact Hab.
Qed.

(** X16. When the text holds more terms of one list than of the other, the
    terms decide alone: the label is that of the longer count, whatever
    the classifier said, and the adjusted score is not below 0.75. *)
Theorem terms_decide_label (text_lower label : pystr) (score : pyfloat) :
  let positive_matches :=
    SentimentAnalyzer.matches SentimentAnalyzer.positive_terms text_lower in
  let negative_matches :=
    SentimentAnalyzer.matches SentimentAnalyzer.negative_terms text_lower in
  let adjusted := SentimentAnalyzer.adjust_financial_sentiment text_lower label score in
  positive_matches <> negative_matches ->
  adjusted.1 = (if (negative_matches <? positive_matches)%nat
                then lit "POSITIVE" else lit "NEGATIVE")
  /\ SentimentAnalyzer.float_ltb adjusted.2 (FFinite false 75 (-2)) = false.
Proof.
  intros positive_matches negative_matches adjusted Hne. subst adjusted.
  unfold SentimentAnalyzer.adjust_financial_sentiment. cbv zeta.
  fold positive_matches negative_matches.
  destruct (Nat.ltb_spec negative_matches positive_matches) as [ Hlt | Hge ].
  - destruct (Nat.leb_spec 1 positive_matches) as [ _ | Hzero ]; [ | lia ].
    cbn [andb fst snd]. split; [ reflexivity | apply max_not_below_second ].
  - cbn [andb].
    destruct (Nat.ltb_spec positive_matches negative_matches) as [ Hlt | Hge' ]; [ | lia ].
    destruct (Nat.leb_spec 1 negative_matches) as [ _ | Hzero ]; [ | lia ].
    cbn [andb fst snd]. split; [ reflexivity | apply max_not_below_second ].
Qed.

Lemma terms_decide_label_witness :
  let text_lower := lit "buying the dip" in
  let positive_matches :=
    SentimentAnalyzer.matches SentimentAnalyzer.positive_terms text_lower in
  let negative_matches :=
    SentimentAnalyzer.matches SentimentAnalyzer.negative_terms text_lower in
  let adjusted :=
    SentimentAnalyzer.adjust_financial_sentiment text_lower (lit "NEGATIVE")
      (FFinite false 6 (-1)) in
  positive_matches <> negative_matches
  /\ adjusted.1 = (if (negative_matches <? positive_matches)%nat
                   then lit "POSITIVE" else lit "NEGATIVE")
  /\ SentimentAnalyzer.float_ltb adjusted.2 (FFinite false 75 (-2)) = false.
Proof.
  intros text_lower positive_matches negative_matches adjusted.
  split; [ vm_compute; discriminate | ].
  apply (terms_decide_label text_lower (lit "NEGATIVE") (FFinite false 6 (-1))).
  vm_compute. discriminate.
Defined.

(** [buy] is found inside [buying], so the text counts two positive terms
    against one negative. *)
Example buying_the_dip :
  SentimentAnalyzer.adjust_financial_sentiment (lit "buying the dip") (lit "NEGATIVE")
    (FFinite false 6 (-1))
  = (lit "POSITIVE", FFinite false 75 (-2)).
Proof. vm_compute. reflexivity. Qed.
